(** * ProgressBar: a shallow embedding of [ProgressBar.pyx]

    The repository ships two historical variants of the same Cython
    extension type inside [src/ProgressBar/ProgressBar.pyx]:

    - the sequence-aware bar (lines 1-228, fields declared by the [.pxd]
      that has [_index] and [sequence], [num_jobs : unsigned long]);
    - the integer-only bar (lines 229-405, fields declared by
      [ProgressBar.pxd], [num_jobs : int]).

    Both are embedded below, as [SeqBar] and [IntBar], and the
    command-line driver of the sequence-aware module ([print_help] and
    [main]) as [Driver].  C doubles are
    Rocq's primitive binary64 floats, C integers are [Z] with the
    conversions written out, Python exceptions are an outcome of a small
    state-and-exception monad, the wall clock is an oracle read once per
    [time.time()] call, and standard output is the list of calls made
    on it. *)

From Stdlib Require Import ZArith Lia Bool List String Ascii.
From Stdlib Require Import DecimalString Floats.
From Stdlib Require DecimalPos DecimalZ.
Import ListNotations.

Set Warnings "-inexact-float".

Local Open Scope Z_scope.

(** ** C integer types *)

Definition INT_MIN : Z := -2147483648.
Definition INT_MAX : Z := 2147483647.
Definition UINT_MAX : Z := 4294967295.
Definition USHRT_MAX : Z := 65535.
Definition ULONG_MAX : Z := 18446744073709551615.

(** Conversion of an integer to [int]: two's complement on 32 bits.
    It is also the result of [int] arithmetic that overflows, which
    wraps in an extension module (CPython compiles them with
    [-fwrapv]). *)
Definition to_int (z : Z) : Z := (z + 2147483648) mod 4294967296 - 2147483648.

(** Conversion of an integer to [unsigned long]: modulo 2^64. *)
Definition to_ulong (z : Z) : Z := z mod 18446744073709551616.

Definition in_int (z : Z) : bool := (INT_MIN <=? z) && (z <=? INT_MAX).
Definition in_uint (z : Z) : bool := (0 <=? z) && (z <=? UINT_MAX).
Definition in_ushort (z : Z) : bool := (0 <=? z) && (z <=? USHRT_MAX).
Definition in_ulong (z : Z) : bool := (0 <=? z) && (z <=? ULONG_MAX).

(** ** C doubles *)

(** [(double) n] for a non-negative integer below 2^64.  [of_uint63]
    rounds to nearest even below 2^63; above, the low bit is kept sticky
    through the halving, which rounds the same way. *)
Definition double_of_N (z : Z) : float :=
  if z <? 9223372036854775808
  then PrimFloat.of_uint63 (Uint63.of_Z z)
  else (PrimFloat.of_uint63 (Uint63.of_Z (Z.lor (Z.shiftr z 1) (Z.land z 1))) * 2)%float.

(** [(double) n] for a signed integer. *)
Definition double_of_Z (z : Z) : float :=
  if z <? 0 then (- double_of_N (- z))%float else double_of_N z.

(** The exact integer part of a double, rounded toward zero; [None] for
    NaN and the infinities. *)
Definition trunc (x : float) : option Z :=
  match Prim2SF x with
  | S754_zero _ => Some 0
  | S754_finite s m e =>
      let a := if 0 <=? e then Zpos m * 2 ^ e else Zpos m / 2 ^ (- e) in
      Some (if s then - a else a)
  | S754_infinity _ | S754_nan => None
  end.

(** The C cast [<int>x].  It truncates toward zero.  Outside the range of
    [int] the C standard leaves the cast undefined; the model returns what
    the x86-64 conversion instruction returns there, [INT_MIN]. *)
Definition int_of_double (x : float) : Z :=
  match trunc x with
  | Some z => if in_int z then z else INT_MIN
  | None => INT_MIN
  end.

(** C's [fmod]: the remainder of the division rounded toward zero, with
    the sign of [x].  The result is always representable, so the final
    normalisation rounds nothing away. *)
Definition fmod (x y : float) : float :=
  match Prim2SF x, Prim2SF y with
  | S754_nan, _ | _, S754_nan => nan
  | S754_infinity _, _ => nan
  | _, S754_zero _ => nan
  | _, S754_infinity _ => x
  | S754_zero _, _ => x
  | S754_finite sx mx ex, S754_finite _ my ey =>
      let e := Z.min ex ey in
      let r := (Zpos mx * 2 ^ (ex - e)) mod (Zpos my * 2 ^ (ey - e)) in
      SF2Prim (binary_normalize prec emax (if sx then - r else r) e sx)
  end.

(** Python's [x % y] on floats ([float_rem] of CPython): [fmod], then
    the sign of the divisor.  A zero divisor raises and is handled by the
    callers; every divisor in this program is a positive constant. *)
Definition float_mod (x y : float) : float :=
  let m := fmod x y in
  if (m =? 0)%float then
    (if (y <? 0)%float then (- 0)%float else 0%float)
  else if xorb (y <? 0)%float (m <? 0)%float then (m + y)%float else m.

(** ** Text *)

Local Open Scope string_scope.

Definition ESC : string := String (ascii_of_nat 27) EmptyString.
Definition CR : string := String (ascii_of_nat 13) EmptyString.
Definition LF : string := String (ascii_of_nat 10) EmptyString.

(** Python's [s * n]: empty when [n <= 0]. *)
Definition str_repeat (s : string) (n : Z) : string :=
  String.concat EmptyString (List.repeat s (Z.to_nat n)).

(** ["%i" % n] *)
Definition format_i (n : Z) : string := NilZero.string_of_int (Z.to_int n).

(** [n / d] rounded to the nearest integer, ties to even ([0 <= n], [0 < d]). *)
Definition round_half_even (n d : Z) : Z :=
  let q := n / d in
  match 2 * (n mod d) ?= d with
  | Lt => q
  | Gt => q + 1
  | Eq => if Z.even q then q else q + 1
  end.

Definition pad_zeros (width : nat) (s : string) : string :=
  String.concat EmptyString (List.repeat "0" (width - String.length s)) ++ s.

(** The digits of [n >= 0] with a decimal point before the last [p]. *)
Definition fixed_digits (p : nat) (n : Z) : string :=
  let ds := pad_zeros (S p) (NilZero.string_of_uint (N.to_uint (Z.to_N n))) in
  let k := (String.length ds - p)%nat in
  match p with
  | O => ds
  | _ => substring 0 k ds ++ "." ++ substring k p ds
  end.

(** ["%.pf" % x] and [f"{x:.pf}"]: the exact binary value rounded to [p]
    decimals, ties to even, as CPython's correctly rounded conversion
    prints it. *)
Definition format_f (p : nat) (x : float) : string :=
  let sign (s : bool) := if s then "-" else EmptyString in
  match Prim2SF x with
  | S754_nan => "nan"
  | S754_infinity s => sign s ++ "inf"
  | S754_zero s => sign s ++ fixed_digits p 0
  | S754_finite s m e =>
      let num := Zpos m * 10 ^ Z.of_nat p * 2 ^ Z.max e 0 in
      let den := 2 ^ Z.max (- e) 0 in
      sign s ++ fixed_digits p (round_half_even num den)
  end.

(** Python's [str.strip()] and [str.center(width)] on ASCII text. *)
Definition is_space (c : ascii) : bool :=
  let n := nat_of_ascii c in
  ((9 <=? n) && (n <=? 13) || (28 <=? n) && (n <=? 32))%nat.

Fixpoint lstrip (s : string) : string :=
  match s with
  | String c r => if is_space c then lstrip r else s
  | EmptyString => s
  end.

Fixpoint rev_string (s acc : string) : string :=
  match s with
  | String c r => rev_string r (String c acc)
  | EmptyString => acc
  end.

Definition strip (s : string) : string :=
  rev_string (lstrip (rev_string (lstrip s) EmptyString)) EmptyString.

Definition center (width : nat) (s : string) : string :=
  let len := String.length s in
  if (width <=? len)%nat then s
  else
    let marg := (width - len)%nat in
    let left := (marg / 2 + Nat.land (Nat.land marg width) 1)%nat in
    str_repeat " " (Z.of_nat left) ++ s ++ str_repeat " " (Z.of_nat (marg - left)).

Local Open Scope Z_scope.

(** ** Exceptions, state and the monad of method bodies *)

Inductive exn : Type :=
| ZeroDivisionError
| OverflowError
| TypeError
| IndexError
| StopIteration
| KeyboardInterrupt
| Exception (tag : nat).

Definition exn_eqb (a b : exn) : bool :=
  match a, b with
  | ZeroDivisionError, ZeroDivisionError
  | OverflowError, OverflowError
  | TypeError, TypeError
  | IndexError, IndexError
  | StopIteration, StopIteration
  | KeyboardInterrupt, KeyboardInterrupt => true
  | Exception m, Exception n => Nat.eqb m n
  | _, _ => false
  end.

Inductive outcome (A : Type) : Type :=
| Normal (a : A)
| Raised (e : exn).
Arguments Normal {A} a.
Arguments Raised {A} e.

(** Which statement of the source wrote to standard output. *)
Inductive site : Type :=
| TitleLine | InitialLine | StatusLine | FinalLine | BlankLine | CompleteLine | SummaryLine.

Definition site_eqb (a b : site) : bool :=
  match a, b with
  | TitleLine, TitleLine | InitialLine, InitialLine | StatusLine, StatusLine
  | FinalLine, FinalLine | BlankLine, BlankLine | CompleteLine, CompleteLine
  | SummaryLine, SummaryLine => true
  | _, _ => false
  end.

(** A call on standard output: [sys.stdout.write(text)], [print(text)]
    (which appends a newline) or [sys.stdout.flush()]. *)
Inductive event : Type :=
| stdout_write (k : site) (text : string)
| print (k : site) (text : string)
| stdout_flush.

Definition event_site (e : event) : option site :=
  match e with
  | stdout_write k _ | print k _ => Some k
  | stdout_flush => None
  end.

Definition event_text (e : event) : string :=
  match e with
  | stdout_write _ t => t
  | print _ t => t ++ LF
  | stdout_flush => EmptyString
  end.

(** How many calls in [out] come from the statement [k]. *)
Definition count_site (k : site) (out : list event) : nat :=
  List.length (List.filter (fun e => match event_site e with
                                     | Some k' => site_eqb k k'
                                     | None => false
                                     end) out).

(** The characters standard output has received. *)
Definition stdout_text (out : list event) : string :=
  String.concat EmptyString (List.map event_text out).

(** The object under construction or use, the number of [time.time()]
    calls made so far, and the calls made on standard output, oldest
    first.  State changes made before an exception is raised stay. *)
Record machine (B : Type) : Type := Machine {
  self : B;
  ticks : nat;
  stdout : list event
}.
Arguments Machine {B} _ _ _.
Arguments self {B} _.
Arguments ticks {B} _.
Arguments stdout {B} _.

Definition M (B A : Type) : Type := machine B -> outcome A * machine B.

Definition ret {B A} (a : A) : M B A := fun m => (Normal a, m).

Definition bind {B A C} (c : M B A) (k : A -> M B C) : M B C :=
  fun m =>
    match c m with
    | (Normal a, m') => k a m'
    | (Raised e, m') => (Raised e, m')
    end.

Definition raise {B A} (e : exn) : M B A := fun m => (Raised e, m).

(** [try: body  except E: handler] *)
Definition try_except {B A} (body : M B A) (E : exn) (handler : M B A) : M B A :=
  fun m =>
    match body m with
    | (Raised e, m') => if exn_eqb e E then handler m' else (Raised e, m')
    | r => r
    end.

Definition get {B} : M B B := fun m => (Normal (self m), m).

Definition modify {B} (f : B -> B) : M B unit :=
  fun m => (Normal tt, Machine (f (self m)) (ticks m) (stdout m)).

Definition emit {B} (e : event) : M B unit :=
  fun m => (Normal tt, Machine (self m) (ticks m) (stdout m ++ [e])).

Definition when {B} (b : bool) (c : M B unit) : M B unit :=
  if b then c else ret tt.

Declare Scope py_scope.
Delimit Scope py_scope with py.
Notation "x <- c ;; k" := (bind c (fun x => k))
  (at level 61, c at next level, right associativity) : py_scope.
Notation "c ;; k" := (bind c (fun _ => k))
  (at level 61, right associativity) : py_scope.

(** True division with Cython's zero check ([cdivision] is off):
    [zero] is the test of the divisor against 0, made on the divisor in
    its own type before the division. *)
Definition truediv {B} (zero : bool) (x y : float) : M B float :=
  if zero then raise ZeroDivisionError else ret (x / y)%float.

(** ** [TimeUnits] and the duration text shared by both variants *)

Module TimeUnits.

Inductive t : Type := ms | seconds | minutes | hours | days.

Definition value (u : t) : float :=
  match u with
  | ms => 1e-3
  | seconds => 1
  | minutes => 60
  | hours => 3600
  | days => 86400
  end%float.

Definition name (u : t) : string :=
  match u with
  | ms => "ms"
  | seconds => "seconds"
  | minutes => "minutes"
  | hours => "hours"
  | days => "days"
  end.

(** Iteration order of the enumeration. *)
Definition members : list t := [ms; seconds; minutes; hours; days].

End TimeUnits.

(** [template.format(minutes=.., major_unit=.., seconds=.., minor_unit=..)] *)
Definition template (minutes major_unit seconds minor_unit : string) : string :=
  minutes ++ major_unit ++ seconds ++ " " ++ minor_unit.

(** The [for unit in TimeUnits] loop of [__str__] from [units] on, with
    the loop's three variables; the empty list is the code after the loop. *)
Fixpoint str_loop (units : list TimeUnits.t) (time_seconds minutes seconds : float)
  : string :=
  match units with
  | [] =>
      let hours := abs time_seconds in
      template (format_f 0 hours ++ " ") EmptyString (format_f 0 minutes) "minutes"
  | unit :: rest =>
      if (time_seconds <? TimeUnits.value TimeUnits.seconds)%float then
        template EmptyString EmptyString
          (format_f 0 (time_seconds / TimeUnits.value TimeUnits.ms))
          (TimeUnits.name TimeUnits.ms)
      else
        match unit with
        | TimeUnits.ms => str_loop rest time_seconds minutes seconds
        | _ =>
            let time_seconds := (time_seconds / TimeUnits.value unit)%float in
            if (time_seconds <? TimeUnits.value TimeUnits.minutes)%float then
              template EmptyString EmptyString (format_f 2 seconds) (TimeUnits.name unit)
            else if (time_seconds <? TimeUnits.value TimeUnits.hours)%float then
              template EmptyString EmptyString (format_f 0 seconds) (TimeUnits.name unit)
            else
              str_loop rest time_seconds
                (abs (time_seconds / TimeUnits.value TimeUnits.hours))
                (abs (float_mod time_seconds (TimeUnits.value TimeUnits.hours)))
        end
  end.

(** [__str__], a function of the field [execution_time] alone. *)
Definition duration_text (execution_time : float) : string :=
  let time_seconds := execution_time in
  let minutes := abs (time_seconds / TimeUnits.value TimeUnits.minutes) in
  let seconds := abs (float_mod time_seconds (TimeUnits.value TimeUnits.minutes)) in
  str_loop TimeUnits.members time_seconds minutes seconds.

(** [print(f"\n\033[34mExecution time: {self!s}\033[0m\n")] *)
Definition summary_text (self_str : string) : string :=
  LF ++ ESC ++ "[34mExecution time: " ++ self_str ++ ESC ++ "[0m" ++ LF.

(** An integer-valued double as Python's [int(x)] sees it.  The only
    argument in this program is [progress / 2], which is always finite. *)
Definition py_int (x : float) : Z :=
  match trunc x with
  | Some z => z
  | None => 0
  end.

(** ["=" * int(self.progress / 2)] *)
Definition bar_glyph (progress : Z) : string :=
  str_repeat "=" (py_int (double_of_Z progress / 2)).

(** ["\r[%s] 100%%\n" % ("=" * int(50))] *)
Definition complete_text : string :=
  CR ++ "[" ++ str_repeat "=" 50 ++ "] 100%" ++ LF.

(** ["[%s] %i%%" % (" " * 40, 0)] *)
Definition initial_text : string :=
  "[" ++ str_repeat " " 40 ++ "] " ++ format_i 0 ++ "%".

(** [f'\033[1;4m{self.title.center(75)}\033[0m'] *)
Definition title_text (title : string) : string :=
  ESC ++ "[1;4m" ++ center 75 title ++ ESC ++ "[0m".

(** [f"{cls}(initial_value={..}, current_value={..}, errors={..}, progress={..})"],
    the text of [__repr__]; [cls] is [self.__class__.__name__]. *)
Definition repr_text (cls : string) (num_jobs value errors progress : Z) : string :=
  (cls ++ "(initial_value=" ++ format_i num_jobs ++ ", current_value=" ++ format_i value
       ++ ", errors=" ++ format_i errors ++ ", progress=" ++ format_i progress ++ ")")%string.

(** ** The sequence-aware bar ([ProgressBar.pyx], lines 1-228) *)

Module SeqBar.
Section Bar.

(** The items of the wrapped sequence are opaque to the bar. *)
Variable Item : Type.

(** The reading of the wall clock at each [time.time()] call. *)
Variable clock : nat -> float.

(** The fields of the extension type.  [sequence] is [None] until
    [__init__] stores the list. *)
Record t : Type := mk {
  start_time : float;
  end_time : float;
  execution_time : float;
  num_jobs : Z;              (* unsigned long *)
  _value : Z;                (* int *)
  progress : Z;              (* int *)
  errors : Z;                (* int *)
  _index : Z;                (* int *)
  sequence : option (list Item);
  last_print_time : float;
  print_on_exit : bool;
  print_interval : float;
  title : string;
  throughput : float
}.

(** A freshly allocated object: C fields zeroed, object fields unset. *)
Definition blank : t :=
  mk 0 0 0 0 0 0 0 0 None 0 false 0 EmptyString 0.

Definition set_start_time (v : float) (b : t) : t :=
  mk v (end_time b) (execution_time b) (num_jobs b) (_value b) (progress b)
     (errors b) (_index b) (sequence b) (last_print_time b) (print_on_exit b)
     (print_interval b) (title b) (throughput b).
Definition set_end_time (v : float) (b : t) : t :=
  mk (start_time b) v (execution_time b) (num_jobs b) (_value b) (progress b)
     (errors b) (_index b) (sequence b) (last_print_time b) (print_on_exit b)
     (print_interval b) (title b) (throughput b).
Definition set_execution_time (v : float) (b : t) : t :=
  mk (start_time b) (end_time b) v (num_jobs b) (_value b) (progress b)
     (errors b) (_index b) (sequence b) (last_print_time b) (print_on_exit b)
     (print_interval b) (title b) (throughput b).
Definition set_num_jobs (v : Z) (b : t) : t :=
  mk (start_time b) (end_time b) (execution_time b) v (_value b) (progress b)
     (errors b) (_index b) (sequence b) (last_print_time b) (print_on_exit b)
     (print_interval b) (title b) (throughput b).
Definition set__value (v : Z) (b : t) : t :=
  mk (start_time b) (end_time b) (execution_time b) (num_jobs b) v (progress b)
     (errors b) (_index b) (sequence b) (last_print_time b) (print_on_exit b)
     (print_interval b) (title b) (throughput b).
Definition set_progress (v : Z) (b : t) : t :=
  mk (start_time b) (end_time b) (execution_time b) (num_jobs b) (_value b) v
     (errors b) (_index b) (sequence b) (last_print_time b) (print_on_exit b)
     (print_interval b) (title b) (throughput b).
Definition set_errors (v : Z) (b : t) : t :=
  mk (start_time b) (end_time b) (execution_time b) (num_jobs b) (_value b)
     (progress b) v (_index b) (sequence b) (last_print_time b) (print_on_exit b)
     (print_interval b) (title b) (throughput b).
Definition set__index (v : Z) (b : t) : t :=
  mk (start_time b) (end_time b) (execution_time b) (num_jobs b) (_value b)
     (progress b) (errors b) v (sequence b) (last_print_time b) (print_on_exit b)
     (print_interval b) (title b) (throughput b).
Definition set_sequence (v : option (list Item)) (b : t) : t :=
  mk (start_time b) (end_time b) (execution_time b) (num_jobs b) (_value b)
     (progress b) (errors b) (_index b) v (last_print_time b) (print_on_exit b)
     (print_interval b) (title b) (throughput b).
Definition set_last_print_time (v : float) (b : t) : t :=
  mk (start_time b) (end_time b) (execution_time b) (num_jobs b) (_value b)
     (progress b) (errors b) (_index b) (sequence b) v (print_on_exit b)
     (print_interval b) (title b) (throughput b).
Definition set_print_on_exit (v : bool) (b : t) : t :=
  mk (start_time b) (end_time b) (execution_time b) (num_jobs b) (_value b)
     (progress b) (errors b) (_index b) (sequence b) (last_print_time b) v
     (print_interval b) (title b) (throughput b).
Definition set_print_interval (v : float) (b : t) : t :=
  mk (start_time b) (end_time b) (execution_time b) (num_jobs b) (_value b)
     (progress b) (errors b) (_index b) (sequence b) (last_print_time b)
     (print_on_exit b) v (title b) (throughput b).
Definition set_title (v : string) (b : t) : t :=
  mk (start_time b) (end_time b) (execution_time b) (num_jobs b) (_value b)
     (progress b) (errors b) (_index b) (sequence b) (last_print_time b)
     (print_on_exit b) (print_interval b) v (throughput b).
Definition set_throughput (v : float) (b : t) : t :=
  mk (start_time b) (end_time b) (execution_time b) (num_jobs b) (_value b)
     (progress b) (errors b) (_index b) (sequence b) (last_print_time b)
     (print_on_exit b) (print_interval b) (title b) v.

Local Open Scope py_scope.

(** [time.time()] *)
Definition time_time : M t float :=
  fun m => (Normal (clock (ticks m)), Machine (self m) (S (ticks m)) (stdout m)).

(** What [__init__] accepts for [jobs]: an [int], an iterable that can
    be walked again (list, tuple, range), a one-shot iterator, or any
    other object. *)
Inductive jobs_arg : Type :=
| JobsInt (n : Z)
| JobsSequence (items : list Item)
| JobsIterator (items : list Item)
| JobsOther.

Definition __init__ (jobs : jobs_arg) (title' : string) (print_on_exit' : bool)
    (print_interval' : float) : M t unit :=
  modify (set_title (strip title')) ;;
  n <- match jobs with
       | JobsInt n => ret n
       | JobsSequence items =>
           modify (set_sequence (Some items)) ;;
           ret (Z.of_nat (List.length items))
       | JobsIterator items =>
           (* the second [list(jobs)] finds the iterator spent *)
           modify (set_sequence (Some [])) ;;
           ret (Z.of_nat (List.length items))
       | JobsOther => raise TypeError
       end ;;
  modify (set__index 0) ;;
  (* [self.num_jobs = num_jobs]: a Python int into an [unsigned long] *)
  (if in_ulong n then modify (set_num_jobs n) else raise OverflowError) ;;
  now <- time_time ;;
  modify (set_start_time now) ;;
  modify (set_print_on_exit print_on_exit') ;;
  modify (set_print_interval print_interval') ;;
  modify (set__value 0) ;;
  modify (set_progress 0) ;;
  modify (set_errors 0) ;;
  modify (set_last_print_time 0) ;;
  now <- time_time ;;
  modify (set_last_print_time now) ;;
  b <- get ;;
  when (negb (String.eqb (title b) EmptyString))
       (emit (print TitleLine (title_text (title b)))) ;;
  when (num_jobs b =? to_ulong (-1))
       (emit (stdout_write InitialLine initial_text)).

(** ["\r[%.1f iter/s] [%s] %i%% (ETA: %.1fs/%.1fs)"] *)
Definition status_text (throughput' : float) (progress' : Z)
    (remaining_time execution_time' : float) : string :=
  CR ++ "[" ++ format_f 1 throughput' ++ " iter/s] [" ++ bar_glyph progress' ++ "] "
     ++ format_i progress' ++ "% (ETA: " ++ format_f 1 remaining_time ++ "s/"
     ++ format_f 1 execution_time' ++ "s)".

(** ["\r[%.1f iter/s] [%s] 100%% %s"] *)
Definition final_text (throughput' : float) (progress' : Z) : string :=
  CR ++ "[" ++ format_f 1 throughput' ++ " iter/s] [" ++ bar_glyph progress'
     ++ "] 100% " ++ str_repeat " " 20.

(** The body of the [try] block of [increment].  The sum of the [int]
    counter and the [unsigned int] amount is taken modulo 2^32 and stored
    back as an [int]; [/] is true division (language level 3), each
    operand converted to [double]; the difference [num_jobs - _value]
    is taken in [unsigned long]; the comparison of [_value] with
    [num_jobs] converts the [int] to [unsigned long]. *)
Definition increment_try (increment : Z) : M t unit :=
  b <- get ;;
  modify (set__value (to_int (_value b + increment))) ;;
  b <- get ;;
  q <- truediv (num_jobs b =? 0) (double_of_Z (_value b)) (double_of_N (num_jobs b)) ;;
  modify (set_progress (int_of_double (q * 100))) ;;
  current_time <- time_time ;;
  b <- get ;;
  when (print_interval b <? current_time - last_print_time b)%float
    (modify (set_last_print_time current_time) ;;
     modify (set_last_print_time current_time) ;;
     now <- time_time ;;
     b <- get ;;
     modify (set_execution_time (now - start_time b)) ;;
     b <- get ;;
     remaining_time <-
       (if 0 <? _value b then
          q <- truediv (_value b =? 0) (execution_time b) (double_of_Z (_value b)) ;;
          ret (q * double_of_N (to_ulong (num_jobs b - _value b)))%float
        else ret 0%float) ;;
     thr <-
       (if (0 <? execution_time b)%float then
          truediv (execution_time b =? 0)%float
                  (double_of_Z (_value b)) (execution_time b)
        else ret 0%float) ;;
     modify (set_throughput thr) ;;
     b <- get ;;
     emit (stdout_write StatusLine
             (status_text (throughput b) (progress b) remaining_time
                          (execution_time b))) ;;
     emit stdout_flush) ;;
  b <- get ;;
  when (to_ulong (_value b) =? num_jobs b)
    (emit (stdout_write FinalLine (final_text (throughput b) (progress b))) ;;
     emit stdout_flush ;;
     emit (print BlankLine LF)).

(** [increment(increment=1)].  The argument is converted to
    [unsigned int] before the body runs. *)
Definition increment (increment : Z) : M t unit :=
  if negb (in_uint increment) then raise OverflowError
  else
    b <- get ;;
    when (start_time b =? 0)%float (now <- time_time ;; modify (set_start_time now)) ;;
    try_except (increment_try increment) ZeroDivisionError
      (b <- get ;; modify (set_errors (to_int (errors b + 1)))).

Definition __iter__ : M t unit := ret tt.

(** [self.sequence[i]] on a list, with Python's negative indices. *)
Definition getitem (items : list Item) (i : Z) : option Item :=
  let j := if i <? 0 then i + Z.of_nat (List.length items) else i in
  if j <? 0 then None else List.nth_error items (Z.to_nat j).

Definition __next__ : M t Item :=
  b <- get ;;
  match sequence b with
  | None => raise TypeError      (* len(None) *)
  | Some items =>
      if _index b <? Z.of_nat (List.length items) then
        match getitem items (_index b) with
        | None => raise IndexError
        | Some item =>
            modify (set__index (to_int (_index b + 1))) ;;
            increment 1 ;;
            ret item
        end
      else raise StopIteration
  end.

(** The [value] property. *)
Definition value : M t Z := b <- get ;; ret (_value b).

Definition set_value (new_value : Z) : M t unit :=
  if in_int new_value then modify (set__value new_value) else raise OverflowError.

Definition complete : M t unit :=
  emit (stdout_write CompleteLine complete_text) ;;
  emit stdout_flush.

(** [__repr__]; [cls] is the name of the class of the object, that of
    the extension type or of a Python subclass.  [self.value] goes
    through the getter. *)
Definition __repr__ (cls : string) : M t string :=
  b <- get ;;
  v <- value ;;
  ret (repr_text cls (num_jobs b) v (errors b) (progress b)).

Definition __str__ : M t string := b <- get ;; ret (duration_text (execution_time b)).

Definition __enter__ : M t unit :=
  now <- time_time ;;
  modify (set_start_time now).

(** [__exit__(exc_type, exc_value, traceback)]; [exc] is the exception
    the body of the [with] raised, if any.  The result is
    [exc_type is not None]. *)
Definition __exit__ (exc : option exn) : M t bool :=
  now <- time_time ;;
  modify (set_end_time now) ;;
  b <- get ;;
  modify (set_execution_time (end_time b - start_time b)) ;;
  b <- get ;;
  when (print_on_exit b)
       (s <- __str__ ;; emit (print SummaryLine (summary_text s))) ;;
  ret (match exc with Some _ => true | None => false end).

End Bar.

Arguments mk {Item}.
Arguments blank {Item}.
Arguments start_time {Item} _.
Arguments end_time {Item} _.
Arguments execution_time {Item} _.
Arguments num_jobs {Item} _.
Arguments _value {Item} _.
Arguments progress {Item} _.
Arguments errors {Item} _.
Arguments _index {Item} _.
Arguments sequence {Item} _.
Arguments last_print_time {Item} _.
Arguments print_on_exit {Item} _.
Arguments print_interval {Item} _.
Arguments title {Item} _.
Arguments throughput {Item} _.
Arguments set_start_time {Item} v b.
Arguments set_end_time {Item} v b.
Arguments set_execution_time {Item} v b.
Arguments set_num_jobs {Item} v b.
Arguments set__value {Item} v b.
Arguments set_progress {Item} v b.
Arguments set_errors {Item} v b.
Arguments set__index {Item} v b.
Arguments set_sequence {Item} v b.
Arguments set_last_print_time {Item} v b.
Arguments set_print_on_exit {Item} v b.
Arguments set_print_interval {Item} v b.
Arguments set_title {Item} v b.
Arguments set_throughput {Item} v b.
Arguments JobsInt {Item} n.
Arguments JobsSequence {Item} items.
Arguments JobsIterator {Item} items.
Arguments JobsOther {Item}.
Arguments time_time {Item} clock.
Arguments __init__ {Item} clock jobs title' print_on_exit' print_interval'.
Arguments increment_try {Item} clock increment.
Arguments increment {Item} clock increment.
Arguments __iter__ {Item}.
Arguments getitem {Item} items i.
Arguments __next__ {Item} clock.
Arguments value {Item}.
Arguments set_value {Item} new_value.
Arguments complete {Item}.
Arguments __repr__ {Item} cls.
Arguments __str__ {Item}.
Arguments __enter__ {Item} clock.
Arguments __exit__ {Item} clock exc.

End SeqBar.

(** ** The integer-only bar ([ProgressBar.pyx], lines 229-405) *)

Module IntBar.
Section Bar.

Variable clock : nat -> float.

(** The fields declared by [ProgressBar.pxd]. *)
Record t : Type := mk {
  start_time : float;
  end_time : float;
  execution_time : float;
  num_jobs : Z;              (* int *)
  _value : Z;                (* int *)
  progress : Z;              (* int *)
  errors : Z;                (* int *)
  last_print_time : float;
  print_on_exit : bool;
  print_interval : float;
  title : string;
  throughput : float
}.

Definition blank : t := mk 0 0 0 0 0 0 0 0 false 0 EmptyString 0.

Definition set_start_time (v : float) (b : t) : t :=
  mk v (end_time b) (execution_time b) (num_jobs b) (_value b) (progress b)
     (errors b) (last_print_time b) (print_on_exit b) (print_interval b)
     (title b) (throughput b).
Definition set_end_time (v : float) (b : t) : t :=
  mk (start_time b) v (execution_time b) (num_jobs b) (_value b) (progress b)
     (errors b) (last_print_time b) (print_on_exit b) (print_interval b)
     (title b) (throughput b).
Definition set_execution_time (v : float) (b : t) : t :=
  mk (start_time b) (end_time b) v (num_jobs b) (_value b) (progress b)
     (errors b) (last_print_time b) (print_on_exit b) (print_interval b)
     (title b) (throughput b).
Definition set_num_jobs (v : Z) (b : t) : t :=
  mk (start_time b) (end_time b) (execution_time b) v (_value b) (progress b)
     (errors b) (last_print_time b) (print_on_exit b) (print_interval b)
     (title b) (throughput b).
Definition set__value (v : Z) (b : t) : t :=
  mk (start_time b) (end_time b) (execution_time b) (num_jobs b) v (progress b)
     (errors b) (last_print_time b) (print_on_exit b) (print_interval b)
     (title b) (throughput b).
Definition set_progress (v : Z) (b : t) : t :=
  mk (start_time b) (end_time b) (execution_time b) (num_jobs b) (_value b) v
     (errors b) (last_print_time b) (print_on_exit b) (print_interval b)
     (title b) (throughput b).
Definition set_errors (v : Z) (b : t) : t :=
  mk (start_time b) (end_time b) (execution_time b) (num_jobs b) (_value b)
     (progress b) v (last_print_time b) (print_on_exit b) (print_interval b)
     (title b) (throughput b).
Definition set_last_print_time (v : float) (b : t) : t :=
  mk (start_time b) (end_time b) (execution_time b) (num_jobs b) (_value b)
     (progress b) (errors b) v (print_on_exit b) (print_interval b)
     (title b) (throughput b).
Definition set_print_on_exit (v : bool) (b : t) : t :=
  mk (start_time b) (end_time b) (execution_time b) (num_jobs b) (_value b)
     (progress b) (errors b) (last_print_time b) v (print_interval b)
     (title b) (throughput b).
Definition set_print_interval (v : float) (b : t) : t :=
  mk (start_time b) (end_time b) (execution_time b) (num_jobs b) (_value b)
     (progress b) (errors b) (last_print_time b) (print_on_exit b) v
     (title b) (throughput b).

Local Open Scope py_scope.

Definition time_time : M t float :=
  fun m => (Normal (clock (ticks m)), Machine (self m) (S (ticks m)) (stdout m)).

(** [__init__(num_jobs, print_on_exit=1, print_interval=0.1)].  The
    argument is an [unsigned long]; the field is an [int]. *)
Definition __init__ (num_jobs' : Z) (print_on_exit' : bool) (print_interval' : float)
  : M t unit :=
  if negb (in_ulong num_jobs') then raise OverflowError
  else
    modify (set_num_jobs (to_int num_jobs')) ;;
    modify (set_print_on_exit print_on_exit') ;;
    modify (set_print_interval print_interval') ;;
    modify (set__value 0) ;;
    modify (set_progress 0) ;;
    modify (set_errors 0) ;;
    modify (set_last_print_time 0) ;;
    b <- get ;;
    when (num_jobs b =? -1) (emit (stdout_write InitialLine initial_text)).

(** ["\r[%s] %i%% (ETA: %.2fs/%.2fs) %.2f MBits/s"] *)
Definition status_text (progress' : Z) (execution_time' remaining_time : float)
    (transfer_speed : float) : string :=
  CR ++ "[" ++ bar_glyph progress' ++ "] " ++ format_i progress' ++ "% (ETA: "
     ++ format_f 2 execution_time' ++ "s/" ++ format_f 2 remaining_time ++ "s) "
     ++ format_f 2 (8 * transfer_speed) ++ " MBits/s".

(** ["\r[%s] %i%%" % ("=" * (50), 100)] *)
Definition update_text : string :=
  CR ++ "[" ++ str_repeat "=" 50 ++ "] " ++ format_i 100 ++ "%".

Definition __str__ : M t string := b <- get ;; ret (duration_text (execution_time b)).

Definition update : M t unit :=
  b <- get ;;
  modify (set_progress (_value b)) ;;
  emit (stdout_write CompleteLine update_text) ;;
  emit stdout_flush ;;
  emit (print BlankLine LF).

Definition complete : M t unit :=
  b <- get ;;
  modify (set__value (num_jobs b)) ;;
  update ;;
  b <- get ;;
  when (print_on_exit b)
       (s <- __str__ ;; emit (print SummaryLine (summary_text s))).

(** The body of the [try] block of [increment].  All integers are
    [int]s here: the sum and the difference [num_jobs - _value] are
    [int] arithmetic, and [/] is true division on the operands
    converted to [double].  The [elif] compares the percent with the
    total. *)
Definition increment_try (increment : Z) : M t unit :=
  b <- get ;;
  modify (set__value (to_int (_value b + increment))) ;;
  b <- get ;;
  q <- truediv (num_jobs b =? 0) (double_of_Z (_value b)) (double_of_Z (num_jobs b)) ;;
  modify (set_progress (int_of_double (q * 100))) ;;
  current_time <- time_time ;;
  b <- get ;;
  if (print_interval b <? current_time - last_print_time b)%float then
    modify (set_last_print_time current_time) ;;
    now <- time_time ;;
    b <- get ;;
    modify (set_execution_time (now - start_time b)) ;;
    b <- get ;;
    remaining_time <-
      (if 0 <? _value b then
         q <- truediv (_value b =? 0) (execution_time b) (double_of_Z (_value b)) ;;
         ret (q * double_of_Z (to_int (num_jobs b - _value b)))%float
       else ret 0%float) ;;
    transfer_speed <-
      (if (0 <? execution_time b)%float then
         truediv (execution_time b =? 0)%float
                 (double_of_Z (_value b)) (execution_time b)
       else ret 0%float) ;;
    emit (stdout_write StatusLine
            (status_text (progress b) (execution_time b) remaining_time
                         transfer_speed)) ;;
    emit stdout_flush
  else if progress b =? num_jobs b then complete
  else ret tt.

(** [increment(increment=1)].  The argument is converted to
    [unsigned short] before the body runs. *)
Definition increment (increment : Z) : M t unit :=
  if negb (in_ushort increment) then raise OverflowError
  else
    b <- get ;;
    when (start_time b =? 0)%float (now <- time_time ;; modify (set_start_time now)) ;;
    try_except (increment_try increment) ZeroDivisionError
      (b <- get ;; modify (set_errors (to_int (errors b + 1)))).

Definition value : M t Z := b <- get ;; ret (_value b).

Definition set_value (new_value : Z) : M t unit :=
  if in_int new_value then modify (set__value new_value) else raise OverflowError.

(** [__repr__], as on the sequence-aware bar. *)
Definition __repr__ (cls : string) : M t string :=
  b <- get ;;
  v <- value ;;
  ret (repr_text cls (num_jobs b) v (errors b) (progress b)).

Definition __enter__ : M t unit :=
  now <- time_time ;;
  modify (set_start_time now).

Definition __exit__ (exc : option exn) : M t bool :=
  now <- time_time ;;
  modify (set_end_time now) ;;
  b <- get ;;
  modify (set_execution_time (end_time b - start_time b)) ;;
  complete ;;
  ret (match exc with Some _ => true | None => false end).

End Bar.
End IntBar.

(** ** The [with] statement

    [with bar: body] runs [__enter__], then the body, then [__exit__]
    with the exception the body raised, if any.  An exception of the
    body propagates unless [__exit__] returned a true value; an exception
    raised by [__enter__] or [__exit__] itself propagates. *)
Definition with_statement {B A} (enter : M B unit) (exit : option exn -> M B bool)
    (body : M B A) : M B (option A) :=
  fun m =>
    match enter m with
    | (Raised e, m1) => (Raised e, m1)
    | (Normal _, m1) =>
        match body m1 with
        | (Normal a, m2) =>
            match exit None m2 with
            | (Normal _, m3) => (Normal (Some a), m3)
            | (Raised e, m3) => (Raised e, m3)
            end
        | (Raised e, m2) =>
            match exit (Some e) m2 with
            | (Normal suppress, m3) =>
                if suppress then (Normal None, m3) else (Raised e, m3)
            | (Raised e', m3) => (Raised e', m3)
            end
        end
    end.


(** * Statement-level definitions *)

(** ** The duration text as a decision list

    Read off the loop of [__str__]: the first row whose test holds gives
    the text.  [t] is the duration in seconds, [t / 60] what the loop
    holds in [time_seconds] after the pass for [minutes], and so on. *)
Definition duration_cases (t : float) : string :=
  let s0 := abs (float_mod t 60) in
  let s1 := abs (float_mod t 3600) in
  let t2 := (t / 60)%float in
  let s2 := abs (float_mod t2 3600) in
  let t3 := (t2 / 3600)%float in
  let s3 := abs (float_mod t3 3600) in
  let t4 := (t3 / 86400)%float in
  if (t <? 1)%float then format_f 0 (t / 1e-3) ++ " ms"
  else if (t <? 60)%float then format_f 2 s0 ++ " seconds"
  else if (t <? 3600)%float then format_f 0 s0 ++ " seconds"
  else if (t2 <? 60)%float then format_f 2 s1 ++ " minutes"
  else if (t2 <? 3600)%float then format_f 0 s1 ++ " minutes"
  else if (t3 <? 60)%float then format_f 2 s2 ++ " hours"
  else if (t3 <? 3600)%float then format_f 0 s2 ++ " hours"
  else if (t4 <? 60)%float then format_f 2 s3 ++ " days"
  else if (t4 <? 3600)%float then format_f 0 s3 ++ " days"
  else (format_f 0 (abs t4) ++ " ") ++ format_f 0 (abs (t4 / 3600)) ++ " minutes".

(** Text and conversions stay folded under [cbn] and [simpl]. *)
Arguments format_f : simpl never.
Arguments format_i : simpl never.
Arguments bar_glyph : simpl never.
Arguments complete_text : simpl never.
Arguments summary_text : simpl never.
Arguments duration_text : simpl never.
Arguments int_of_double : simpl never.
Arguments double_of_Z : simpl never.
Arguments double_of_N : simpl never.
Arguments to_int : simpl never.
Arguments to_ulong : simpl never.
Arguments SeqBar.increment : simpl never.
Arguments IntBar.increment : simpl never.
Arguments IntBar.complete : simpl never.
Arguments SeqBar.status_text : simpl never.
Arguments SeqBar.final_text : simpl never.
Arguments IntBar.status_text : simpl never.
Arguments IntBar.update_text : simpl never.

(** ** [SeqBar.increment] in closed form

    The machine one call of [increment] leaves, path by path; it is
    proved equal to the run of the method body below
    ([SeqBarFacts.increment_runs]). *)
Module SeqBarSteps.
Section Steps.

Context {Item : Type}.
Variable clock : nat -> float.
Local Abbreviation bar := (SeqBar.t Item).

(** After [if self.start_time == 0: self.start_time = time.time()]. *)
Definition started (m : machine bar) : machine bar :=
  if (SeqBar.start_time (self m) =? 0)%float
  then Machine (SeqBar.set_start_time (clock (ticks m)) (self m)) (S (ticks m)) (stdout m)
  else m.

(** The counter after [self._value += increment]. *)
Definition new_value (increment : Z) (m : machine bar) : Z :=
  to_int (SeqBar._value (self m) + increment).

(** [<int>(self._value / self.num_jobs * 100)] for the new counter. *)
Definition new_progress (increment : Z) (m : machine bar) : Z :=
  int_of_double (double_of_Z (new_value increment m)
                 / double_of_N (SeqBar.num_jobs (self m)) * 100).

(** The reading [current_time], and the throttle test on it. *)
Definition current_time (m : machine bar) : float := clock (ticks (started m)).

Definition throttle_open (m : machine bar) : bool :=
  (SeqBar.print_interval (self m) <? current_time m - SeqBar.last_print_time (self m))%float.

(** [self.execution_time], [remaining_time] and [self.throughput] as the
    throttled branch computes them. *)
Definition elapsed (m : machine bar) : float :=
  (clock (S (ticks (started m))) - SeqBar.start_time (self (started m)))%float.

Definition eta (increment : Z) (m : machine bar) : float :=
  let v := new_value increment m in
  if 0 <? v
  then (elapsed m / double_of_Z v
        * double_of_N (to_ulong (SeqBar.num_jobs (self m) - v)))%float
  else 0%float.

Definition rate (increment : Z) (m : machine bar) : float :=
  if (0 <? elapsed m)%float
  then (double_of_Z (new_value increment m) / elapsed m)%float
  else 0%float.

Definition after_error (increment : Z) (m : machine bar) : machine bar :=
  let m1 := started m in
  Machine (SeqBar.set_errors (to_int (SeqBar.errors (self m) + 1))
             (SeqBar.set__value (new_value increment m) (self m1)))
          (ticks m1) (stdout m1).

Definition after_throttle (increment : Z) (m : machine bar) : machine bar :=
  let m1 := started m in
  let b2 := SeqBar.set_progress (new_progress increment m)
              (SeqBar.set__value (new_value increment m) (self m1)) in
  if throttle_open m then
    let b3 := SeqBar.set_throughput (rate increment m)
                (SeqBar.set_execution_time (elapsed m)
                   (SeqBar.set_last_print_time (current_time m)
                      (SeqBar.set_last_print_time (current_time m) b2))) in
    Machine b3 (S (S (ticks m1)))
      ((stdout m1
          ++ [stdout_write StatusLine
                (SeqBar.status_text (rate increment m) (new_progress increment m)
                                    (eta increment m) (elapsed m))])
         ++ [stdout_flush])
  else Machine b2 (S (ticks m1)) (stdout m1).

Definition reaches_total (increment : Z) (m : machine bar) : bool :=
  to_ulong (new_value increment m) =? SeqBar.num_jobs (self m).

Definition after_final (increment : Z) (m : machine bar) : machine bar :=
  let m3 := after_throttle increment m in
  if reaches_total increment m then
    Machine (self m3) (ticks m3)
      (((stdout m3
           ++ [stdout_write FinalLine
                 (SeqBar.final_text (SeqBar.throughput (self m3))
                                    (new_progress increment m))])
          ++ [stdout_flush])
         ++ [print BlankLine LF])
  else m3.

Definition increment_result (increment : Z) (m : machine bar) : machine bar :=
  if SeqBar.num_jobs (self m) =? 0
  then after_error increment m
  else after_final increment m.

End Steps.

Arguments started {Item} clock m : simpl never.

End SeqBarSteps.

(** ** Well-typed objects *)

(** The integer fields hold values of their C types. *)
Definition seq_well_typed {Item} (b : SeqBar.t Item) : bool :=
  in_ulong (SeqBar.num_jobs b) && in_int (SeqBar._value b) && in_int (SeqBar.progress b)
  && in_int (SeqBar.errors b) && in_int (SeqBar._index b).

(** ** Fixtures for the worked examples *)

(** A clock that advances 30 ms per reading, from 1000 s. *)
Definition clock_30ms (n : nat) : float :=
  (1000 + PrimFloat.of_uint63 (Uint63.of_Z (Z.of_nat n)) * 0.03)%float.

(** A clock that advances one second per reading, from 1000 s. *)
Definition clock_1s (n : nat) : float :=
  (1000 + PrimFloat.of_uint63 (Uint63.of_Z (Z.of_nat n)))%float.

(** The machine before any object exists. *)
Definition boot {B} (self0 : B) : machine B := Machine self0 0 [].

(** ** Pulling from the iterator *)

(** [k] successive calls of [__next__], collecting the items; an
    exception of a call ends the run and propagates. *)
Fixpoint pulls {Item} (clock : nat -> float) (k : nat) : M (SeqBar.t Item) (list Item) :=
  match k with
  | O => ret []
  | S k' =>
      bind (SeqBar.__next__ clock) (fun item =>
      bind (pulls clock k') (fun rest => ret (item :: rest)))
  end.

(** The machine just before [__next__] calls [self.increment()]: the
    cursor has advanced. *)
Definition cursor_advanced {Item} (m : machine (SeqBar.t Item)) : machine (SeqBar.t Item) :=
  Machine (SeqBar.set__index (to_int (SeqBar._index (self m) + 1)) (self m))
          (ticks m) (stdout m).

(** A bar over [jobs] built on a fresh machine, with the default
    arguments of the constructor. *)
Definition seq_bar (clock : nat -> float) (jobs : SeqBar.jobs_arg nat)
  : machine (SeqBar.t nat) :=
  snd (SeqBar.__init__ clock jobs EmptyString true 0.1 (boot SeqBar.blank)).

Definition int_bar (num_jobs : Z) : machine IntBar.t :=
  snd (IntBar.__init__ num_jobs true 0.1 (boot IntBar.blank)).

(** ** Outcomes of a [with] body *)

(** The exception an outcome carries, if any: what [__exit__] receives. *)
Definition raised_of {A} (o : outcome A) : option exn :=
  match o with
  | Normal _ => None
  | Raised e => Some e
  end.

(** The value an outcome carries, if any. *)
Definition value_of {A} (o : outcome A) : option A :=
  match o with
  | Normal a => Some a
  | Raised _ => None
  end.

Definition is_some {A} (o : option A) : bool :=
  match o with
  | Some _ => true
  | None => false
  end.

(** ** [IntBar.complete] in closed form *)

Module IntBarSteps.

(** What [complete] writes: the bar at 100%, and the summary when
    [print_on_exit] is set. *)
Definition complete_output (m : machine IntBar.t) : list event :=
  [stdout_write CompleteLine IntBar.update_text; stdout_flush; print BlankLine LF]
  ++ (if IntBar.print_on_exit (self m)
      then [print SummaryLine
              (summary_text (duration_text (IntBar.execution_time (self m))))]
      else []).

End IntBarSteps.

(** ** [IntBar.increment] in closed form

    The machine one call of [increment] leaves on the integer-only bar,
    path by path; it is proved equal to the run of the method body
    below ([IntBarFacts.int_increment_runs]). *)
Module IntBarCall.
Section Call.

Variable clock : nat -> float.
Implicit Types (m : machine IntBar.t) (a : Z).

(** After [if self.start_time == 0: self.start_time = time.time()]. *)
Definition started m : machine IntBar.t :=
  if (IntBar.start_time (self m) =? 0)%float
  then Machine (IntBar.set_start_time (clock (ticks m)) (self m)) (S (ticks m)) (stdout m)
  else m.

Definition new_value a m : Z := to_int (IntBar._value (self m) + a).

Definition new_progress a m : Z :=
  int_of_double (double_of_Z (new_value a m)
                 / double_of_Z (IntBar.num_jobs (self m)) * 100).

Definition current_time m : float := clock (ticks (started m)).

Definition throttle_open m : bool :=
  (IntBar.print_interval (self m) <? current_time m - IntBar.last_print_time (self m))%float.

Definition elapsed m : float :=
  (clock (S (ticks (started m))) - IntBar.start_time (self (started m)))%float.

Definition eta a m : float :=
  let v := new_value a m in
  if 0 <? v
  then (elapsed m / double_of_Z v
        * double_of_Z (to_int (IntBar.num_jobs (self m) - v)))%float
  else 0%float.

Definition rate a m : float :=
  if (0 <? elapsed m)%float
  then (double_of_Z (new_value a m) / elapsed m)%float
  else 0%float.

(** The division by a total of zero failed: the counter has moved, the
    handler counts the error. *)
Definition after_error a m : machine IntBar.t :=
  let m1 := started m in
  Machine (IntBar.set_errors (to_int (IntBar.errors (self m) + 1))
             (IntBar.set__value (new_value a m) (self m1)))
          (ticks m1) (stdout m1).

(** Counter and percent stored, [current_time] read. *)
Definition counted a m : machine IntBar.t :=
  let m1 := started m in
  Machine (IntBar.set_progress (new_progress a m)
             (IntBar.set__value (new_value a m) (self m1)))
          (S (ticks m1)) (stdout m1).

(** The throttle test passed: one status line. *)
Definition after_repaint a m : machine IntBar.t :=
  let m2 := counted a m in
  Machine (IntBar.set_execution_time (elapsed m)
             (IntBar.set_last_print_time (current_time m) (self m2)))
          (S (ticks m2))
          ((stdout m2
              ++ [stdout_write StatusLine
                    (IntBar.status_text (new_progress a m) (elapsed m) (eta a m)
                                        (rate a m))])
             ++ [stdout_flush]).

Definition increment_result a m : machine IntBar.t :=
  if IntBar.num_jobs (self m) =? 0 then after_error a m
  else if throttle_open m then after_repaint a m
  else if new_progress a m =? IntBar.num_jobs (self m)
       then snd (IntBar.complete (counted a m))
       else counted a m.

End Call.

Arguments started clock m : simpl never.

End IntBarCall.

(** The integer fields of the integer-only bar hold [int]s. *)
Definition int_well_typed (b : IntBar.t) : bool :=
  in_int (IntBar.num_jobs b) && in_int (IntBar._value b) && in_int (IntBar.progress b)
  && in_int (IntBar.errors b).

(** ** Runs of calls *)

(** [for a in amounts: bar.increment(a)], for either bar; an exception
    of a call ends the run and propagates. *)
Fixpoint increments {B} (increment : Z -> M B unit) (amounts : list Z) : M B unit :=
  match amounts with
  | [] => ret tt
  | a :: rest => bind (increment a) (fun _ => increments increment rest)
  end.

(** The sum of the amounts. *)
Definition total_of (amounts : list Z) : Z := List.fold_right Z.add 0 amounts.

(** ** Numerals in text *)

(** The characters ["%i"] and [str(int)] produce: a digit or the sign. *)
Definition numeral_char (c : ascii) : bool :=
  let n := nat_of_ascii c in
  ((48 <=? n) && (n <=? 57) || (n =? 45))%nat.

Fixpoint numeral (s : string) : bool :=
  match s with
  | EmptyString => true
  | String c r => numeral_char c && numeral r
  end.

(** The text starts with a character no numeral contains. *)
Definition starts_plain (s : string) : bool :=
  match s with
  | EmptyString => false
  | String c _ => negb (numeral_char c)
  end.

(** ** Bounds on doubles *)

(** The double [r] is a zero, or positive and at most the integer [B]:
    its mantissa [m] and exponent [e] satisfy [m * 2^e <= B], written
    without fractions. *)
Definition at_most (B : Z) (r : spec_float) : Prop :=
  match r with
  | S754_zero _ => True
  | S754_finite false m e => Zpos m * 2 ^ Z.max e 0 <= B * 2 ^ Z.max (- e) 0
  | _ => False
  end.

(** ** Doubles that hold an integer

    The double [x] holds the integer [n] exactly: it is [+0] for 0, and
    otherwise its signed mantissa times two to its exponent is [n]
    (written without fractions).  At most one double holds a given
    integer ([holds_exactly_unique]). *)
Definition holds_exactly (n : Z) (x : float) : bool :=
  match Prim2SF x with
  | S754_zero s => negb s && (n =? 0)
  | S754_finite s m e =>
      (if s then Zneg m else Zpos m) * 2 ^ Z.max e 0 =? n * 2 ^ Z.max (- e) 0
  | S754_infinity _ | S754_nan => false
  end.

(** * The command-line driver ([ProgressBar.pyx], lines 194-228)

    [print_help] and [main] of the sequence-aware module: the bar is
    built from the count given on the command line and incremented once
    per line read from standard input. *)

Module Driver.

(** The exception classes the driver meets beside those of the bar;
    [exn] tells the classes the bar never raises apart by a tag. *)
Definition EOFError : exn := Exception 1.
Definition ValueError : exn := Exception 2.
Definition SystemExit (code : nat) : exn := Exception (3 + code).

Local Open Scope string_scope.

Definition TAB : string := String (ascii_of_nat 9) EmptyString.
Definition DQUOTE : string := String (ascii_of_nat 34) EmptyString.

(** The two texts [print_help] prints. *)
Definition usage_text : string :=
  "Usage:" ++ LF ++ TAB ++ "command | python -m ProgressBar <num_jobs>".

Definition example_text : string :=
  "Example:" ++ LF ++ TAB ++ "find . -exec stat --format=" ++ DQUOTE ++ "%s %n" ++ DQUOTE
    ++ "| python -m ProgressBar $(find . | wc -l)".

(** [needle in text] on strings. *)
Definition contains (needle text : string) : bool :=
  is_some (String.index 0 needle text).

Local Open Scope Z_scope.

(** A call on a standard stream: one the bar made on [sys.stdout], a
    [print(text)] of the driver, or its [print(text, file=sys.stderr)]. *)
Inductive output : Type :=
| bar_output (e : event)
| stdout_print (text : string)
| stderr_print (text : string).

(** What a call of [input()] finds on standard input: a line (without
    its newline), or the interrupt key pressed while it waits.  Past
    the end of the list is the end of the file. *)
Inductive keyboard : Type :=
| Line (text : string)
| Interrupt.

(** The bar [main] binds to [progress_bar] is built from an [int]; it
    wraps no items. *)
Local Abbreviation bar := (SeqBar.t Empty_set).

(** The running program: the object bound to [progress_bar] (and to
    [pb]), the number of [time.time()] calls made, the calls made on
    the standard streams, oldest first, and the input not yet read. *)
Record process : Type := Process {
  progress_bar : bar;
  time_calls : nat;
  streams : list output;
  stdin : list keyboard
}.

Definition P (A : Type) : Type := process -> outcome A * process.

Definition pure {A} (a : A) : P A := fun p => (Normal a, p).

Definition and_then {A C} (c : P A) (k : A -> P C) : P C :=
  fun p =>
    match c p with
    | (Normal a, p') => k a p'
    | (Raised e, p') => (Raised e, p')
    end.

Definition throw {A} (e : exn) : P A := fun p => (Raised e, p).

Declare Scope driver_scope.
Delimit Scope driver_scope with driver.
Notation "x <- c ;; k" := (and_then c (fun x => k))
  (at level 61, c at next level, right associativity) : driver_scope.
Notation "c ;; k" := (and_then c (fun _ => k))
  (at level 61, right associativity) : driver_scope.
Local Open Scope driver_scope.

(** A method call on the bar.  The method runs on the object and the
    clock, and the calls it makes on [sys.stdout] join the streams in
    the order it made them (a method only ever appends to the record of
    the calls made). *)
Definition call {A} (method : M bar A) : P A :=
  fun p =>
    match method (Machine (progress_bar p) (time_calls p) []) with
    | (r, m) =>
        (r, Process (self m) (ticks m)
              (streams p ++ List.map bar_output (stdout m)) (stdin p))
    end.

(** [ProgressBar(...)]: a fresh object, then [__init__] on it. *)
Definition construct (init : M bar unit) : P unit :=
  fun p => call init (Process SeqBar.blank (time_calls p) (streams p) (stdin p)).

Definition print_stdout (text : string) : P unit :=
  fun p => (Normal tt,
            Process (progress_bar p) (time_calls p)
                    (streams p ++ [stdout_print text]) (stdin p)).

Definition print_stderr (text : string) : P unit :=
  fun p => (Normal tt,
            Process (progress_bar p) (time_calls p)
                    (streams p ++ [stderr_print text]) (stdin p)).

(** [sys.exit(code)] *)
Definition sys_exit {A} (code : nat) : P A := throw (SystemExit code).

(** [input()] *)
Definition input : P string :=
  fun p =>
    match stdin p with
    | [] => (Raised EOFError, p)
    | Line text :: rest =>
        (Normal text, Process (progress_bar p) (time_calls p) (streams p) rest)
    | Interrupt :: rest =>
        (Raised KeyboardInterrupt,
         Process (progress_bar p) (time_calls p) (streams p) rest)
    end.

(** [sequence[i]] for an index that is not negative. *)
Definition subscript {A} (sequence : list A) (i : nat) : P A :=
  match List.nth_error sequence i with
  | Some a => pure a
  | None => throw IndexError
  end.

(** The first [except] clause that names the class of [e]. *)
Fixpoint handler_for {A} (e : exn) (handlers : list (exn * P A)) : option (P A) :=
  match handlers with
  | [] => None
  | (E, h) :: rest => if exn_eqb e E then Some h else handler_for e rest
  end.

(** [try: body  except E1: h1  except E2: h2 ...  finally: final].  An
    exception of the body goes to the first clause that names it; an
    exception a handler raises is not offered to the other clauses; the
    [finally] block runs on every path, and an exception it raises
    replaces whatever was on its way. *)
Definition try_finally {A} (body : P A) (handlers : list (exn * P A)) (final : P unit)
  : P A :=
  fun p =>
    let '(r1, p1) := body p in
    let '(r2, p2) :=
      match r1 with
      | Normal a => (Normal a, p1)
      | Raised e =>
          match handler_for e handlers with
          | Some h => h p1
          | None => (Raised e, p1)
          end
      end in
    match final p2 with
    | (Normal _, p3) => (r2, p3)
    | (Raised e, p3) => (Raised e, p3)
    end.

(** [for _ in iter(input, ""): body], for at most [passes] passes: each
    pass calls [input()], and the loop ends when the call returns the
    empty string.  A pass takes one entry off the pending input or
    leaves the loop by [EOFError], so one pass more than there are
    entries is enough (that is what [main] below allows). *)
Fixpoint for_input (passes : nat) (body : P unit) : P unit :=
  match passes with
  | O => pure tt
  | S passes' =>
      text <- input ;;
      if String.eqb text EmptyString then pure tt
      else body ;; for_input passes' body
  end.

(** [with bar as pb: body], as [with_statement] above. *)
Definition with_bar {A} (enter : P unit) (exit : option exn -> P bool) (body : P A)
  : P (option A) :=
  fun p =>
    match enter p with
    | (Raised e, p1) => (Raised e, p1)
    | (Normal _, p1) =>
        match body p1 with
        | (Normal a, p2) =>
            match exit None p2 with
            | (Normal _, p3) => (Normal (Some a), p3)
            | (Raised e, p3) => (Raised e, p3)
            end
        | (Raised e, p2) =>
            match exit (Some e) p2 with
            | (Normal suppress, p3) =>
                if suppress then (Normal None, p3) else (Raised e, p3)
            | (Raised e', p3) => (Raised e', p3)
            end
        end
    end.

Section Main.

(** The reading of the wall clock at each [time.time()] call. *)
Variable clock : nat -> float.

(** Python's [int(text)]: the integer the text denotes, [None] where
    the call raises [ValueError]. *)
Variable int_ : string -> option Z.

Definition int (text : string) : P Z :=
  match int_ text with
  | Some n => pure n
  | None => throw ValueError
  end.

Definition print_help : P unit :=
  print_stdout usage_text ;;
  print_stdout example_text ;;
  sys_exit 1.

Definition main (argv : list string) : P unit :=
  let initial_value := 0 in
  arg <- subscript argv 1 ;;
  (if contains "-h" arg then print_help else pure tt) ;;
  initial_value <-
    (if (1 <? List.length argv)%nat
     then arg <- subscript argv 1 ;; int arg
     else pure initial_value) ;;
  construct (SeqBar.__init__ clock (SeqBar.JobsInt initial_value) EmptyString true 0.1) ;;
  print_stderr (format_i initial_value) ;;
  if 0 <? initial_value then
    with_bar (call (SeqBar.__enter__ clock))
             (fun exc => call (SeqBar.__exit__ clock exc))
      (try_finally
         (fun p => for_input (S (List.length (stdin p)))
                             (call (SeqBar.increment clock 1)) p)
         [ (KeyboardInterrupt, call SeqBar.complete ;; sys_exit 0);
           (EOFError, pure tt) ]
         (sys_exit 0)) ;;
    pure tt
  else print_help.

End Main.

(** The lines [main] counts: those before the first empty line, the
    first interrupt or the end of the input. *)
Fixpoint counted_lines (pending : list keyboard) : nat :=
  match pending with
  | Line text :: rest =>
      if String.eqb text EmptyString then O else S (counted_lines rest)
  | _ => O
  end.

(** The input left unread once the loop of [main] has ended. *)
Fixpoint unread (pending : list keyboard) : list keyboard :=
  match pending with
  | Line text :: rest =>
      if String.eqb text EmptyString then rest else unread rest
  | Interrupt :: rest => rest
  | [] => []
  end.

(** Whether the loop of [main] ends on an interrupt. *)
Fixpoint interrupted (pending : list keyboard) : bool :=
  match pending with
  | Line text :: rest =>
      if String.eqb text EmptyString then false else interrupted rest
  | Interrupt :: _ => true
  | [] => false
  end.

(** How the loop of [main] ends: by the empty line, by the interrupt,
    or by [EOFError] at the end of the input. *)
Fixpoint loop_end (pending : list keyboard) : outcome unit :=
  match pending with
  | Line text :: rest =>
      if String.eqb text EmptyString then Normal tt else loop_end rest
  | Interrupt :: _ => Raised KeyboardInterrupt
  | [] => Raised EOFError
  end.

(** How many calls on the streams the bar made from the statement [k]. *)
Definition count_bar_site (k : site) (out : list output) : nat :=
  List.length (List.filter (fun o => match o with
                                     | bar_output e =>
                                         match event_site e with
                                         | Some k' => site_eqb k k'
                                         | None => false
                                         end
                                     | _ => false
                                     end) out).

(** The texts the driver printed on standard output and on standard
    error, oldest first. *)
Definition printed (out : list output) : list output :=
  List.filter (fun o => match o with bar_output _ => false | _ => true end) out.

(** A process that has not started, with [pending] on standard input. *)
Definition fresh (pending : list keyboard) : process :=
  Process SeqBar.blank 0 [] pending.

(** A plain decimal reading of the count, for the worked examples. *)
Definition decimal (text : string) : option Z :=
  option_map Z.of_int (NilZero.int_of_string text).

End Driver.

Arguments Driver.count_bar_site : simpl never.
Arguments Driver.printed : simpl never.
Arguments initial_text : simpl never.

(** * Properties *)

(** ** Conversions between integer types *)

Section Conversions.

Lemma to_int_id (z : Z) : in_int z = true -> to_int z = z.
Proof.
  unfold in_int, to_int, INT_MIN, INT_MAX. intros H.
  apply andb_true_iff in H as [H1 H2].
  rewrite Z.mod_small by lia. lia.
Qed.

Lemma to_ulong_id (z : Z) : in_ulong z = true -> to_ulong z = z.
Proof.
  unfold in_ulong, to_ulong, ULONG_MAX. intros H.
  apply andb_true_iff in H as [H1 H2].
  apply Z.mod_small. lia.
Qed.

Lemma to_int_range (z : Z) : in_int (to_int z) = true.
Proof.
  unfold in_int, to_int, INT_MIN, INT_MAX.
  pose proof (Z.mod_pos_bound (z + 2147483648) 4294967296 ltac:(lia)).
  apply andb_true_iff. lia.
Qed.

(** The cast [<int>x] always yields an [int]. *)
Lemma int_of_double_range (x : float) : in_int (int_of_double x) = true.
Proof.
  unfold int_of_double. destruct (trunc x) as [z|]; [|reflexivity].
  destruct (in_int z) eqn:E; [exact E|reflexivity].
Qed.

End Conversions.

(** ** Comparisons of doubles *)

Section FloatOrder.

Local Open Scope float_scope.

Lemma SFcompare_Lt_Gt (x y : spec_float) :
  SFcompare x y = Some Lt -> SFcompare y x = Some Gt.
Proof.
  destruct x as [sx|sx| |sx mx ex], y as [sy|sy| |sy my ey]; cbn;
    try discriminate; try (destruct sx; discriminate);
    try (destruct sy; discriminate);
    try (destruct sx; intros; congruence); try (destruct sy; intros; congruence).
  - destruct sx, sy; intros; congruence.
  - intros H; injection H as H.
    f_equal.
    pose proof (Pos.compare_cont_antisym my mx Eq) as A. cbn [CompOpp] in A.
    destruct sx, sy; try congruence;
      rewrite (Z.compare_antisym ex ey);
      destruct (ex ?= ey)%Z eqn:E; cbn; try congruence;
      rewrite <- A in H;
      destruct (Pos.compare_cont Eq my mx); cbn in *; congruence.
Qed.

(** [a < b] excludes [b < a]. *)
Lemma ltb_asym (a b : float) : (a <? b) = true -> (b <? a) = false.
Proof.
  rewrite !ltb_spec. unfold SFltb.
  destruct (SFcompare (Prim2SF a) (Prim2SF b)) as [[]|] eqn:E; try discriminate.
  intros _. now rewrite (SFcompare_Lt_Gt _ _ E).
Qed.

(** [a > b] excludes [a == b]: a divisor the code has tested positive
    passes the zero check of the division. *)
Lemma ltb_neq (a b : float) : (a <? b) = true -> (b =? a) = false.
Proof.
  rewrite ltb_spec, eqb_spec. unfold SFltb, SFeqb.
  destruct (SFcompare (Prim2SF a) (Prim2SF b)) as [[]|] eqn:E; try discriminate.
  intros _. now rewrite (SFcompare_Lt_Gt _ _ E).
Qed.

End FloatOrder.

(** ** Division by one *)

Section DivOne.

Local Open Scope Z_scope.

(** The float specification is written with the integer operations of
    the core library; these are the ones of [Z]. *)
Ltac std_Z :=
  change IntDef.Z.add with Z.add in *;
  change IntDef.Z.sub with Z.sub in *;
  change IntDef.Z.min with Z.min in *;
  change IntDef.Z.max with Z.max in *;
  change IntDef.Z.leb with Z.leb in *;
  change IntDef.Z.div_eucl with Z.div_eucl in *;
  change IntDef.Z.shiftl with Z.shiftl in *.

(** The smallest exponent a binary64 mantissa of a given magnitude
    takes. *)
Lemma fexp_eq k : fexp prec emax k = Z.max (k - 53) (-1074).
Proof. reflexivity. Qed.

Lemma div_eucl_pair (a b : Z) : Z.div_eucl a b = (a / b, a mod b).
Proof. unfold Z.div, Z.modulo. now destruct (Z.div_eucl a b). Qed.

(** Rounding a canonical mantissa changes nothing. *)
Lemma binary_round_aux_canonical (s : bool) (m : positive) (e : Z) :
  fexp prec emax (Zpos (digits2_pos m) + e) = e ->
  e <= emax - prec ->
  binary_round_aux prec emax s (Zpos m) e loc_Exact = S754_finite s m e.
Proof.
  intros C B. unfold binary_round_aux, shr_fexp.
  std_Z. unfold Zdigits2.
  rewrite C, Z.sub_diag. cbn [shr shr_record_of_loc shr_m loc_of_shr_record round_nearest_even].
  unfold Zdigits2. std_Z.
  rewrite C, Z.sub_diag. cbn [shr shr_record_of_loc shr_m].
  now apply Z.leb_le in B as ->.
Qed.

(** Rounding twice a canonical mantissa, one exponent lower, halves it
    back. *)
Lemma binary_round_aux_doubled (s : bool) (m : positive) (e : Z) :
  fexp prec emax (Zpos (digits2_pos m) + e) = e ->
  e <= emax - prec ->
  binary_round_aux prec emax s (Zpos m~0) (e - 1) loc_Exact = S754_finite s m e.
Proof.
  intros C B. unfold binary_round_aux, shr_fexp. std_Z.
  unfold Zdigits2. cbn [digits2_pos].
  replace (Zpos (Pos.succ (digits2_pos m)) + (e - 1))
    with (Zpos (digits2_pos m) + e) by lia.
  rewrite C. replace (e - (e - 1)) with 1 by lia.
  cbn [shr shr_record_of_loc iter_pos shr_1 shr_m loc_of_shr_record
         round_nearest_even orb].
  std_Z. replace (e - 1 + 1) with e by lia.
  unfold Zdigits2.
  rewrite C, Z.sub_diag. cbn [shr shr_m].
  now apply Z.leb_le in B as ->.
Qed.

(** Dividing a binary64 number by one gives it back: the quotient is
    the mantissa itself, or twice the mantissa one exponent lower, and
    rounds to the same number. *)
Lemma SFdiv_one (x : spec_float) :
  valid_binary x = true ->
  SF64div x (S754_finite false 4503599627370496 (-52)) = x.
Proof.
  destruct x as [s|s| |s m e]; cbn [SF64div SFdiv xorb]; intros V.
  - now destruct s.
  - now destruct s.
  - reflexivity.
  - unfold valid_binary, bounded, canonical_mantissa in V.
    apply andb_true_iff in V as [C B].
    apply Z.eqb_eq in C. apply Z.leb_le in B.
    unfold SF64div, SFdiv, SFdiv_core_binary. std_Z.
    change (Zdigits2 4503599627370496) with 53.
    unfold Zdigits2.
    pose proof C as C'. rewrite fexp_eq in C'. rewrite fexp_eq.
    assert (Hd : 0 < Zpos (digits2_pos m)) by lia.
    rewrite xorb_false_r.
    destruct (Z.eq_dec e (-1074)) as [E|E].
    + replace (Z.min (Z.max (Zpos (digits2_pos m) + e - (53 + -52) - 53) (-1074)) (e - -52))
        with e by lia.
      replace (e - -52 - e) with 52 by lia.
      rewrite div_eucl_pair, Z.shiftl_mul_pow2 by lia.
      change (2 ^ 52) with 4503599627370496.
      rewrite Z.div_mul, Z.mod_mul by lia.
      change (new_location 4503599627370496 0) with loc_Exact.
      now apply binary_round_aux_canonical.
    + replace (Z.min (Z.max (Zpos (digits2_pos m) + e - (53 + -52) - 53) (-1074)) (e - -52))
        with (e - 1) by lia.
      replace (e - -52 - (e - 1)) with 53 by lia.
      rewrite div_eucl_pair, Z.shiftl_mul_pow2 by lia.
      replace (Zpos m * 2 ^ 53) with (Zpos m~0 * 4503599627370496) by lia.
      rewrite Z.div_mul, Z.mod_mul by lia.
      change (new_location 4503599627370496 0) with loc_Exact.
      now apply binary_round_aux_doubled.
Qed.

(** Division by one is exact. *)
Lemma div_one (t : float) : (t / 1)%float = t.
Proof.
  apply Prim2SF_inj. rewrite div_spec.
  replace (Prim2SF 1) with (S754_finite false 4503599627370496 (-52))
    by (vm_compute; reflexivity).
  apply SFdiv_one, Prim2SF_valid.
Qed.

End DivOne.

(** ** Counting calls on standard output *)

Section Output.

Local Open Scope list_scope.

Lemma count_site_app (k : site) (l1 l2 : list event) :
  count_site k (l1 ++ l2) = (count_site k l1 + count_site k l2)%nat.
Proof. unfold count_site. now rewrite filter_app, length_app. Qed.

End Output.

(** ** A counter divided by itself *)

Section DivSelf.

Local Open Scope Z_scope.

Ltac std_Z :=
  change IntDef.Z.add with Z.add in *;
  change IntDef.Z.sub with Z.sub in *;
  change IntDef.Z.min with Z.min in *;
  change IntDef.Z.max with Z.max in *;
  change IntDef.Z.leb with Z.leb in *;
  change IntDef.Z.eqb with Z.eqb in *;
  change IntDef.Z.even with Z.even in *;
  change IntDef.Z.div_eucl with Z.div_eucl in *;
  change IntDef.Z.shiftl with Z.shiftl in *.

(** A finite binary64 number divided by itself is one. *)
Lemma SFdiv_self (s : bool) (m : positive) (e : Z) :
  SF64div (S754_finite s m e) (S754_finite s m e)
  = S754_finite false 4503599627370496 (-52).
Proof.
  unfold SF64div, SFdiv, SFdiv_core_binary. std_Z. unfold Zdigits2.
  rewrite Z.sub_diag, Z.sub_diag, fexp_eq.
  change (Z.min (Z.max (0 - 53) (-1074)) 0) with (-53).
  change (0 - -53) with 53.
  rewrite div_eucl_pair, Z.shiftl_mul_pow2 by lia.
  rewrite Z.mul_comm, Z.mul_comm, Z.mul_comm.
  replace (Zpos m * 2 ^ 53) with (2 ^ 53 * Zpos m) by lia.
  rewrite Z.div_mul, Z.mod_mul by lia.
  replace (new_location (Zpos m) 0) with loc_Exact.
  - rewrite xorb_nilpotent. vm_compute. reflexivity.
  - unfold new_location, new_location_even, new_location_odd. std_Z.
    now destruct (Z.even (Zpos m)).
Qed.

Lemma div_self (x : float) (s : bool) (m : positive) (e : Z) :
  Prim2SF x = S754_finite s m e -> (x / x)%float = 1%float.
Proof.
  intros H. apply Prim2SF_inj. rewrite div_spec, H, SFdiv_self.
  vm_compute. reflexivity.
Qed.

(** The number of binary digits of a positive integer. *)
Lemma digits2_pos_lower (p : positive) : 2 ^ (Zpos (digits2_pos p) - 1) <= Zpos p.
Proof.
  induction p as [p IH|p IH|]; cbn [digits2_pos]; [| |cbn; lia].
  all: rewrite Pos2Z.inj_succ;
    replace (Z.succ (Zpos (digits2_pos p)) - 1) with (Zpos (digits2_pos p) - 1 + 1) by lia;
    rewrite Z.pow_add_r by lia; lia.
Qed.

Lemma digits2_pos_le (p : positive) (k : Z) :
  0 <= k -> Zpos p < 2 ^ k -> Zpos (digits2_pos p) <= k.
Proof.
  intros Hk Hp. pose proof (digits2_pos_lower p) as L.
  destruct (Z_le_gt_dec (Zpos (digits2_pos p)) k) as [|G]; [assumption|].
  assert (2 ^ k <= 2 ^ (Zpos (digits2_pos p) - 1)) by (apply Z.pow_le_mono_r; lia).
  lia.
Qed.

Lemma digits2_pos_iter_xO (p k : positive) :
  digits2_pos (Pos.iter xO p k) = (digits2_pos p + k)%positive.
Proof.
  induction k as [|k IH] using Pos.peano_ind.
  - cbn. now rewrite Pos.add_1_r.
  - rewrite Pos.iter_succ. cbn [digits2_pos]. rewrite IH. now rewrite Pos.add_succ_r.
Qed.

(** An integer from 1 to 2^53 - 1 converts to a finite double. *)
Lemma binary_normalize_small (p : positive) :
  Zpos p < 2 ^ 53 ->
  exists m e, binary_normalize prec emax (Zpos p) 0 false = S754_finite false m e.
Proof.
  intros Hp. pose proof (digits2_pos_le p 53 ltac:(lia) Hp) as Hd.
  unfold binary_normalize, binary_round, shl_align. std_Z. rewrite fexp_eq.
  destruct (Z.max (Zpos (digits2_pos p) + 0 - 53) (-1074) - 0) as [|k|k] eqn:E.
  - exists p, 0. apply binary_round_aux_canonical; [rewrite fexp_eq|]; unfold emax, prec; lia.
  - lia.
  - exists (Pos.iter xO p k), (Z.max (Zpos (digits2_pos p) + 0 - 53) (-1074)).
    apply binary_round_aux_canonical.
    + rewrite digits2_pos_iter_xO, fexp_eq, Pos2Z.inj_add. lia.
    + unfold emax, prec. lia.
Qed.

Lemma double_of_N_finite (n : Z) :
  0 < n < 2 ^ 53 ->
  exists m e, Prim2SF (double_of_N n) = S754_finite false m e.
Proof.
  intros Hn. unfold double_of_N.
  replace (n <? 9223372036854775808) with true by lia.
  rewrite of_uint63_spec, Uint63.of_Z_spec.
  rewrite Z.mod_small by (change Uint63.wB with (2 ^ 63); lia).
  destruct n as [|p|p]; [lia| |lia].
  apply binary_normalize_small. lia.
Qed.

(** The percent of a counter that equals the total is exactly 100:
    the quotient of a double by itself is 1 and the product is exact. *)
Lemma percent_of_the_total (n : Z) :
  0 < n < 2 ^ 53 ->
  int_of_double (double_of_Z n / double_of_N n * 100) = 100
  /\ int_of_double (double_of_Z n / double_of_Z n * 100) = 100.
Proof.
  intros Hn. unfold double_of_Z. replace (n <? 0) with false by lia.
  destruct (double_of_N_finite n Hn) as (m & e & H).
  rewrite (div_self _ _ _ _ H). split; vm_compute; reflexivity.
Qed.

End DivSelf.

(** ** Wrap-around of [int] sums *)

Section Wrap.

(** Adding in [int] arithmetic absorbs an earlier wrap-around. *)
Lemma to_int_add_l (x y : Z) : to_int (to_int x + y) = to_int (x + y).
Proof.
  unfold to_int. f_equal.
  replace ((x + 2147483648) mod 4294967296 - 2147483648 + y + 2147483648)
    with ((x + 2147483648) mod 4294967296 + y) by lia.
  rewrite Zplus_mod_idemp_l. f_equal. lia.
Qed.

End Wrap.

(** ** The duration text *)

Section Duration.

Local Open Scope float_scope.

(** A value that is not below 3600 is not below 1 either (NaN is below
    neither): the millisecond test at the head of the loop body can
    only succeed on the first pass. *)
Lemma not_lt_3600_not_lt_1 (x : float) : (x <? 3600) = false -> (x <? 1) = false.
Proof.
  rewrite !ltb_spec.
  replace (Prim2SF 1) with (S754_finite false 4503599627370496 (-52))
    by (vm_compute; reflexivity).
  replace (Prim2SF 3600) with (S754_finite false 7916483719987200 (-41))
    by (vm_compute; reflexivity).
  unfold SFltb.
  destruct (Prim2SF x) as [s|s| |s m e]; cbv beta iota delta [SFcompare];
    try (intros H; exact H).
  destruct s; [intros H; exact H|].
  destruct (Z.compare_spec e (-41)) as [E|E|E]; [| discriminate |].
  - intros _. subst e. reflexivity.
  - intros _. destruct (Z.compare_spec e (-52)); [lia | lia | reflexivity].
Qed.

(** The loop of [__str__], unrolled over the five units.  The pass for
    [seconds] divides by one, which changes nothing. *)
Lemma duration_text_unrolled (t : float) : duration_text t = duration_cases t.
Proof.
  unfold duration_text, duration_cases, TimeUnits.members.
  cbn [str_loop TimeUnits.value TimeUnits.name].
  unfold template. cbn [append]. rewrite !div_one.
  destruct (t <? 1) eqn:E0; [reflexivity|].
  destruct (t <? 60) eqn:E1; [reflexivity|].
  destruct (t <? 3600) eqn:E2; [reflexivity|].
  destruct (t / 60 <? 60) eqn:E3; [reflexivity|].
  destruct (t / 60 <? 3600) eqn:E4; [reflexivity|].
  rewrite (not_lt_3600_not_lt_1 _ E4).
  destruct (t / 60 / 3600 <? 60) eqn:E5; [reflexivity|].
  destruct (t / 60 / 3600 <? 3600) eqn:E6; [reflexivity|].
  rewrite (not_lt_3600_not_lt_1 _ E6).
  destruct (t / 60 / 3600 / 86400 <? 60) eqn:E7; [reflexivity|].
  destruct (t / 60 / 3600 / 86400 <? 3600) eqn:E8; reflexivity.
Qed.

End Duration.

(** ** The range of the percent

    The quotient of a counter by a total it does not exceed is at most
    one after rounding, and its product by 100 at most 100: the
    rounding of the format never steps over a double, and 1 and 100 are
    doubles. *)

Section PercentRange.

Local Open Scope Z_scope.

Ltac std_Z :=
  change IntDef.Z.add with Z.add in *;
  change IntDef.Z.sub with Z.sub in *;
  change IntDef.Z.mul with Z.mul in *;
  change IntDef.Z.min with Z.min in *;
  change IntDef.Z.max with Z.max in *;
  change IntDef.Z.leb with Z.leb in *;
  change IntDef.Z.eqb with Z.eqb in *;
  change IntDef.Z.even with Z.even in *;
  change IntDef.Z.div_eucl with Z.div_eucl in *;
  change IntDef.Z.shiftl with Z.shiftl in *.

Lemma shr_1_m (r : shr_record) : 0 <= shr_m r -> shr_m (shr_1 r) = shr_m r / 2.
Proof.
  destruct r as [m b s]. cbn [shr_m]. intros Hm. rewrite <- Z.div2_div.
  destruct m as [|[p|p|]|p]; try reflexivity; lia.
Qed.

Lemma iter_pos_shr_m (p : positive) :
  forall r, 0 <= shr_m r -> shr_m (iter_pos shr_1 p r) = shr_m r / 2 ^ Zpos p.
Proof.
  induction p as [p IH|p IH|]; intros r Hr; cbn [iter_pos].
  - assert (H1 : 0 <= shr_m (shr_1 r)) by (rewrite shr_1_m by assumption; apply Z.div_pos; lia).
    assert (H2 : 0 <= shr_m (iter_pos shr_1 p (shr_1 r)))
      by (rewrite IH by assumption; apply Z.div_pos; lia).
    rewrite IH, IH, shr_1_m by assumption.
    rewrite !Z.div_div by lia. f_equal.
    replace (Zpos p~1) with (1 + Zpos p + Zpos p) by lia.
    rewrite !Z.pow_add_r by lia. change (2 ^ 1) with 2. lia.
  - assert (H2 : 0 <= shr_m (iter_pos shr_1 p r))
      by (rewrite IH by assumption; apply Z.div_pos; lia).
    rewrite IH, IH by assumption.
    rewrite !Z.div_div by lia. f_equal.
    replace (Zpos p~0) with (Zpos p + Zpos p) by lia.
    rewrite !Z.pow_add_r by lia. lia.
  - rewrite shr_1_m by assumption. reflexivity.
Qed.

Lemma shr_record_of_loc_m (m : Z) (l : location) : shr_m (shr_record_of_loc m l) = m.
Proof. destruct l as [|[]]; reflexivity. Qed.

(** Shifting to the exponent of the format divides the mantissa. *)
Lemma shr_fexp_m (m e : Z) (l : location) :
  0 <= m ->
  let k := Z.max (fexp prec emax (Zdigits2 m + e) - e) 0 in
  snd (shr_fexp prec emax m e l) = e + k
  /\ shr_m (fst (shr_fexp prec emax m e l)) = m / 2 ^ k.
Proof.
  intros Hm k. unfold shr_fexp, shr. std_Z. subst k.
  destruct (fexp prec emax (Zdigits2 m + e) - e) as [|p|p] eqn:E; cbn [fst snd].
  - rewrite shr_record_of_loc_m. cbn. rewrite Z.div_1_r. split; lia.
  - rewrite iter_pos_shr_m by (rewrite shr_record_of_loc_m; assumption).
    rewrite shr_record_of_loc_m. split; [|f_equal; f_equal]; lia.
  - rewrite shr_record_of_loc_m. cbn. rewrite Z.div_1_r. split; lia.
Qed.

Lemma round_nearest_even_bounds (m : Z) (l : location) :
  m <= round_nearest_even m l <= m + 1.
Proof.
  unfold round_nearest_even. std_Z. destruct l as [|[]]; try lia.
  destruct (Z.even m); lia.
Qed.

(** The rounded result lies at most one unit of the first shift above
    the shifted mantissa. *)
Lemma binary_round_aux_upper (s : bool) (m e : Z) (l : location) :
  0 <= m ->
  let k := Z.max (fexp prec emax (Zdigits2 m + e) - e) 0 in
  exists m3 e3,
    0 <= m3 /\ e + k <= e3 /\ m3 * 2 ^ (e3 - (e + k)) <= m / 2 ^ k + 1
    /\ binary_round_aux prec emax s m e l
       = match m3 with
         | Z0 => S754_zero s
         | Zpos m' => if e3 <=? emax - prec then S754_finite s m' e3 else S754_infinity s
         | Zneg _ => S754_nan
         end.
Proof.
  intros Hm k. unfold binary_round_aux.
  destruct (shr_fexp_m m e l Hm) as [He1 Hm1]. fold k in He1, Hm1.
  destruct (shr_fexp prec emax m e l) as [r1 e1]. cbn [fst snd] in He1, Hm1.
  set (m2 := round_nearest_even (shr_m r1) (loc_of_shr_record r1)).
  pose proof (round_nearest_even_bounds (shr_m r1) (loc_of_shr_record r1)) as B2.
  fold m2 in B2.
  assert (H1 : 0 <= shr_m r1) by (rewrite Hm1; apply Z.div_pos; lia).
  assert (H2 : 0 <= m2) by lia.
  destruct (shr_fexp_m m2 e1 loc_Exact H2) as [He3 Hm3].
  destruct (shr_fexp prec emax m2 e1 loc_Exact) as [r3 e3]. cbn [fst snd] in He3, Hm3.
  set (k2 := Z.max (fexp prec emax (Zdigits2 m2 + e1) - e1) 0) in *.
  exists (shr_m r3), e3. std_Z.
  split; [rewrite Hm3; apply Z.div_pos; lia|].
  split; [lia|]. split; [|reflexivity].
  rewrite Hm3, He3, He1. replace (e + k + k2 - (e + k)) with k2 by lia.
  pose proof (Z.mul_div_le m2 (2 ^ k2) ltac:(lia)). lia.
Qed.


Lemma pos_iter_xO (p k : positive) : Zpos (Pos.iter xO p k) = Zpos p * 2 ^ Zpos k.
Proof.
  induction k as [|k IH] using Pos.peano_ind.
  - cbn [Pos.iter]. rewrite Pos2Z.inj_xO. change (2 ^ 1) with 2. lia.
  - rewrite Pos.iter_succ, Pos2Z.inj_xO, IH, Pos2Z.inj_succ, Z.pow_succ_r by lia. lia.
Qed.

Lemma binary_normalize_exact (p : positive) :
  Zpos p < 2 ^ 53 ->
  exists m e,
    binary_normalize prec emax (Zpos p) 0 false = S754_finite false m e
    /\ e <= 0 /\ Zpos m = Zpos p * 2 ^ (- e).
Proof.
  intros Hp. pose proof (digits2_pos_le p 53 ltac:(lia) Hp) as Hd.
  unfold binary_normalize, binary_round, shl_align. std_Z. rewrite fexp_eq.
  destruct (Z.max (Zpos (digits2_pos p) + 0 - 53) (-1074) - 0) as [|k|k] eqn:E.
  - exists p, 0. split; [|split; [lia|cbn; lia]].
    apply binary_round_aux_canonical; [rewrite fexp_eq|]; unfold emax, prec; lia.
  - lia.
  - exists (Pos.iter xO p k), (Z.max (Zpos (digits2_pos p) + 0 - 53) (-1074)).
    split; [|split; [lia|]].
    + apply binary_round_aux_canonical.
      * rewrite digits2_pos_iter_xO, fexp_eq, Pos2Z.inj_add. lia.
      * unfold emax, prec. lia.
    + rewrite pos_iter_xO. f_equal. f_equal. lia.
Qed.

Lemma double_of_N_exact (n : Z) :
  0 < n < 2 ^ 53 ->
  exists m e, Prim2SF (double_of_N n) = S754_finite false m e
              /\ e <= 0 /\ Zpos m = n * 2 ^ (- e).
Proof.
  intros Hn. unfold double_of_N.
  replace (n <? 9223372036854775808) with true by lia.
  rewrite of_uint63_spec, Uint63.of_Z_spec.
  rewrite Z.mod_small by (change Uint63.wB with (2 ^ 63); lia).
  destruct n as [|p|p]; [lia| |lia].
  apply binary_normalize_exact. lia.
Qed.

Lemma digits2_pos_upper (p : positive) : Zpos p < 2 ^ Zpos (digits2_pos p).
Proof.
  induction p as [p IH|p IH|]; cbn [digits2_pos]; [| |cbn; lia].
  all: rewrite Pos2Z.inj_succ, Z.pow_succ_r by lia; lia.
Qed.

Lemma digits2_pos_ge (p : positive) (k : Z) :
  0 <= k -> 2 ^ k <= Zpos p -> k + 1 <= Zpos (digits2_pos p).
Proof.
  intros Hk H. pose proof (digits2_pos_upper p) as U.
  destruct (Z_le_gt_dec (k + 1) (Zpos (digits2_pos p))) as [|G]; [assumption|exfalso].
  assert (2 ^ Zpos (digits2_pos p) <= 2 ^ k) by (apply Z.pow_le_mono_r; lia).
  lia.
Qed.

Lemma Zdigits2_le (m k : Z) : 0 <= m -> 0 <= k -> m < 2 ^ k -> Zdigits2 m <= k.
Proof.
  intros Hm Hk H. destruct m as [|p|p]; cbn [Zdigits2]; [lia| |lia].
  now apply digits2_pos_le.
Qed.

(** The quotient of two doubles that hold integers [c < t] is at most
    one. *)
Lemma SFdiv_at_most_one (mx my : positive) (ex ey c t : Z) :
  ex <= 0 -> ey <= 0 ->
  Zpos mx = c * 2 ^ (- ex) -> Zpos my = t * 2 ^ (- ey) ->
  0 < c < t -> t < 2 ^ 53 ->
  at_most 1 (SF64div (S754_finite false mx ex) (S754_finite false my ey)).
Proof.
  intros Hex Hey Hx Hy Hc Ht.
  unfold SF64div, SFdiv, SFdiv_core_binary. std_Z. cbn [xorb].
  set (D := Zdigits2 (Zpos mx) + ex - (Zdigits2 (Zpos my) + ey)).
  set (e' := Z.min (fexp prec emax D) (ex - ey)).
  assert (Px : 0 < 2 ^ (- ex)) by (apply Z.pow_pos_nonneg; lia).
  assert (Py : 0 < 2 ^ (- ey)) by (apply Z.pow_pos_nonneg; lia).
  (* the digits of the dividend *)
  assert (Hdx : Zdigits2 (Zpos mx) + ex <= 53).
  { assert (Zdigits2 (Zpos mx) <= 53 - ex); [|lia].
    apply Zdigits2_le; [lia|lia|].
    rewrite Hx. replace (53 - ex) with (53 + - ex) by lia.
    rewrite Z.pow_add_r by lia. nia. }
  assert (Hdy : 1 <= Zdigits2 (Zpos my) + ey).
  { assert (- ey + 1 <= Zdigits2 (Zpos my)); [|lia].
    cbn [Zdigits2]. apply digits2_pos_ge; [lia|]. rewrite Hy. nia. }
  assert (He' : e' <= 0 /\ e' <= ex - ey).
  { subst e' D. rewrite fexp_eq. lia. }
  destruct He' as [He'0 He'1].
  set (s := ex - ey - e').
  assert (Hs : 0 <= s) by (subst s; lia).
  set (m' := match s with Zpos _ => Z.shiftl (Zpos mx) s | Z0 => Zpos mx | Zneg _ => 0 end).
  assert (Hm' : m' = Zpos mx * 2 ^ s).
  { subst m'. destruct s as [|p|p] eqn:Es; [cbn; lia| |lia].
    rewrite Z.shiftl_mul_pow2 by lia. reflexivity. }
  rewrite div_eucl_pair.
  set (q := m' / Zpos my).
  assert (Ps : 0 < 2 ^ s) by (apply Z.pow_pos_nonneg; lia).
  assert (Hq0 : 0 <= q) by (subst q; apply Z.div_pos; lia).
  assert (Pe : 0 < 2 ^ (- e')) by (apply Z.pow_pos_nonneg; lia).
  assert (Hq : q < 2 ^ (- e')).
  { subst q. apply Z.div_lt_upper_bound; [lia|].
    rewrite Hm', Hx, Hy.
    (* c * 2^(-ex) * 2^s < t * 2^(-ey) * 2^(-e') *)
    replace (c * 2 ^ (- ex) * 2 ^ s) with (c * 2 ^ (- ex + s))
      by (rewrite Z.pow_add_r by lia; lia).
    replace (t * 2 ^ (- ey) * 2 ^ (- e')) with (t * 2 ^ (- ey + - e'))
      by (rewrite Z.pow_add_r by lia; lia).
    replace (- ex + s) with (- ey + - e') by (subst s; lia).
    assert (0 < 2 ^ (- ey + - e')) by (apply Z.pow_pos_nonneg; lia). nia. }
  destruct (binary_round_aux_upper false q e' (new_location (Zpos my) (m' mod Zpos my)) Hq0)
    as (m3 & e3 & H3 & He3 & Hb & ->).
  set (k := Z.max (fexp prec emax (Zdigits2 q + e') - e') 0) in *.
  assert (Hdq : Zdigits2 q <= - e') by (apply Zdigits2_le; lia).
  assert (He1 : e' + k <= 0).
  { subst k. rewrite fexp_eq. lia. }
  assert (Pk : 0 < 2 ^ k) by (apply Z.pow_pos_nonneg; subst k; lia).
  assert (Hk0 : 0 <= k) by (subst k; lia).
  assert (Hq1 : q / 2 ^ k + 1 <= 2 ^ (- (e' + k))).
  { assert (q / 2 ^ k < 2 ^ (- (e' + k))); [|lia].
    apply Z.div_lt_upper_bound; [lia|].
    rewrite <- Z.pow_add_r by lia. replace (k + - (e' + k)) with (- e') by lia. exact Hq. }
  assert (P1 : 0 < 2 ^ (- (e' + k))) by (apply Z.pow_pos_nonneg; lia).
  assert (P3 : 0 < 2 ^ (e3 - (e' + k))) by (apply Z.pow_pos_nonneg; lia).
  destruct m3 as [|m3|m3]; [exact I| |lia].
  assert (He3' : e3 <= 0).
  { destruct (Z_le_gt_dec e3 0) as [|G]; [assumption|exfalso].
    assert (2 ^ (- (e' + k)) < 2 ^ (e3 - (e' + k))) by (apply Z.pow_lt_mono_r; lia).
    nia. }
  replace (e3 <=? emax - prec) with true by (unfold emax, prec; lia).
  cbn [at_most]. rewrite (Z.max_r e3 0), (Z.max_l (- e3) 0) by lia.
  rewrite Z.pow_0_r, Z.mul_1_r, Z.mul_1_l.
  (* m3 * 2^(e3 - e1) <= 2^(-e1)  gives  m3 <= 2^(-e3) *)
  assert (E : 2 ^ (- (e' + k)) = 2 ^ (- e3) * 2 ^ (e3 - (e' + k))).
  { rewrite <- Z.pow_add_r by lia. f_equal; lia. }
  assert (P4 : 0 < 2 ^ (- e3)) by (apply Z.pow_pos_nonneg; lia).
  nia.
Qed.

Lemma Prim2SF_100 : Prim2SF 100 = S754_finite false 7036874417766400 (-46).
Proof. vm_compute. reflexivity. Qed.

(** A double that is at most one, times 100, is at most 100. *)
Lemma SFmul_100_at_most (r : spec_float) :
  valid_binary r = true -> at_most 1 r ->
  at_most 100 (SF64mul r (S754_finite false 7036874417766400 (-46))).
Proof.
  destruct r as [s|s| |[] m e]; cbn [at_most]; try contradiction; intros V B.
  { exact I. }
  unfold valid_binary, bounded, canonical_mantissa in V.
  apply andb_true_iff in V as [C _]. apply Z.eqb_eq in C. rewrite fexp_eq in C.
  assert (He : e <= 0).
  { destruct (Z_le_gt_dec e 0) as [|G]; [assumption|exfalso].
    rewrite (Z.max_l e 0), (Z.max_r (- e) 0) in B by lia.
    assert (2 ^ 1 <= 2 ^ e) by (apply Z.pow_le_mono_r; lia).
    change (2 ^ 1) with 2 in *. nia. }
  rewrite (Z.max_r e 0), (Z.max_l (- e) 0) in B by lia.
  rewrite Z.pow_0_r, Z.mul_1_r, Z.mul_1_l in B.
  assert (Pe : 0 < 2 ^ (- e)) by (apply Z.pow_pos_nonneg; lia).
  destruct (Z.eq_dec (Zpos m) (2 ^ (- e))) as [E|N].
  - (* the double is one *)
    assert (D : Zpos (digits2_pos m) = - e + 1).
    { apply Z.le_antisymm.
      - apply digits2_pos_le; [lia|]. rewrite E, Z.pow_add_r by lia. lia.
      - apply digits2_pos_ge; [lia|]. rewrite E. lia. }
    assert (e = -52) by lia. subst e.
    change (2 ^ (- -52)) with 4503599627370496 in E. injection E as ->.
    vm_compute. discriminate.
  - assert (S : Zpos m + 1 <= 2 ^ (- e)) by lia.
    unfold SF64mul, SFmul. cbn [xorb]. std_Z.
    set (M := Zpos (m * 7036874417766400)).
    assert (HM : M = Zpos m * 7036874417766400) by reflexivity.
    set (E := e + -46).
    assert (H100 : 7036874417766400 = 100 * 2 ^ 46) by reflexivity.
    assert (HMlt : M < 100 * 2 ^ (- E)).
    { subst E. replace (- (e + -46)) with (- e + 46) by lia.
      rewrite Z.pow_add_r by lia. rewrite HM, H100.
      assert (0 < 2 ^ 46) by reflexivity. nia. }
    destruct (binary_round_aux_upper false M E loc_Exact ltac:(lia))
      as (m3 & e3 & H3 & He3 & Hb & ->).
    set (k := Z.max (fexp prec emax (Zdigits2 M + E) - E) 0) in *.
    assert (PE : 0 < 2 ^ (- E)) by (apply Z.pow_pos_nonneg; subst E; lia).
    assert (HdM : Zdigits2 M <= 7 - E).
    { apply Zdigits2_le; [lia|subst E; lia|].
      replace (7 - E) with (7 + - E) by lia. rewrite Z.pow_add_r by (subst E; lia).
      change (2 ^ 7) with 128. nia. }
    assert (Hk0 : 0 <= k) by (subst k; lia).
    assert (He1 : E + k <= 0).
    { subst k. rewrite fexp_eq. subst E. lia. }
    assert (Pk : 0 < 2 ^ k) by (apply Z.pow_pos_nonneg; lia).
    assert (P1 : 0 < 2 ^ (- (E + k))) by (apply Z.pow_pos_nonneg; lia).
    assert (Hq1 : M / 2 ^ k + 1 <= 100 * 2 ^ (- (E + k))).
    { assert (M / 2 ^ k < 100 * 2 ^ (- (E + k))); [|lia].
      apply Z.div_lt_upper_bound; [lia|].
      replace (2 ^ k * (100 * 2 ^ (- (E + k)))) with (100 * (2 ^ k * 2 ^ (- (E + k)))) by lia.
      rewrite <- Z.pow_add_r by lia. replace (k + - (E + k)) with (- E) by lia. exact HMlt. }
    assert (P3 : 0 < 2 ^ (e3 - (E + k))) by (apply Z.pow_pos_nonneg; lia).
    destruct m3 as [|m3|m3]; [exact I| |lia].
    assert (He3' : e3 < 7).
    { destruct (Z_lt_ge_dec e3 7) as [|G]; [assumption|exfalso].
      assert (2 ^ (7 + - (E + k)) <= 2 ^ (e3 - (E + k))) by (apply Z.pow_le_mono_r; lia).
      rewrite Z.pow_add_r in H by lia. change (2 ^ 7) with 128 in H. nia. }
    replace (e3 <=? emax - prec) with true by (unfold emax, prec; lia).
    cbn [at_most].
    destruct (Z_le_gt_dec e3 0) as [L|G].
    + rewrite (Z.max_r e3 0), (Z.max_l (- e3) 0) by lia.
      rewrite Z.pow_0_r, Z.mul_1_r.
      assert (Eq : 2 ^ (- (E + k)) = 2 ^ (- e3) * 2 ^ (e3 - (E + k))).
      { rewrite <- Z.pow_add_r by lia. f_equal; lia. }
      assert (P4 : 0 < 2 ^ (- e3)) by (apply Z.pow_pos_nonneg; lia).
      nia.
    + rewrite (Z.max_l e3 0), (Z.max_r (- e3) 0) by lia.
      rewrite Z.pow_0_r, Z.mul_1_r.
      assert (Eq : 2 ^ (e3 - (E + k)) = 2 ^ e3 * 2 ^ (- (E + k))).
      { rewrite <- Z.pow_add_r by lia. f_equal; lia. }
      assert (P4 : 0 < 2 ^ e3) by (apply Z.pow_pos_nonneg; lia).
      nia.
Qed.

(** The cast of a double that is at most [B] is between 0 and [B]. *)
Lemma int_of_double_at_most (x : float) (B : Z) :
  0 <= B <= INT_MAX -> at_most B (Prim2SF x) -> 0 <= int_of_double x <= B.
Proof.
  intros HB. unfold int_of_double, trunc, at_most.
  destruct (Prim2SF x) as [s|s| |[] m e]; try contradiction.
  { intros _. cbn. lia. }
  intros H.
  assert (A : 0 <= (if 0 <=? e then Zpos m * 2 ^ e else Zpos m / 2 ^ (- e)) <= B).
  { destruct (0 <=? e) eqn:E.
    - rewrite (Z.max_l e 0), (Z.max_r (- e) 0) in H by lia.
      assert (0 < 2 ^ e) by (apply Z.pow_pos_nonneg; lia). lia.
    - rewrite (Z.max_r e 0), (Z.max_l (- e) 0) in H by lia.
      assert (0 < 2 ^ (- e)) by (apply Z.pow_pos_nonneg; lia).
      split; [apply Z.div_pos; lia|].
      apply Z.div_le_upper_bound; lia. }
  set (a := if 0 <=? e then _ else _) in *.
  assert (Hi : in_int a = true).
  { unfold in_int, INT_MIN, INT_MAX in *. apply andb_true_iff. lia. }
  rewrite Hi. lia.
Qed.

(** The percent of a counter between 0 and the total is between 0 and
    100. *)
Lemma percent_within_0_100 (c t : Z) :
  0 <= c <= t -> 0 < t < 2 ^ 53 ->
  0 <= int_of_double (double_of_Z c / double_of_N t * 100) <= 100.
Proof.
  intros Hc Ht.
  destruct (Z.eq_dec c t) as [->|Hne].
  { destruct (percent_of_the_total t Ht) as [-> _]. lia. }
  apply int_of_double_at_most; [unfold INT_MAX; lia|].
  rewrite mul_spec, Prim2SF_100.
  destruct (double_of_N_exact t Ht) as (my & ey & Hy & Hey & Hmy).
  destruct (Z.eq_dec c 0) as [->|Hc0].
  { rewrite div_spec, Hy.
    replace (Prim2SF (double_of_Z 0)) with (S754_zero false) by (vm_compute; reflexivity).
    exact I. }
  apply SFmul_100_at_most; [apply Prim2SF_valid|].
  rewrite div_spec, Hy.
  unfold double_of_Z. replace (c <? 0) with false by lia.
  destruct (double_of_N_exact c ltac:(lia)) as (mx & ex & Hx & Hex & Hmx).
  rewrite Hx. apply (SFdiv_at_most_one mx my ex ey c t); lia.
Qed.

(** The bar of a percent between 0 and 100 has half as many
    characters as the percent, so at most 50. *)
Lemma bar_glyph_length (p : Z) :
  0 <= p <= 100 ->
  String.length (bar_glyph p) = Z.to_nat (p / 2)
  /\ (String.length (bar_glyph p) <= 50)%nat.
Proof.
  intros Hp.
  assert (H : forallb (fun q => Nat.eqb (String.length (bar_glyph q)) (Z.to_nat (q / 2)))
                      (List.map Z.of_nat (List.seq 0 101)) = true)
    by (vm_compute; reflexivity).
  rewrite forallb_forall in H.
  assert (E : String.length (bar_glyph p) = Z.to_nat (p / 2)).
  { apply Nat.eqb_eq, H. rewrite <- (Z2Nat.id p) by lia.
    apply in_map, in_seq. lia. }
  split; [exact E|]. rewrite E.
  assert (p / 2 <= 50) by (apply Z.div_le_upper_bound; lia). lia.
Qed.

End PercentRange.

(** ** Durations below a minute *)

Section SubMinute.

Local Open Scope Z_scope.

Ltac std_Z :=
  change IntDef.Z.add with Z.add in *;
  change IntDef.Z.sub with Z.sub in *;
  change IntDef.Z.mul with Z.mul in *;
  change IntDef.Z.min with Z.min in *;
  change IntDef.Z.max with Z.max in *;
  change IntDef.Z.leb with Z.leb in *;
  change IntDef.Z.eqb with Z.eqb in *.

Lemma Prim2SF_60 : Prim2SF 60 = S754_finite false 8444249301319680 (-47).
Proof. vm_compute. reflexivity. Qed.

Lemma Prim2SF_1 : Prim2SF 1 = S754_finite false 4503599627370496 (-52).
Proof. vm_compute. reflexivity. Qed.

(** A double from 1 to below 60: finite, positive, with an exponent
    not above that of 60 and a mantissa below that of 60 at the same
    exponent. *)
Lemma between_1_and_60 (t : float) :
  (t <? 1)%float = false -> (t <? 60)%float = true ->
  exists m e,
    Prim2SF t = S754_finite false m e
    /\ e <= -47
    /\ Zpos m < 8444249301319680 * 2 ^ (-47 - e)
    /\ fexp prec emax (Zpos (digits2_pos m) + e) = e
    /\ e <= emax - prec.
Proof.
  rewrite !ltb_spec, Prim2SF_60, Prim2SF_1. unfold SFltb.
  pose proof (Prim2SF_valid t) as V.
  destruct (Prim2SF t) as [s|s| |s m e]; cbv beta iota delta [SFcompare].
  - destruct s; discriminate.
  - destruct s; discriminate.
  - discriminate.
  - destruct s; [discriminate|]. intros _ H60.
    unfold valid_binary, bounded, canonical_mantissa in V.
    apply andb_true_iff in V as [C B]. apply Z.eqb_eq in C. apply Z.leb_le in B.
    std_Z.
    exists m, e. split; [reflexivity|].
    assert (Hd : Zpos (digits2_pos m) <= 53) by (rewrite fexp_eq in C; lia).
    pose proof (digits2_pos_upper m) as U.
    assert (Hm : Zpos m < 2 ^ 53).
    { assert (2 ^ Zpos (digits2_pos m) <= 2 ^ 53) by (apply Z.pow_le_mono_r; lia). lia. }
    destruct (Z.compare_spec e (-47)) as [E|E|E]; [| |discriminate].
    + subst e. split; [lia|]. split; [|split; assumption].
      rewrite Pos.compare_cont_spec in H60. cbn [Pos.switch_Eq] in H60.
      destruct (Pos.compare_spec m 8444249301319680) as [|L|]; try discriminate.
      change (2 ^ (-47 - -47)) with 1. rewrite Z.mul_1_r. exact L.
    + split; [lia|]. split; [|split; assumption].
      assert (2 ^ 1 <= 2 ^ (-47 - e)) by (apply Z.pow_le_mono_r; lia).
      change (2 ^ 1) with 2 in *. change (2 ^ 53) with 9007199254740992 in *. lia.
Qed.

(** Python's [t % 60] leaves a duration from 1 to below 60 as it is. *)
Lemma float_mod_60_below (t : float) :
  (t <? 1)%float = false -> (t <? 60)%float = true ->
  abs (float_mod t 60) = t.
Proof.
  intros H1 H60.
  destruct (between_1_and_60 t H1 H60) as (m & e & Ht & He & Hm & C & B).
  assert (F : fmod t 60 = t).
  { unfold fmod. rewrite Ht, Prim2SF_60.
    rewrite (Z.min_l e (-47)) by lia. rewrite Z.sub_diag, Z.pow_0_r, Z.mul_1_r.
    rewrite Z.mod_small by lia.
    rewrite <- (SF2Prim_Prim2SF t), Ht. f_equal.
    unfold binary_normalize, binary_round, shl_align. std_Z.
    rewrite C, Z.sub_diag. now apply binary_round_aux_canonical. }
  assert (Z0 : (t =? 0)%float = false).
  { rewrite eqb_spec, Ht. reflexivity. }
  assert (N0 : (t <? 0)%float = false).
  { rewrite ltb_spec, Ht. reflexivity. }
  unfold float_mod. rewrite F, Z0, N0.
  replace (60 <? 0)%float with false by (vm_compute; reflexivity). cbn [xorb].
  apply Prim2SF_inj. rewrite abs_spec, Ht. reflexivity.
Qed.

Local Open Scope string_scope.

(** X30.  For a duration below 60 s the text of [__str__] is the
    duration itself: below 1 s (any negative duration included) the
    milliseconds with no decimals and the unit [ms], and from 1 s on
    the seconds with two decimals and the unit [seconds]; the modulo by
    60 the code takes first leaves such a duration as it is. *)
Lemma sub_minute_durations (t : float) :
  (t <? 60)%float = true ->
  duration_text t
  = if (t <? 1)%float then format_f 0 (t / 1e-3) ++ " ms"
    else format_f 2 t ++ " seconds".
Proof.
  intros H60. rewrite duration_text_unrolled. unfold duration_cases.
  destruct (t <? 1)%float eqn:H1; [reflexivity|].
  rewrite H60. now rewrite (float_mod_60_below t H1 H60).
Qed.

End SubMinute.

(** ** The percent against the exact floor

    [<int>(c / t * 100)] rounds twice, at the quotient and at the
    product.  Each rounding moves the value by less than one unit of a
    53-digit mantissa, which for a counter below 2^31 is far less than
    [1 / t]: the stored percent is the floor of the exact [100 * c / t]
    unless that is an integer, where it can be one less. *)

Section PercentFloor.

Local Open Scope Z_scope.

Ltac std_Z :=
  change IntDef.Z.add with Z.add in *;
  change IntDef.Z.sub with Z.sub in *;
  change IntDef.Z.mul with Z.mul in *;
  change IntDef.Z.min with Z.min in *;
  change IntDef.Z.max with Z.max in *;
  change IntDef.Z.leb with Z.leb in *;
  change IntDef.Z.eqb with Z.eqb in *;
  change IntDef.Z.even with Z.even in *;
  change IntDef.Z.div_eucl with Z.div_eucl in *;
  change IntDef.Z.shiftl with Z.shiftl in *.

Lemma Zdigits2_bounds (m : Z) :
  0 < m -> 2 ^ (Zdigits2 m - 1) <= m < 2 ^ Zdigits2 m.
Proof.
  destruct m as [|p|p]; try lia. intros _. cbn [Zdigits2].
  split; [apply digits2_pos_lower|apply digits2_pos_upper].
Qed.

Lemma Zdigits2_eq (m d : Z) : 0 < d -> 2 ^ (d - 1) <= m < 2 ^ d -> Zdigits2 m = d.
Proof.
  intros Hd [L U].
  assert (Hm : 0 < m).
  { assert (0 < 2 ^ (d - 1)) by (apply Z.pow_pos_nonneg; lia). lia. }
  destruct m as [|p|p]; try lia. cbn [Zdigits2].
  apply Z.le_antisymm.
  - apply digits2_pos_le; lia.
  - replace d with (d - 1 + 1) by lia. apply digits2_pos_ge; lia.
Qed.

(** Rounding a mantissa of at least 53 digits in the normal range:
    the result is the mantissa cut to 53 digits, or one more, at the
    exponent raised by the digits cut. *)
Lemma binary_round_aux_normal (s : bool) (m e : Z) (l : location) :
  0 < m ->
  let d := Zdigits2 m in
  53 <= d -> -1074 <= d + e - 53 -> d + e <= 1023 ->
  exists (m2 : Z) (m3 : positive) (e3 : Z),
    m / 2 ^ (d - 53) <= m2 <= m / 2 ^ (d - 53) + 1
    /\ 2 ^ 52 <= m2 <= 2 ^ 53
    /\ 2 ^ 52 <= Zpos m3 < 2 ^ 53
    /\ e + (d - 53) <= e3 <= e + (d - 53) + 1
    /\ Zpos m3 * 2 ^ (e3 - (e + (d - 53))) = m2
    /\ binary_round_aux prec emax s m e l = S754_finite s m3 e3.
Proof.
  intros Hm d Hd Hlo Hhi. unfold binary_round_aux.
  destruct (shr_fexp_m m e l ltac:(lia)) as [He1 Hm1].
  fold d in He1, Hm1. rewrite fexp_eq in He1, Hm1.
  replace (Z.max (Z.max (d + e - 53) (-1074) - e) 0) with (d - 53) in He1, Hm1 by lia.
  destruct (shr_fexp prec emax m e l) as [r1 e1]. cbn [fst snd] in He1, Hm1.
  pose proof (Zdigits2_bounds m Hm) as [Bl Bu]. fold d in Bl, Bu.
  assert (Pk : 0 < 2 ^ (d - 53)) by (apply Z.pow_pos_nonneg; lia).
  assert (H1l : 2 ^ 52 <= shr_m r1).
  { rewrite Hm1. apply Z.div_le_lower_bound; [lia|].
    rewrite <- Z.pow_add_r by lia. replace (d - 53 + 52) with (d - 1) by lia. exact Bl. }
  assert (H1u : shr_m r1 < 2 ^ 53).
  { rewrite Hm1. apply Z.div_lt_upper_bound; [lia|].
    rewrite <- Z.pow_add_r by lia. replace (d - 53 + 53) with d by lia. exact Bu. }
  set (m2 := round_nearest_even (shr_m r1) (loc_of_shr_record r1)).
  pose proof (round_nearest_even_bounds (shr_m r1) (loc_of_shr_record r1)) as B2.
  fold m2 in B2.
  assert (H2 : 0 <= m2) by lia.
  destruct (shr_fexp_m m2 e1 loc_Exact H2) as [He3 Hm3].
  rewrite fexp_eq in He3, Hm3.
  destruct (shr_fexp prec emax m2 e1 loc_Exact) as [r3 e3]. cbn [fst snd] in He3, Hm3.
  std_Z.
  destruct (Z_lt_ge_dec m2 (2 ^ 53)) as [Lt|Ge].
  - (* no carry *)
    assert (D2 : Zdigits2 m2 = 53) by (apply Zdigits2_eq; [lia|]; change (53 - 1) with 52; lia).
    rewrite D2 in He3, Hm3.
    replace (Z.max (Z.max (53 + e1 - 53) (-1074) - e1) 0) with 0 in He3, Hm3 by lia.
    rewrite Z.pow_0_r, Z.div_1_r in Hm3.
    rewrite Hm3. destruct m2 as [|p2|p2] eqn:E2; try lia.
    exists (Zpos p2), p2, e3.
    replace (e3 <=? emax - prec) with true by (unfold emax, prec; lia).
    rewrite <- Hm1. repeat split; try lia.
    replace (e3 - (e + (d - 53))) with 0 by lia. lia.
  - (* the mantissa reached 2^53 *)
    assert (E2 : m2 = 2 ^ 53) by lia.
    assert (D2 : Zdigits2 m2 = 54) by (rewrite E2; reflexivity).
    rewrite D2 in He3, Hm3.
    replace (Z.max (Z.max (54 + e1 - 53) (-1074) - e1) 0) with 1 in He3, Hm3 by lia.
    rewrite E2 in Hm3. change (2 ^ 53 / 2 ^ 1) with 4503599627370496 in Hm3.
    rewrite Hm3.
    exists m2, 4503599627370496%positive, e3.
    replace (e3 <=? emax - prec) with true by (unfold emax, prec; lia).
    rewrite <- Hm1. repeat split; try lia.
    replace (e3 - (e + (d - 53))) with 1 by lia. rewrite E2. reflexivity.
Qed.

(** An integer from 1 to 2^53 - 1 converts to the double with a
    53-digit mantissa that holds it exactly. *)
Lemma double_of_N_canonical (n : Z) :
  0 < n < 2 ^ 53 ->
  exists (m : positive) (a : Z),
    Prim2SF (double_of_N n) = S754_finite false m (- a)
    /\ 0 <= a <= 52 /\ Zpos m = n * 2 ^ a /\ 2 ^ 52 <= Zpos m < 2 ^ 53.
Proof.
  intros Hn. destruct (double_of_N_exact n Hn) as (m & e & H & He & Hm).
  pose proof (Prim2SF_valid (double_of_N n)) as V. rewrite H in V.
  unfold valid_binary, bounded, canonical_mantissa in V.
  apply andb_true_iff in V as [C _]. apply Z.eqb_eq in C. rewrite fexp_eq in C.
  pose proof (digits2_pos_lower m) as L. pose proof (digits2_pos_upper m) as U.
  assert (Pe : 0 < 2 ^ (- e)) by (apply Z.pow_pos_nonneg; lia).
  assert (Hd : Zpos (digits2_pos m) = 53).
  { destruct (Z.eq_dec (Zpos (digits2_pos m)) 53) as [|N]; [assumption|exfalso].
    assert (E : e = -1074) by lia. subst e.
    assert (2 ^ (- -1074) <= Zpos m) by nia.
    assert (Zpos (digits2_pos m) <= 1074) by lia.
    assert (2 ^ Zpos (digits2_pos m) <= 2 ^ 1074) by (apply Z.pow_le_mono_r; lia).
    change (- -1074) with 1074 in *. lia. }
  rewrite Hd in L, U. change (53 - 1) with 52 in L.
  exists m, (- e). rewrite Z.opp_involutive. split; [exact H|].
  split; [|split; [exact Hm|lia]].
  split; [lia|].
  destruct (Z_le_gt_dec (- e) 52) as [|G]; [assumption|exfalso].
  assert (2 ^ 53 <= 2 ^ (- e)) by (apply Z.pow_le_mono_r; lia). nia.
Qed.

(** The quotient of two doubles holding integers [c < t]: a 53-digit
    mantissa [m2] at an exponent [-n1], within one unit of that
    exponent of the exact quotient. *)
Lemma SFdiv_quotient (mx my : positive) (a b c t : Z) :
  0 <= a <= 52 -> 0 <= b <= 52 ->
  Zpos mx = c * 2 ^ a -> Zpos my = t * 2 ^ b ->
  2 ^ 52 <= Zpos mx < 2 ^ 53 -> 2 ^ 52 <= Zpos my < 2 ^ 53 ->
  0 < c < t ->
  exists (m3 : positive) (e3 m2 n1 : Z),
    SF64div (S754_finite false mx (- a)) (S754_finite false my (- b))
    = S754_finite false m3 e3
    /\ 2 ^ 52 <= Zpos m3 < 2 ^ 53
    /\ 0 <= n1 <= 106
    /\ - n1 <= e3 <= - n1 + 1
    /\ Zpos m3 * 2 ^ (e3 + n1) = m2
    /\ 2 ^ 52 <= m2 <= 2 ^ 53
    /\ (m2 - 1) * t <= c * 2 ^ n1
    /\ c * 2 ^ n1 < (m2 + 1) * t.
Proof.
  intros Ha Hb Hx Hy Bx By Hc.
  unfold SF64div, SFdiv, SFdiv_core_binary. std_Z. cbn [xorb].
  rewrite (Zdigits2_eq (Zpos mx) 53) by (change (53 - 1) with 52; lia).
  rewrite (Zdigits2_eq (Zpos my) 53) by (change (53 - 1) with 52; lia).
  rewrite fexp_eq.
  replace (Z.min (Z.max (53 + - a - (53 + - b) - 53) (-1074)) (- a - - b))
    with (b - a - 53) by lia.
  replace (- a - - b - (b - a - 53)) with 53 by lia.
  rewrite div_eucl_pair, Z.shiftl_mul_pow2 by lia.
  set (q := Zpos mx * 2 ^ 53 / Zpos my).
  set (r := (Zpos mx * 2 ^ 53) mod Zpos my).
  pose proof (Z.div_mod (Zpos mx * 2 ^ 53) (Zpos my) ltac:(lia)) as DM.
  pose proof (Z.mod_pos_bound (Zpos mx * 2 ^ 53) (Zpos my) ltac:(lia)) as MB.
  fold q r in DM, MB.
  assert (P53 : 2 ^ 53 = 9007199254740992) by reflexivity.
  assert (P52 : 2 ^ 52 = 4503599627370496) by reflexivity.
  assert (Hq : 2 ^ 52 <= q < 2 ^ 54).
  { split.
    - apply Z.div_le_lower_bound; [lia|]. nia.
    - apply Z.div_lt_upper_bound; [lia|]. change (2 ^ 54) with (2 * 2 ^ 53). nia. }
  assert (Hq0 : 0 < q) by lia.
  pose proof (Zdigits2_bounds q Hq0) as [Dl Du].
  set (d := Zdigits2 q) in *.
  assert (Hd : 53 <= d <= 54).
  { split.
    - destruct (Z_le_gt_dec 53 d) as [|G]; [assumption|exfalso].
      assert (2 ^ d <= 2 ^ 52) by (apply Z.pow_le_mono_r; lia). lia.
    - apply Zdigits2_le; lia. }
  destruct (binary_round_aux_normal false q (b - a - 53) (new_location (Zpos my) r) Hq0)
    as (m2 & m3 & e3 & B2 & R2 & R3 & He3 & Hv & ->); fold d; try lia.
  set (k := d - 53) in *.
  set (n1 := 53 + a - b - k).
  exists m3, e3, m2, n1.
  split; [reflexivity|]. split; [exact R3|]. split; [subst n1 k; lia|].
  split; [subst n1 k; lia|].
  split; [rewrite <- Hv; f_equal; f_equal; subst n1 k; lia|].
  split; [exact R2|].
  assert (Pk : 0 < 2 ^ k) by (apply Z.pow_pos_nonneg; subst k; lia).
  assert (Pb : 0 < 2 ^ b) by (apply Z.pow_pos_nonneg; lia).
  assert (Pn : 0 < 2 ^ n1) by (apply Z.pow_pos_nonneg; subst n1 k; lia).
  assert (Epow : 2 ^ a * 2 ^ 53 = 2 ^ n1 * (2 ^ k * 2 ^ b)).
  { rewrite <- !Z.pow_add_r by (subst n1 k; lia). f_equal. subst n1 k. lia. }
  pose proof (Z.div_mod q (2 ^ k) ltac:(lia)) as DM1.
  pose proof (Z.mod_pos_bound q (2 ^ k) ltac:(lia)) as MB1.
  set (m1 := q / 2 ^ k) in *. set (r1 := q mod 2 ^ k) in *.
  set (W := 2 ^ k * 2 ^ b). assert (PW : 0 < W) by (subst W; nia).
  (* m1 * t * W <= c * 2^n1 * W < (m1 + 1) * t * W *)
  assert (Hlow : m1 * t * W <= c * 2 ^ n1 * W).
  { replace (c * 2 ^ n1 * W) with (c * 2 ^ a * 2 ^ 53) by (subst W; rewrite <- (Z.mul_assoc c), Epow; ring).
    rewrite <- Hx. subst W.
    replace (m1 * t * (2 ^ k * 2 ^ b)) with (m1 * 2 ^ k * (t * 2 ^ b)) by ring.
    rewrite <- Hy. nia. }
  assert (Hupp : c * 2 ^ n1 * W < (m1 + 1) * t * W).
  { replace (c * 2 ^ n1 * W) with (c * 2 ^ a * 2 ^ 53) by (subst W; rewrite <- (Z.mul_assoc c), Epow; ring).
    rewrite <- Hx. subst W.
    replace ((m1 + 1) * t * (2 ^ k * 2 ^ b)) with ((m1 + 1) * 2 ^ k * (t * 2 ^ b)) by ring.
    rewrite <- Hy. nia. }
  apply Z.mul_le_mono_pos_r in Hlow; [|exact PW].
  apply Z.mul_lt_mono_pos_r in Hupp; [|exact PW].
  change (q / 2 ^ (Zdigits2 q - 53)) with m1 in B2.
  clearbody m1.
  split.
  - apply Z.le_trans with (m1 * t); [|exact Hlow].
    apply Z.mul_le_mono_nonneg_r; [clear - Hc|clear - B2]; lia.
  - apply Z.lt_le_trans with ((m1 + 1) * t); [exact Hupp|].
    apply Z.mul_le_mono_nonneg_r; [clear - Hc|clear - B2]; lia.
Qed.

(** The integer core: [m2 / U] is the rounded quotient of [c] by [t],
    [m4 / V] the rounded product by 100, [p] its integer part. *)
Lemma percent_arith (c t U V m2 m4 p : Z) :
  0 < c < t -> c < 2 ^ 31 -> 0 < U -> 0 < V ->
  2 ^ 52 <= m2 -> 2 ^ 52 <= m4 ->
  (m2 - 1) * t <= c * U -> c * U < (m2 + 1) * t ->
  (m4 - 1) * U <= 100 * m2 * V -> 100 * m2 * V < (m4 + 1) * U ->
  p * V <= m4 -> m4 < (p + 1) * V ->
  100 * c / t - 1 <= p <= 100 * c / t
  /\ ((100 * c) mod t <> 0 -> p = 100 * c / t).
Proof.
  intros Hc Hc31 HU0 HV0 H2 H4 A1 A2 B1 B2 C1 C2.
  change (2 ^ 31) with 2147483648 in Hc31.
  change (2 ^ 52) with 4503599627370496 in H2, H4.
  pose proof (Z.div_mod (100 * c) t ltac:(lia)) as DM.
  pose proof (Z.mod_pos_bound (100 * c) t ltac:(lia)) as MB.
  set (F := 100 * c / t) in *. set (rho := (100 * c) mod t) in *.
  clearbody F rho.
  (* the units of the two roundings are far below 1/t *)
  assert (HU : 1048576 * t <= U).
  { destruct (Z_le_gt_dec (1048576 * t) U) as [|G]; [assumption|exfalso].
    assert (c * U <= 2147483647 * U) by (apply Z.mul_le_mono_nonneg_r; lia).
    assert (4503599627370495 * t <= (m2 - 1) * t) by (apply Z.mul_le_mono_nonneg_r; lia).
    lia. }
  assert (Pt : 0 < t) by lia.
  assert (PUt : 0 < U * t) by (apply Z.mul_pos_pos; lia).
  assert (PUV : 0 < U * V) by (apply Z.mul_pos_pos; lia).
  assert (PtV : 0 < t * V) by (apply Z.mul_pos_pos; lia).
  (* t * m2 against c * U, times 100 * V *)
  assert (A1' : 100 * V * (m2 * t) <= 100 * V * (c * U + t)).
  { apply Z.mul_le_mono_nonneg_l; lia. }
  assert (A2' : 100 * V * (c * U - t + 1) <= 100 * V * (m2 * t)).
  { apply Z.mul_le_mono_nonneg_l; lia. }
  assert (B1' : (m4 - 1) * U * t <= 100 * m2 * V * t).
  { apply Z.mul_le_mono_nonneg_r; lia. }
  assert (B2' : (100 * m2 * V + 1) * t <= (m4 + 1) * U * t).
  { apply Z.mul_le_mono_nonneg_r; lia. }
  assert (HV : 2 * t <= V).
  { destruct (Z_le_gt_dec (2 * t) V) as [|G]; [assumption|exfalso].
    assert (4503599627370495 * (U * t) <= (m4 - 1) * (U * t))
      by (apply Z.mul_le_mono_nonneg_r; lia).
    assert (V * (c * U) <= 2 * t * (c * U))
      by (apply Z.mul_le_mono_nonneg_r; [apply Z.mul_nonneg_nonneg|]; lia).
    assert (t * (c * U) <= t * (2147483647 * U))
      by (apply Z.mul_le_mono_nonneg_l; [|apply Z.mul_le_mono_nonneg_r]; lia).
    assert (V * t <= 2 * t * t)
      by (apply Z.mul_le_mono_nonneg_r; lia).
    assert (t * (1048576 * t) <= t * U)
      by (apply Z.mul_le_mono_nonneg_l; lia).
    lia. }
  assert (E100 : 100 * V * (c * U) = (t * F + rho) * (U * V)) by (rewrite <- DM; ring).
  assert (HVU : 2 * t * U <= V * U) by (apply Z.mul_le_mono_nonneg_r; lia).
  assert (HUV : 1048576 * t * V <= U * V) by (apply Z.mul_le_mono_nonneg_r; lia).
  assert (Upper : p <= F).
  { destruct (Z_le_gt_dec p F) as [|G]; [assumption|exfalso].
    assert ((F + 1) * V <= p * V) by (apply Z.mul_le_mono_nonneg_r; lia).
    assert (((F + 1) * V - 1) * (U * t) <= (m4 - 1) * (U * t))
      by (apply Z.mul_le_mono_nonneg_r; lia).
    assert (1 * (U * V) <= (t - rho) * (U * V))
      by (apply Z.mul_le_mono_nonneg_r; lia).
    lia. }
  assert (Low : forall d, 0 <= d -> p + 1 + d <= F -> rho * (U * V) + d * t * (U * V) < 100 * t * V).
  { intros d Hd G.
    assert ((m4 + 1) * (U * t) <= (p + 1) * V * (U * t))
      by (apply Z.mul_le_mono_nonneg_r; lia).
    assert ((p + 1 + d) * (t * (U * V)) <= F * (t * (U * V)))
      by (apply Z.mul_le_mono_nonneg_r; [apply Z.mul_nonneg_nonneg|]; lia).
    lia. }
  split; [split; [|exact Upper]|].
  - destruct (Z_le_gt_dec (F - 1) p) as [|G]; [assumption|exfalso].
    specialize (Low 1 ltac:(lia) ltac:(lia)).
    assert (0 <= rho * (U * V)) by (apply Z.mul_nonneg_nonneg; lia).
    assert (1048576 * V <= U * V) by (apply Z.mul_le_mono_nonneg_r; lia).
    assert (t * (1048576 * V) <= t * (U * V)) by (apply Z.mul_le_mono_nonneg_l; lia).
    lia.
  - intros Hr. destruct (Z.eq_dec p F) as [|N]; [assumption|exfalso].
    specialize (Low 0 ltac:(lia) ltac:(lia)).
    assert (1 * (U * V) <= rho * (U * V)) by (apply Z.mul_le_mono_nonneg_r; lia).
    lia.
Qed.

(** The product of a double with a 53-digit mantissa and 100: a
    53-digit mantissa [m4], [k] binary places above the exact product
    and within one unit of it. *)
Lemma SFmul_100_rounded (m3 : positive) (e3 : Z) :
  2 ^ 52 <= Zpos m3 < 2 ^ 53 -> -200 <= e3 <= 0 ->
  exists (m5 : positive) (e5 m4 k : Z),
    SF64mul (S754_finite false m3 e3) (S754_finite false 7036874417766400 (-46))
    = S754_finite false m5 e5
    /\ 52 <= k <= 53
    /\ 2 ^ 52 <= m4 <= 2 ^ 53
    /\ (m4 - 1) * 2 ^ k <= Zpos m3 * (100 * 2 ^ 46)
    /\ Zpos m3 * (100 * 2 ^ 46) < (m4 + 1) * 2 ^ k
    /\ e3 - 46 + k <= e5 <= e3 - 46 + k + 1
    /\ Zpos m5 * 2 ^ (e5 - (e3 - 46 + k)) = m4.
Proof.
  intros B3 He3.
  unfold SF64mul, SFmul. cbn [xorb]. std_Z.
  set (M := Zpos (m3 * 7036874417766400)).
  assert (HM : M = Zpos m3 * (100 * 2 ^ 46)) by reflexivity.
  clearbody M.
  assert (P52 : 2 ^ 52 = 4503599627370496) by reflexivity.
  assert (P53 : 2 ^ 53 = 9007199254740992) by reflexivity.
  assert (P46 : 100 * 2 ^ 46 = 7036874417766400) by reflexivity.
  assert (P104 : 2 ^ 104 = 20282409603651670423947251286016) by reflexivity.
  assert (P106 : 2 ^ 106 = 81129638414606681695789005144064) by reflexivity.
  assert (BM : 2 ^ 104 <= M < 2 ^ 106) by lia.
  assert (HM0 : 0 < M) by lia.
  pose proof (Zdigits2_bounds M HM0) as [Dl Du].
  set (d := Zdigits2 M) in *.
  assert (Hd : 105 <= d <= 106).
  { split.
    - destruct (Z_le_gt_dec 105 d) as [|G]; [assumption|exfalso].
      assert (2 ^ d <= 2 ^ 104) by (apply Z.pow_le_mono_r; lia). lia.
    - apply Zdigits2_le; lia. }
  destruct (binary_round_aux_normal false M (e3 + -46) loc_Exact HM0)
    as (m4 & m5 & e5 & B4 & R4 & R5 & He5 & Hv & ->); fold d; try lia.
  fold d in B4, He5, Hv.
  set (k := d - 53) in *.
  exists m5, e5, m4, k.
  split; [reflexivity|]. split; [subst k; lia|]. split; [exact R4|].
  assert (Pk : 0 < 2 ^ k) by (apply Z.pow_pos_nonneg; subst k; lia).
  pose proof (Z.div_mod M (2 ^ k) ltac:(lia)) as DM.
  pose proof (Z.mod_pos_bound M (2 ^ k) ltac:(lia)) as MB.
  set (m1 := M / 2 ^ k) in *. set (r1 := M mod 2 ^ k) in *.
  clearbody m1 r1. rewrite <- HM.
  assert (L1 : (m4 - 1) * 2 ^ k <= m1 * 2 ^ k)
    by (apply Z.mul_le_mono_nonneg_r; [clear - Pk|clear - B4]; lia).
  assert (L2 : (m1 + 1) * 2 ^ k <= (m4 + 1) * 2 ^ k)
    by (apply Z.mul_le_mono_nonneg_r; [clear - Pk|clear - B4]; lia).
  split; [clear - L1 DM MB; lia|]. split; [clear - L2 DM MB; lia|].
  split; [clear - He5; lia|].
  replace (e5 - (e3 - 46 + k)) with (e5 - (e3 + -46 + k)) by (clear; lia).
  exact Hv.
Qed.

(** [<int>(c / t * 100)] for [0 < c < t]: the exact floor of
    [100 * c / t] or one below it, and the exact floor whenever
    [100 * c] is not a multiple of [t]. *)
Lemma percent_below_total (c t : Z) :
  0 < c < t -> c < 2 ^ 31 -> t < 2 ^ 53 ->
  let p := int_of_double (double_of_Z c / double_of_N t * 100) in
  100 * c / t - 1 <= p <= 100 * c / t
  /\ ((100 * c) mod t <> 0 -> p = 100 * c / t).
Proof.
  intros Hc Hc31 Ht p.
  assert (P31 : 2 ^ 31 = 2147483648) by reflexivity.
  assert (P52 : 2 ^ 52 = 4503599627370496) by reflexivity.
  assert (P53 : 2 ^ 53 = 9007199254740992) by reflexivity.
  destruct (double_of_N_canonical c ltac:(lia)) as (mx & a & Hx & Ha & Ex & Bx).
  destruct (double_of_N_canonical t ltac:(lia)) as (my & b & Hy & Hb & Ey & By).
  destruct (SFdiv_quotient mx my a b c t Ha Hb Ex Ey Bx By Hc)
    as (m3 & e3 & m2 & n1 & Hq & B3 & Hn1 & He3 & E2 & B2 & Q1 & Q2).
  assert (PU : 0 < 2 ^ n1) by (apply Z.pow_pos_nonneg; lia).
  (* the quotient is below one: its unit is at most 2^-52 *)
  assert (Hn52 : 52 <= n1).
  { destruct (Z_le_gt_dec 52 n1) as [|G]; [assumption|exfalso].
    assert (2 ^ n1 <= 2 ^ 51) by (apply Z.pow_le_mono_r; lia).
    change (2 ^ 51) with 2251799813685248 in *.
    assert (c * 2 ^ n1 <= t * 2 ^ n1) by (apply Z.mul_le_mono_nonneg_r; lia).
    assert (2 ^ n1 * t <= 2251799813685248 * t) by (apply Z.mul_le_mono_nonneg_r; lia).
    assert (4503599627370495 * t <= (m2 - 1) * t) by (apply Z.mul_le_mono_nonneg_r; lia).
    lia. }
  destruct (SFmul_100_rounded m3 e3 B3 ltac:(lia))
    as (m5 & e5 & m4 & k & Hm & Hk & B4 & M1 & M2 & He5 & E4).
  assert (Hp : Prim2SF (double_of_Z c / double_of_N t * 100) = S754_finite false m5 e5).
  { rewrite mul_spec, Prim2SF_100, div_spec, Hy. unfold double_of_Z.
    replace (c <? 0) with false by lia. rewrite Hx, Hq. exact Hm. }
  set (n2 := - (e3 - 46 + k)).
  assert (Hn2 : 0 <= n2) by (subst n2; lia).
  assert (PV : 0 < 2 ^ n2) by (apply Z.pow_pos_nonneg; lia).
  set (j := e3 + n1) in *. set (j' := e5 - (e3 - 46 + k)) in *.
  assert (Hj : 0 <= j <= 1) by (subst j; lia).
  assert (Hj' : 0 <= j' <= 1) by (subst j'; lia).
  assert (Pj : 0 < 2 ^ j) by (apply Z.pow_pos_nonneg; lia).
  assert (Pj' : 0 < 2 ^ j') by (apply Z.pow_pos_nonneg; lia).
  assert (Pk : 0 < 2 ^ k) by (apply Z.pow_pos_nonneg; lia).
  assert (P46 : 0 < 2 ^ 46) by reflexivity.
  assert (Pe5 : 0 < 2 ^ (- e5)) by (apply Z.pow_pos_nonneg; lia).
  (* the cast *)
  set (q := Zpos m5 / 2 ^ (- e5)).
  pose proof (Z.div_mod (Zpos m5) (2 ^ (- e5)) ltac:(lia)) as DM.
  pose proof (Z.mod_pos_bound (Zpos m5) (2 ^ (- e5)) ltac:(lia)) as MB.
  fold q in DM.
  assert (EV : 2 ^ n2 = 2 ^ (- e5) * 2 ^ j').
  { rewrite <- Z.pow_add_r by lia. f_equal. subst n2 j'. lia. }
  assert (C1 : q * 2 ^ n2 <= m4).
  { rewrite EV, <- E4, Z.mul_assoc. apply Z.mul_le_mono_nonneg_r; lia. }
  assert (C2 : m4 < (q + 1) * 2 ^ n2).
  { rewrite EV, <- E4, Z.mul_assoc. apply Z.mul_lt_mono_pos_r; lia. }
  (* the product against the quotient *)
  assert (EU : 2 ^ n1 * 2 ^ 46 = 2 ^ n2 * (2 ^ k * 2 ^ j)).
  { rewrite <- !Z.pow_add_r by lia. f_equal. subst n2 j. lia. }
  assert (N1 : (m4 - 1) * 2 ^ n1 <= 100 * m2 * 2 ^ n2).
  { apply Z.mul_le_mono_pos_r with (p := 2 ^ 46); [exact P46|].
    rewrite <- (Z.mul_assoc (m4 - 1)), EU, <- E2.
    replace ((m4 - 1) * (2 ^ n2 * (2 ^ k * 2 ^ j)))
      with ((m4 - 1) * 2 ^ k * (2 ^ n2 * 2 ^ j)) by ring.
    replace (100 * (Zpos m3 * 2 ^ j) * 2 ^ n2 * 2 ^ 46)
      with (Zpos m3 * (100 * 2 ^ 46) * (2 ^ n2 * 2 ^ j)) by ring.
    apply Z.mul_le_mono_nonneg_r; [|exact M1].
    apply Z.mul_nonneg_nonneg; lia. }
  assert (N2 : 100 * m2 * 2 ^ n2 < (m4 + 1) * 2 ^ n1).
  { apply Z.mul_lt_mono_pos_r with (p := 2 ^ 46); [exact P46|].
    rewrite <- (Z.mul_assoc (m4 + 1)), EU, <- E2.
    replace ((m4 + 1) * (2 ^ n2 * (2 ^ k * 2 ^ j)))
      with ((m4 + 1) * 2 ^ k * (2 ^ n2 * 2 ^ j)) by ring.
    replace (100 * (Zpos m3 * 2 ^ j) * 2 ^ n2 * 2 ^ 46)
      with (Zpos m3 * (100 * 2 ^ 46) * (2 ^ n2 * 2 ^ j)) by ring.
    apply Z.mul_lt_mono_pos_r; [|exact M2].
    apply Z.mul_pos_pos; lia. }
  pose proof (percent_arith c t (2 ^ n1) (2 ^ n2) m2 m4 q Hc Hc31 PU PV
                ltac:(lia) ltac:(lia) Q1 Q2 N1 N2 C1 C2) as R.
  assert (Hq100 : 0 <= q <= 100).
  { split; [apply Z.div_pos; lia|].
    destruct R as [[_ R] _]. apply Z.le_trans with (1 := R).
    apply Z.div_le_upper_bound; lia. }
  assert (Ep : p = q).
  { subst p. unfold int_of_double, trunc. rewrite Hp.
    replace (0 <=? e5) with false by lia. fold q.
    replace (in_int q) with true; [reflexivity|].
    symmetry. unfold in_int, INT_MIN, INT_MAX. apply andb_true_iff. lia. }
  rewrite Ep. exact R.
Qed.

(** An integer of 54 to 63 binary digits converts to a double of at
    least 2^53: a 53-digit mantissa at a positive exponent. *)
Lemma binary_normalize_large (n : Z) :
  2 ^ 53 <= n < 2 ^ 63 ->
  exists (m : positive) (e : Z),
    binary_normalize prec emax n 0 false = S754_finite false m e
    /\ 2 ^ 52 <= Zpos m < 2 ^ 53
    /\ Zdigits2 n - 53 <= e <= Zdigits2 n - 52.
Proof.
  intros Hn.
  assert (P53 : 2 ^ 53 = 9007199254740992) by reflexivity.
  assert (P63 : 2 ^ 63 = 9223372036854775808) by reflexivity.
  assert (Hn0 : 0 < n) by lia.
  pose proof (Zdigits2_bounds n Hn0) as [Dl Du].
  assert (Hd : 54 <= Zdigits2 n <= 63).
  { split.
    - destruct (Z_le_gt_dec 54 (Zdigits2 n)) as [|G]; [assumption|exfalso].
      assert (2 ^ Zdigits2 n <= 2 ^ 53) by (apply Z.pow_le_mono_r; lia). lia.
    - apply Zdigits2_le; lia. }
  destruct (binary_round_aux_normal false n 0 loc_Exact Hn0)
    as (m2 & m3 & e3 & _ & _ & R3 & He3 & _ & H); try lia.
  exists m3, e3. split; [|split; [exact R3|lia]].
  rewrite <- H. destruct n as [|p|p]; try lia.
  unfold binary_normalize, binary_round, shl_align. std_Z. rewrite fexp_eq.
  change (Zpos (digits2_pos p)) with (Zdigits2 (Zpos p)).
  destruct (Z.max (Zdigits2 (Zpos p) + 0 - 53) (-1074) - 0) as [|k|k] eqn:E;
    [lia|reflexivity|lia].
Qed.

(** A total of 2^53 or more converts to a double of at least 2^53. *)
Lemma double_of_N_large (t : Z) :
  2 ^ 53 <= t < 2 ^ 64 ->
  exists (m : positive) (e : Z),
    Prim2SF (double_of_N t) = S754_finite false m e
    /\ 2 ^ 52 <= Zpos m < 2 ^ 53 /\ 1 <= e <= 13.
Proof.
  intros Ht.
  assert (P53 : 2 ^ 53 = 9007199254740992) by reflexivity.
  assert (P62 : 2 ^ 62 = 4611686018427387904) by reflexivity.
  assert (P63 : 2 ^ 63 = 9223372036854775808) by reflexivity.
  assert (P64 : 2 ^ 64 = 18446744073709551616) by reflexivity.
  unfold double_of_N. destruct (t <? 9223372036854775808) eqn:Lt.
  - rewrite of_uint63_spec, Uint63.of_Z_spec.
    rewrite Z.mod_small by (change Uint63.wB with (2 ^ 63); lia).
    destruct (binary_normalize_large t ltac:(lia)) as (m & e & H & Hm & He).
    exists m, e. split; [exact H|]. split; [exact Hm|].
    assert (54 <= Zdigits2 t <= 63); [|lia].
    pose proof (Zdigits2_bounds t ltac:(lia)) as [Dl Du].
    split.
    + destruct (Z_le_gt_dec 54 (Zdigits2 t)) as [|G]; [assumption|exfalso].
      assert (2 ^ Zdigits2 t <= 2 ^ 53) by (apply Z.pow_le_mono_r; lia). lia.
    + apply Zdigits2_le; lia.
  - set (u := Z.lor (Z.shiftr t 1) (Z.land t 1)).
    assert (Hs : 2 ^ 62 <= Z.shiftr t 1 < 2 ^ 63).
    { rewrite Z.shiftr_div_pow2 by lia. change (2 ^ 1) with 2.
      split; [apply Z.div_le_lower_bound|apply Z.div_lt_upper_bound]; lia. }
    assert (Hb : 0 <= Z.land t 1 <= 1).
    { assert (E : Z.land t 1 = t mod 2)
        by (change 1 with (Z.ones 1); now rewrite Z.land_ones by lia).
      rewrite E. pose proof (Z.mod_pos_bound t 2 ltac:(lia)). lia. }
    assert (Hu0 : 0 <= u) by (apply Z.lor_nonneg; lia).
    assert (Hl : Z.log2 u = 62).
    { subst u. rewrite Z.log2_lor by lia.
      assert (Z.log2 (Z.shiftr t 1) = 62).
      { apply Z.log2_unique; [lia|]. change (62 + 1) with 63. lia. }
      assert (Z.log2 (Z.land t 1) <= 0).
      { destruct (Z.eq_dec (Z.land t 1) 0) as [->|]; [reflexivity|].
        replace (Z.land t 1) with 1 by lia. reflexivity. }
      pose proof (Z.log2_nonneg (Z.land t 1)). lia. }
    assert (Hu : 2 ^ 62 <= u < 2 ^ 63).
    { assert (0 < u).
      { destruct (Z.eq_dec u 0) as [E|]; [|lia]. rewrite E in Hl. discriminate. }
      pose proof (Z.log2_spec u ltac:(lia)) as S. rewrite Hl in S.
      change (Z.succ 62) with 63 in S. lia. }
    rewrite mul_spec, of_uint63_spec, Uint63.of_Z_spec.
    rewrite Z.mod_small by (change Uint63.wB with (2 ^ 63); lia).
    destruct (binary_normalize_large u ltac:(lia)) as (m & e & H & Hm & He).
    rewrite H.
    assert (Du : Zdigits2 u = 63).
    { apply Zdigits2_eq; [lia|]. change (63 - 1) with 62. lia. }
    rewrite Du in He.
    replace (Prim2SF 2) with (S754_finite false 4503599627370496 (-51))
      by (vm_compute; reflexivity).
    unfold SF64mul, SFmul. cbn [xorb]. std_Z.
    set (M := Zpos (m * 4503599627370496)).
    assert (HM : M = Zpos m * 2 ^ 52) by reflexivity.
    clearbody M.
    assert (P52 : 2 ^ 52 = 4503599627370496) by reflexivity.
    assert (P104 : 2 ^ 104 = 20282409603651670423947251286016) by reflexivity.
    assert (P105 : 2 ^ 105 = 40564819207303340847894502572032) by reflexivity.
    assert (DM : Zdigits2 M = 105).
    { apply Zdigits2_eq; [lia|]. change (105 - 1) with 104. lia. }
    destruct (binary_round_aux_normal false M (e + -51) loc_Exact ltac:(lia))
      as (m4 & m5 & e5 & _ & _ & R5 & He5 & _ & ->); rewrite ?DM; try lia.
    rewrite DM in He5. exists m5, e5. split; [reflexivity|]. split; [exact R5|lia].
Qed.

(** The quotient of a double below 2^31 by a double of at least 2^53
    is at most 2^-22. *)
Lemma SFdiv_small (mx my : positive) (ex ey : Z) :
  2 ^ 52 <= Zpos mx < 2 ^ 53 -> 2 ^ 52 <= Zpos my < 2 ^ 53 ->
  -52 <= ex <= -22 -> 1 <= ey <= 13 ->
  exists (m3 : positive) (e3 : Z),
    SF64div (S754_finite false mx ex) (S754_finite false my ey) = S754_finite false m3 e3
    /\ 2 ^ 52 <= Zpos m3 < 2 ^ 53
    /\ -200 <= e3 <= -74.
Proof.
  intros Bx By Hex Hey.
  unfold SF64div, SFdiv, SFdiv_core_binary. std_Z. cbn [xorb].
  rewrite (Zdigits2_eq (Zpos mx) 53) by (change (53 - 1) with 52; lia).
  rewrite (Zdigits2_eq (Zpos my) 53) by (change (53 - 1) with 52; lia).
  rewrite fexp_eq.
  replace (Z.min (Z.max (53 + ex - (53 + ey) - 53) (-1074)) (ex - ey))
    with (ex - ey - 53) by lia.
  replace (ex - ey - (ex - ey - 53)) with 53 by lia.
  rewrite div_eucl_pair, Z.shiftl_mul_pow2 by lia.
  set (q := Zpos mx * 2 ^ 53 / Zpos my).
  set (r := (Zpos mx * 2 ^ 53) mod Zpos my).
  assert (P53 : 2 ^ 53 = 9007199254740992) by reflexivity.
  assert (P52 : 2 ^ 52 = 4503599627370496) by reflexivity.
  assert (Hq : 2 ^ 52 <= q < 2 ^ 54).
  { split.
    - apply Z.div_le_lower_bound; [lia|]. nia.
    - apply Z.div_lt_upper_bound; [lia|]. change (2 ^ 54) with (2 * 2 ^ 53). nia. }
  assert (Hq0 : 0 < q) by lia.
  pose proof (Zdigits2_bounds q Hq0) as [Dl Du].
  set (d := Zdigits2 q) in *.
  assert (Hd : 53 <= d <= 54).
  { split.
    - destruct (Z_le_gt_dec 53 d) as [|G]; [assumption|exfalso].
      assert (2 ^ d <= 2 ^ 52) by (apply Z.pow_le_mono_r; lia). lia.
    - apply Zdigits2_le; lia. }
  destruct (binary_round_aux_normal false q (ex - ey - 53) (new_location (Zpos my) r) Hq0)
    as (m2 & m3 & e3 & _ & _ & R3 & He3 & _ & ->); fold d; try lia.
  fold d in He3. exists m3, e3. split; [reflexivity|]. split; [exact R3|lia].
Qed.

(** [<int>(c / t * 100)] is 0 for a counter below 2^31 and a total of
    2^53 or more. *)
Lemma percent_of_a_large_total (c t : Z) :
  0 <= c < 2 ^ 31 -> 2 ^ 53 <= t < 2 ^ 64 ->
  int_of_double (double_of_Z c / double_of_N t * 100) = 0.
Proof.
  intros Hc Ht.
  assert (P31 : 2 ^ 31 = 2147483648) by reflexivity.
  assert (P52 : 2 ^ 52 = 4503599627370496) by reflexivity.
  assert (P53 : 2 ^ 53 = 9007199254740992) by reflexivity.
  destruct (double_of_N_large t Ht) as (my & ey & Hy & By & Hey).
  unfold int_of_double, trunc.
  rewrite mul_spec, Prim2SF_100, div_spec, Hy.
  destruct (Z.eq_dec c 0) as [->|Hc0].
  { replace (Prim2SF (double_of_Z 0)) with (S754_zero false) by (vm_compute; reflexivity).
    reflexivity. }
  unfold double_of_Z. replace (c <? 0) with false by lia.
  destruct (double_of_N_canonical c ltac:(lia)) as (mx & a & Hx & Ha & Ex & Bx).
  rewrite Hx.
  assert (Ha22 : 22 <= a).
  { destruct (Z_le_gt_dec 22 a) as [|G]; [assumption|exfalso].
    assert (2 ^ a <= 2 ^ 21) by (apply Z.pow_le_mono_r; lia).
    change (2 ^ 21) with 2097152 in *.
    assert (c * 2 ^ a <= 2147483647 * 2 ^ a) by (apply Z.mul_le_mono_nonneg_r; lia).
    lia. }
  destruct (SFdiv_small mx my (- a) ey Bx By ltac:(lia) Hey) as (m3 & e3 & -> & B3 & He3).
  destruct (SFmul_100_rounded m3 e3 B3 ltac:(lia))
    as (m5 & e5 & m4 & k & -> & Hk & B4 & _ & _ & He5 & E4).
  assert (Pj : 0 < 2 ^ (e5 - (e3 - 46 + k))) by (apply Z.pow_pos_nonneg; lia).
  assert (B5 : Zpos m5 < 2 ^ (- e5)).
  { assert (2 ^ 54 <= 2 ^ (- e5)) by (apply Z.pow_le_mono_r; lia).
    change (2 ^ 54) with 18014398509481984 in *. nia. }
  replace (0 <=? e5) with false by lia.
  rewrite Z.div_small by lia. reflexivity.
Qed.

(** [<int>(c / t * 100)] for a counter from 0 to the total, for every
    total an [unsigned long] holds. *)
Lemma percent_floor_or_below (c t : Z) :
  0 <= c <= t -> c < 2 ^ 31 -> 0 < t < 2 ^ 64 ->
  let p := int_of_double (double_of_Z c / double_of_N t * 100) in
  100 * c / t - 1 <= p <= 100 * c / t
  /\ ((100 * c) mod t <> 0 -> p = 100 * c / t)
  /\ (c = t -> p = 100)
  /\ (c = 0 -> p = 0).
Proof.
  intros Hc Hc31 Ht p.
  assert (P31 : 2 ^ 31 = 2147483648) by reflexivity.
  assert (P53 : 2 ^ 53 = 9007199254740992) by reflexivity.
  destruct (Z_lt_ge_dec t (2 ^ 53)) as [Lt|Ge].
  - assert (Ht' : 0 < t < 2 ^ 53) by lia.
    assert (P0 : int_of_double (double_of_Z 0 / double_of_N t * 100) = 0).
    { unfold int_of_double, trunc.
      destruct (double_of_N_canonical t Ht') as (my & b & Hy & _).
      rewrite mul_spec, Prim2SF_100, div_spec, Hy.
      replace (Prim2SF (double_of_Z 0)) with (S754_zero false) by (vm_compute; reflexivity).
      reflexivity. }
    destruct (percent_of_the_total t Ht') as [P100 _].
    destruct (Z.eq_dec c t) as [->|Hne].
    { subst p. rewrite P100, Z.div_mul, Z_mod_mult by lia.
      repeat split; try lia. }
    destruct (Z.eq_dec c 0) as [->|Hc0].
    { subst p. rewrite P0. cbn [Z.mul]. rewrite Z.div_0_l, Z.mod_0_l by lia.
      repeat split; try lia. }
    destruct (percent_below_total c t ltac:(lia) Hc31 ltac:(lia)) as [R1 R2].
    fold p in R1, R2. repeat split; try tauto; lia.
  - assert (Ep : p = 0) by (apply percent_of_a_large_total; lia).
    rewrite Ep, Z.div_small by lia.
    repeat split; try lia.
Qed.

End PercentFloor.

(** ** Doubles that hold an integer exactly *)

Section ExactDoubles.

Local Open Scope Z_scope.



(** Two canonical mantissas of one value are the same. *)
Lemma canonical_unique (m m' : positive) (e e' : Z) :
  e <= e' ->
  fexp prec emax (Zpos (digits2_pos m) + e) = e ->
  fexp prec emax (Zpos (digits2_pos m') + e') = e' ->
  Zpos m = Zpos m' * 2 ^ (e' - e) ->
  m = m' /\ e = e'.
Proof.
  intros Le C C' E.
  pose proof (digits2_pos_lower m') as L'. pose proof (digits2_pos_upper m') as U'.
  assert (Pd : 0 < 2 ^ (e' - e)) by (apply Z.pow_pos_nonneg; lia).
  assert (D : Zpos (digits2_pos m) = Zpos (digits2_pos m') + (e' - e)).
  { change (Zpos (digits2_pos m)) with (Zdigits2 (Zpos m)).
    apply Zdigits2_eq; [lia|]. rewrite E.
    replace (Zpos (digits2_pos m') + (e' - e) - 1)
      with (Zpos (digits2_pos m') - 1 + (e' - e)) by lia.
    rewrite !Z.pow_add_r by lia. split.
    - apply Z.mul_le_mono_nonneg_r; lia.
    - apply Z.mul_lt_mono_pos_r; lia. }
  assert (Ee : e = e').
  { rewrite <- C, <- C'. f_equal. lia. }
  subst e'. rewrite Z.sub_diag, Z.pow_0_r, Z.mul_1_r in E.
  split; [now injection E|reflexivity].
Qed.

(** At most one double holds a given integer exactly. *)
Lemma holds_exactly_unique (n : Z) (x y : float) :
  holds_exactly n x = true -> holds_exactly n y = true -> x = y.
Proof.
  unfold holds_exactly. intros Hx Hy. apply Prim2SF_inj.
  pose proof (Prim2SF_valid x) as Vx. pose proof (Prim2SF_valid y) as Vy.
  destruct (Prim2SF x) as [sx|sx| |sx mx ex], (Prim2SF y) as [sy|sy| |sy my ey];
    try discriminate.
  - apply andb_true_iff in Hx as [Hx _], Hy as [Hy _].
    destruct sx, sy; try discriminate; reflexivity.
  - exfalso. apply andb_true_iff in Hx as [_ Hx]. apply Z.eqb_eq in Hx, Hy. subst n.
    assert (0 < 2 ^ Z.max ey 0) by (apply Z.pow_pos_nonneg; lia).
    destruct sy; nia.
  - exfalso. apply andb_true_iff in Hy as [_ Hy]. apply Z.eqb_eq in Hx, Hy. subst n.
    assert (0 < 2 ^ Z.max ex 0) by (apply Z.pow_pos_nonneg; lia).
    destruct sx; nia.
  - apply Z.eqb_eq in Hx, Hy.
    unfold valid_binary, bounded, canonical_mantissa in Vx, Vy.
    apply andb_true_iff in Vx as [Cx _], Vy as [Cy _]. apply Z.eqb_eq in Cx, Cy.
    assert (Px : 0 < 2 ^ Z.max ex 0) by (apply Z.pow_pos_nonneg; lia).
    assert (Py : 0 < 2 ^ Z.max ey 0) by (apply Z.pow_pos_nonneg; lia).
    assert (Qx : 0 < 2 ^ Z.max (- ex) 0) by (apply Z.pow_pos_nonneg; lia).
    assert (Qy : 0 < 2 ^ Z.max (- ey) 0) by (apply Z.pow_pos_nonneg; lia).
    assert (Es : sx = sy).
    { destruct sx, sy; try reflexivity; exfalso.
      - assert (n * 2 ^ Z.max (- ex) 0 < 0) by (rewrite <- Hx; nia).
        assert (0 < n * 2 ^ Z.max (- ey) 0) by (rewrite <- Hy; nia). nia.
      - assert (0 < n * 2 ^ Z.max (- ex) 0) by (rewrite <- Hx; nia).
        assert (n * 2 ^ Z.max (- ey) 0 < 0) by (rewrite <- Hy; nia). nia. }
    subst sy.
    (* the same value on both sides, without the sign *)
    assert (V : Zpos mx * 2 ^ Z.max ex 0 * 2 ^ Z.max (- ey) 0
                = Zpos my * 2 ^ Z.max ey 0 * 2 ^ Z.max (- ex) 0).
    { destruct sx.
      - assert (A : Zneg mx * 2 ^ Z.max ex 0 * 2 ^ Z.max (- ey) 0
                    = Zneg my * 2 ^ Z.max ey 0 * 2 ^ Z.max (- ex) 0)
          by (rewrite Hx, Hy; ring).
        change (Zneg mx) with (- Zpos mx) in A. change (Zneg my) with (- Zpos my) in A.
        lia.
      - rewrite Hx, Hy. ring. }
    clear Hx Hy.
    assert (Sx : forall e, 2 ^ Z.max e 0 = 2 ^ Z.max (- e) 0 * 2 ^ e \/ e < 0).
    { intros e. destruct (Z_lt_ge_dec e 0) as [|G]; [now right|left].
      rewrite (Z.max_l e 0), (Z.max_r (- e) 0) by lia. rewrite Z.pow_0_r. lia. }
    destruct (Z_le_gt_dec ex ey) as [Le|Gt].
    + destruct (canonical_unique mx my ex ey Le Cx Cy) as [-> ->]; [|reflexivity].
      assert (Pd : 0 < 2 ^ (ey - ex)) by (apply Z.pow_pos_nonneg; lia).
      apply Z.mul_reg_r with (p := 2 ^ Z.max ex 0 * 2 ^ Z.max (- ey) 0); [nia|].
      rewrite Z.mul_assoc, V.
      replace (Zpos my * 2 ^ (ey - ex) * (2 ^ Z.max ex 0 * 2 ^ Z.max (- ey) 0))
        with (Zpos my * (2 ^ (ey - ex) * 2 ^ Z.max ex 0 * 2 ^ Z.max (- ey) 0)) by ring.
      rewrite <- (Z.mul_assoc (Zpos my)). f_equal.
      rewrite <- !Z.pow_add_r by lia. f_equal. lia.
    + destruct (canonical_unique my mx ey ex ltac:(lia) Cy Cx) as [-> ->]; [|reflexivity].
      assert (Pd : 0 < 2 ^ (ex - ey)) by (apply Z.pow_pos_nonneg; lia).
      apply Z.mul_reg_r with (p := 2 ^ Z.max ey 0 * 2 ^ Z.max (- ex) 0); [nia|].
      rewrite Z.mul_assoc, <- V.
      replace (Zpos mx * 2 ^ (ex - ey) * (2 ^ Z.max ey 0 * 2 ^ Z.max (- ex) 0))
        with (Zpos mx * (2 ^ (ex - ey) * 2 ^ Z.max ey 0 * 2 ^ Z.max (- ex) 0)) by ring.
      rewrite <- !(Z.mul_assoc (Zpos mx)). f_equal.
      rewrite <- !Z.pow_add_r by lia. f_equal. lia.
Qed.

(** From 2^53 on not every integer is a double: none holds
    2^53 + 1. *)
Lemma no_double_holds_2p53_plus_1 (x : float) :
  holds_exactly (2 ^ 53 + 1) x = false.
Proof.
  unfold holds_exactly. pose proof (Prim2SF_valid x) as V.
  destruct (Prim2SF x) as [s|s| |s m e]; try reflexivity.
  - now rewrite andb_false_r.
  - apply Z.eqb_neq. intros H.
    unfold valid_binary, bounded, canonical_mantissa in V.
    apply andb_true_iff in V as [C _]. apply Z.eqb_eq in C. rewrite fexp_eq in C.
    pose proof (digits2_pos_lower m) as L. pose proof (digits2_pos_upper m) as U.
    change (2 ^ 53 + 1) with 9007199254740993 in H.
    destruct (Z_le_gt_dec e 0) as [Le|Gt].
    + rewrite (Z.max_r e 0), (Z.max_l (- e) 0) in H by lia.
      rewrite Z.pow_0_r, Z.mul_1_r in H.
      assert (Pe : 0 < 2 ^ (- e)) by (apply Z.pow_pos_nonneg; lia).
      assert (D : Zpos (digits2_pos m) <= 53) by lia.
      assert (2 ^ Zpos (digits2_pos m) <= 2 ^ 53) by (apply Z.pow_le_mono_r; lia).
      change (2 ^ 53) with 9007199254740992 in *.
      destruct s; [lia|]. nia.
    + rewrite (Z.max_l e 0), (Z.max_r (- e) 0) in H by lia.
      rewrite Z.pow_0_r, Z.mul_1_r in H.
      replace e with (1 + (e - 1)) in H by lia.
      rewrite Z.pow_add_r in H by lia. change (2 ^ 1) with 2 in H.
      destruct s; lia.
Qed.

End ExactDoubles.

(** ** One call of [SeqBar.increment] *)

Module SeqBarFacts.
Section Facts.

Import SeqBar SeqBarSteps.

Context {Item : Type}.
Variable clock : nat -> float.
Local Abbreviation bar := (SeqBar.t Item).
Implicit Types (m : machine bar) (a : Z).
Local Open Scope list_scope.

Lemma started_frame m :
  _value (self (started clock m)) = _value (self m)
  /\ num_jobs (self (started clock m)) = num_jobs (self m)
  /\ errors (self (started clock m)) = errors (self m)
  /\ progress (self (started clock m)) = progress (self m)
  /\ last_print_time (self (started clock m)) = last_print_time (self m)
  /\ print_interval (self (started clock m)) = print_interval (self m)
  /\ throughput (self (started clock m)) = throughput (self m)
  /\ stdout (started clock m) = stdout m.
Proof. unfold started. destruct (_ =? _)%float; cbn; repeat split. Qed.

(** [increment] never raises for an amount that fits [unsigned int],
    and leaves the machine [increment_result] describes. *)
Lemma increment_runs m a :
  in_uint a = true ->
  increment clock a m = (Normal tt, increment_result clock a m).
Proof.
  intros Ha.
  unfold increment, increment_result, after_error, after_final, after_throttle,
    reaches_total, throttle_open, current_time, rate, eta, elapsed, new_progress,
    new_value.
  rewrite Ha. cbn [negb].
  destruct (started_frame m) as (Hv & Hn & He & Hp & Hl & Hi & Ht & Ho).
  revert Hv Hn He Hp Hl Hi Ht Ho.
  unfold started, increment_try, try_except, bind, when, get, modify, emit, ret,
    truediv, raise, time_time.
  cbn [self ticks stdout].
  destruct (start_time (self m) =? 0)%float; cbn [self ticks stdout];
    intros Hv Hn He Hp Hl Hi Ht Ho; cbn.
  all: destruct (num_jobs (self m) =? 0) eqn:En; cbn; [reflexivity|].
  all: destruct (print_interval (self m) <? _)%float eqn:Et; cbn.
  all: try (destruct (0 <? to_int (_value (self m) + a)) eqn:Ev; cbn;
            [ replace (to_int (_value (self m) + a) =? 0) with false by lia; cbn | ]).
  all: try (destruct (0 <? _ - _)%float eqn:Ee; cbn;
            [ rewrite (ltb_neq _ _ Ee); cbn | ]).
  all: destruct (to_ulong (to_int (_value (self m) + a)) =? num_jobs (self m));
    reflexivity.
Qed.

(** What [increment] never touches, and the counter it leaves. *)
Lemma increment_result_frame m a :
  _value (self (increment_result clock a m)) = new_value a m
  /\ num_jobs (self (increment_result clock a m)) = num_jobs (self m)
  /\ _index (self (increment_result clock a m)) = _index (self m)
  /\ sequence (self (increment_result clock a m)) = sequence (self m)
  /\ print_interval (self (increment_result clock a m)) = print_interval (self m)
  /\ print_on_exit (self (increment_result clock a m)) = print_on_exit (self m)
  /\ end_time (self (increment_result clock a m)) = end_time (self m)
  /\ title (self (increment_result clock a m)) = title (self m).
Proof.
  unfold increment_result, after_error, after_final, after_throttle, started.
  destruct (num_jobs (self m) =? 0), (reaches_total a m), (throttle_open clock m),
    (start_time (self m) =? 0)%float; cbn; repeat split.
Qed.

(** *** C10 *)

(** C10.  With [num_jobs == 0] the [try] block raises
    [ZeroDivisionError] after [self._value += increment] has run: the
    machine the exception leaves already holds the new counter and the
    old percent, and the handler of [increment] only counts the error.
    The call returns normally with the counter increased by the
    amount, and with percent and throughput as they were. *)
Theorem increment_counts_before_division_fails m a :
  in_uint a = true ->
  in_int (_value (self m) + a) = true ->
  num_jobs (self m) = 0 ->
  exists mid m',
    increment_try clock a (started clock m) = (Raised ZeroDivisionError, mid)
    /\ _value (self mid) = _value (self m) + a
    /\ progress (self mid) = progress (self m)
    /\ errors (self mid) = errors (self m)
    /\ increment clock a m = (Normal tt, m')
    /\ _value (self m') = _value (self m) + a
    /\ progress (self m') = progress (self m)
    /\ throughput (self m') = throughput (self m)
    /\ errors (self m') = to_int (errors (self m) + 1).
Proof.
  intros Ha Hv Hn.
  destruct (started_frame m) as (Sv & Sn & Se & Sp & Sl & Si & St & So).
  eexists. eexists. split.
  { unfold increment_try, bind, get, modify, truediv, raise.
    cbn. rewrite Sn, Hn. cbn. reflexivity. }
  cbn [self _value set__value progress errors].
  rewrite Sv, Sp, Se, (to_int_id _ Hv).
  split; [reflexivity|]. split; [reflexivity|]. split; [reflexivity|].
  rewrite (increment_runs m a Ha). split; [reflexivity|].
  unfold increment_result. rewrite Hn. cbn.
  unfold new_value. rewrite Sp, St, (to_int_id _ Hv). repeat split.
Qed.

(** *** C4 *)

(** C4 (amended).  With [num_jobs == 0] a call of [increment] (amount
    within [unsigned int]) returns normally: the division failure is
    caught inside.  [errors] grows by exactly one (the counter is an
    [int]; the statement covers every value below [INT_MAX]), and the
    percent, the throughput, the elapsed time, the time of the last
    repaint and standard output are as before the call. *)
Theorem increment_zero_total_counts_one_error m a :
  in_uint a = true ->
  num_jobs (self m) = 0 ->
  in_int (errors (self m) + 1) = true ->
  exists m',
    increment clock a m = (Normal tt, m')
    /\ errors (self m') = errors (self m) + 1
    /\ progress (self m') = progress (self m)
    /\ throughput (self m') = throughput (self m)
    /\ execution_time (self m') = execution_time (self m)
    /\ last_print_time (self m') = last_print_time (self m)
    /\ stdout m' = stdout m.
Proof.
  intros Ha Hn He.
  exists (increment_result clock a m). split; [now apply increment_runs|].
  unfold increment_result, after_error. rewrite Hn. cbn.
  rewrite (to_int_id _ He).
  unfold started. destruct (start_time (self m) =? 0)%float; cbn; repeat split.
Qed.

(** X1.  [increment] returns normally from every state, for every
    amount that fits [unsigned int]: the only division that can fail is
    caught, and the two guarded divisions never fail. *)
Lemma increment_never_raises m a :
  in_uint a = true -> exists m', increment clock a m = (Normal tt, m').
Proof. intros Ha. eexists. now apply increment_runs. Qed.

(** *** The other methods *)

Lemma seq_complete_runs m :
  complete m
  = (Normal tt,
     Machine (self m) (ticks m)
       ((stdout m ++ [stdout_write CompleteLine complete_text]) ++ [stdout_flush])).
Proof. reflexivity. Qed.

Lemma seq_enter_runs m :
  __enter__ clock m
  = (Normal tt,
     Machine (set_start_time (clock (ticks m)) (self m)) (S (ticks m)) (stdout m)).
Proof. reflexivity. Qed.

Lemma seq_exit_runs m exc :
  __exit__ clock exc m
  = (Normal (match exc with Some _ => true | None => false end),
     Machine (set_execution_time (clock (ticks m) - start_time (self m))
                (set_end_time (clock (ticks m)) (self m)))
             (S (ticks m))
             (if print_on_exit (self m)
              then stdout m
                     ++ [print SummaryLine
                           (summary_text
                              (duration_text (clock (ticks m) - start_time (self m))))]
              else stdout m)).
Proof.
  unfold __exit__, __str__, bind, when, get, modify, emit, ret, time_time. cbn.
  destruct (print_on_exit (self m)); reflexivity.
Qed.

Lemma init_value m jobs t' p i m1 :
  __init__ clock jobs t' p i m = (Normal tt, m1) ->
  _value (self m1) = 0 /\ errors (self m1) = 0 /\ progress (self m1) = 0
  /\ _index (self m1) = 0.
Proof.
  unfold __init__, bind, when, get, modify, emit, ret, raise, time_time.
  destruct jobs as [n|items|items|]; cbn; try discriminate.
  all: match goal with |- context [in_ulong ?n] => destruct (in_ulong n) end;
    cbn; try discriminate.
  all: match goal with |- context [String.eqb ?a ?b] => destruct (String.eqb a b) end; cbn.
  all: match goal with |- context [?a =? to_ulong (-1)] => destruct (a =? to_ulong (-1)) end;
    cbn.
  all: intros H; injection H as <-; cbn; repeat split.
Qed.

(** X6.  [complete] writes the bar at 100% and changes no field. *)
Lemma seq_complete_changes_no_field m :
  fst (complete m) = Normal tt
  /\ self (snd (complete m)) = self m
  /\ stdout (snd (complete m))
     = stdout m ++ [stdout_write CompleteLine complete_text; stdout_flush].
Proof. rewrite seq_complete_runs. cbn. now rewrite <- app_assoc. Qed.

(** *** C8 *)

Lemma increment_keeps_errors m a :
  num_jobs (self m) <> 0 ->
  errors (self (increment_result clock a m)) = errors (self m).
Proof.
  intros Hn. unfold increment_result.
  replace (num_jobs (self m) =? 0) with false by lia.
  unfold after_final, after_throttle, started.
  destruct (reaches_total a m), (throttle_open clock m),
    (start_time (self m) =? 0)%float; reflexivity.
Qed.

Lemma init_sequence m items t' p i :
  in_ulong (Z.of_nat (List.length items)) = true ->
  exists m1,
    __init__ clock (JobsSequence items) t' p i m = (Normal tt, m1)
    /\ num_jobs (self m1) = Z.of_nat (List.length items)
    /\ sequence (self m1) = Some items.
Proof.
  intros Hn.
  unfold __init__, bind, when, get, modify, emit, ret, raise, time_time.
  cbn. rewrite Hn. cbn.
  destruct (String.eqb _ _); cbn;
    (destruct (_ =? to_ulong (-1)); cbn; eexists; repeat split).
Qed.

(** A pull below the end of the sequence yields the item under the
    cursor and leaves the machine one call [increment(1)] leaves from
    the machine with the cursor advanced. *)
Lemma next_yields m items i item :
  sequence (self m) = Some items ->
  _index (self m) = Z.of_nat i ->
  nth_error items i = Some item ->
  __next__ clock m = (Normal item, increment_result clock 1 (cursor_advanced m)).
Proof.
  intros Hs Hi Hn.
  assert (Hlt : (i < List.length items)%nat)
    by (apply nth_error_Some; congruence).
  unfold __next__, bind, get. cbn. rewrite Hs, Hi.
  replace (Z.of_nat i <? Z.of_nat (List.length items)) with true by lia.
  unfold getitem. replace (Z.of_nat i <? 0) with false by lia.
  replace (Z.of_nat i <? 0) with false by lia.
  rewrite Nat2Z.id, Hn. unfold modify, ret. cbn.
  rewrite <- Hi. fold (cursor_advanced m).
  now rewrite (increment_runs (cursor_advanced m) 1) by reflexivity.
Qed.

(** A pull at the end of the sequence raises [StopIteration] and
    changes nothing. *)
Lemma next_stops m items :
  sequence (self m) = Some items ->
  _index (self m) = Z.of_nat (List.length items) ->
  __next__ clock m = (Raised StopIteration, m).
Proof.
  intros Hs Hi. unfold __next__, bind, get. cbn. rewrite Hs, Hi.
  now rewrite Z.ltb_irrefl.
Qed.

Lemma pulls_rest (rest done : list Item) m :
  sequence (self m) = Some (done ++ rest) ->
  _index (self m) = Z.of_nat (List.length done) ->
  Z.of_nat (List.length (done ++ rest)) <= INT_MAX ->
  num_jobs (self m) = Z.of_nat (List.length (done ++ rest)) ->
  INT_MIN <= _value (self m) ->
  _value (self m) + Z.of_nat (List.length rest) <= INT_MAX ->
  exists m',
    pulls clock (List.length rest) m = (Normal rest, m')
    /\ sequence (self m') = Some (done ++ rest)
    /\ _index (self m') = Z.of_nat (List.length (done ++ rest))
    /\ _value (self m') = _value (self m) + Z.of_nat (List.length rest)
    /\ errors (self m') = errors (self m).
Proof.
  revert done m. induction rest as [|x rest IH]; intros done m Hs Hi Hlen Hn Hlo Hhi.
  - exists m. cbn. rewrite app_nil_r in *. rewrite Z.add_0_r.
    repeat split; assumption.
  - assert (Hx : nth_error (done ++ x :: rest) (List.length done) = Some x).
    { rewrite nth_error_app2 by lia. now rewrite Nat.sub_diag. }
    cbn [pulls List.length]. unfold bind at 1.
    rewrite (next_yields m _ _ _ Hs Hi Hx).
    set (m1 := increment_result clock 1 (cursor_advanced m)).
    destruct (increment_result_frame (cursor_advanced m) 1)
      as (Fv & Fn & Fi & Fs & _).
    fold m1 in Fv, Fn, Fi, Fs. cbn in Fn, Fi, Fs.
    unfold new_value in Fv. cbn in Fv.
    rewrite length_app in Hlen. cbn [List.length] in Hlen, Hhi.
    assert (Hi1 : _index (self m1) = Z.of_nat (List.length (done ++ [x]))).
    { rewrite Fi, Hi, length_app. cbn [List.length].
      rewrite to_int_id; [lia|].
      unfold in_int, INT_MIN, INT_MAX in *. lia. }
    assert (Hv1 : _value (self m1) = _value (self m) + 1).
    { rewrite Fv. apply to_int_id. unfold in_int, INT_MIN, INT_MAX in *. lia. }
    assert (He1 : errors (self m1) = errors (self m)).
    { unfold m1. rewrite increment_keeps_errors; [reflexivity|].
      cbn. rewrite Hn, length_app. cbn [List.length]. lia. }
    destruct (IH (done ++ [x]) m1) as (m' & Hp & Hs' & Hi' & Hv' & He').
    + rewrite Fs, Hs. now rewrite <- app_assoc.
    + exact Hi1.
    + rewrite <- app_assoc, length_app. cbn [List.length app]. lia.
    + rewrite Fn, Hn. now rewrite <- app_assoc.
    + lia.
    + lia.
    + exists m'. unfold bind. rewrite Hp. unfold ret.
      rewrite <- app_assoc in Hs', Hi'. cbn [app] in Hs', Hi'.
      repeat split; try assumption; [lia|congruence].
Qed.

(** C8.  Built from a sequence of [n] items the bar has
    [num_jobs = n].  A pull with the cursor on item [i] returns that
    item and leaves the machine that one call [increment(1)] leaves
    from the machine with the cursor advanced, so the cursor and the
    counter are each one higher.  [n] pulls in a row return the items
    in order and leave counter and cursor at [n] with no error
    counted; the next pull raises [StopIteration] and changes
    nothing. *)
Theorem iterating_a_sequence (items : list Item) t' p i m0 :
  Z.of_nat (List.length items) <= INT_MAX ->
  exists m1 m2,
    __init__ clock (JobsSequence items) t' p i m0 = (Normal tt, m1)
    /\ num_jobs (self m1) = Z.of_nat (List.length items)
    /\ (forall m k item,
          sequence (self m) = Some items ->
          _index (self m) = Z.of_nat k ->
          nth_error items k = Some item ->
          __next__ clock m = (Normal item, snd (increment clock 1 (cursor_advanced m)))
          /\ fst (increment clock 1 (cursor_advanced m)) = Normal tt
          /\ _index (self (snd (increment clock 1 (cursor_advanced m))))
             = Z.of_nat k + 1
          /\ _value (self (snd (increment clock 1 (cursor_advanced m))))
             = to_int (_value (self m) + 1))
    /\ pulls clock (List.length items) m1 = (Normal items, m2)
    /\ _value (self m2) = Z.of_nat (List.length items)
    /\ _index (self m2) = Z.of_nat (List.length items)
    /\ errors (self m2) = 0
    /\ __next__ clock m2 = (Raised StopIteration, m2).
Proof.
  intros Hlen.
  assert (Hul : in_ulong (Z.of_nat (List.length items)) = true).
  { unfold in_ulong, ULONG_MAX, INT_MAX in *. lia. }
  destruct (init_sequence m0 items t' p i Hul) as (m1 & Hinit & Hn & Hs).
  destruct (init_value _ _ _ _ _ _ Hinit) as (Hv & He & _ & Hi).
  destruct (pulls_rest items [] m1) as (m2 & Hp & Hs2 & Hi2 & Hv2 & He2);
    cbn [app List.length]; try assumption.
  { rewrite Hv. unfold INT_MIN. lia. }
  { rewrite Hv. lia. }
  cbn [app] in Hs2, Hi2.
  exists m1, m2. split; [exact Hinit|]. split; [exact Hn|]. split.
  { intros m k item Hsm Hk Hnth.
    rewrite (increment_runs (cursor_advanced m) 1) by reflexivity. cbn [fst snd].
    split; [now apply (next_yields m items k item)|]. split; [reflexivity|].
    destruct (increment_result_frame (cursor_advanced m) 1) as (Fv & _ & Fi & _).
    rewrite Fv, Fi. cbn. split; [|reflexivity].
    rewrite Hk. apply to_int_id.
    assert ((k < List.length items)%nat) by (apply nth_error_Some; congruence).
    unfold in_int, INT_MIN, INT_MAX in *. lia. }
  split; [exact Hp|]. split; [lia|]. split; [exact Hi2|].
  split; [congruence|]. now apply (next_stops m2 items).
Qed.

(** *** Throttling (the sequence-aware half of C5) *)

(** A call writes one status line when the total is not zero and the
    throttle test passes, and none otherwise. *)
Lemma status_lines_of_a_call m a :
  count_site StatusLine (stdout (increment_result clock a m))
  = (count_site StatusLine (stdout m)
     + (if negb (num_jobs (self m) =? 0)%Z && throttle_open clock m then 1 else 0))%nat.
Proof.
  destruct (started_frame m) as (_ & _ & _ & _ & _ & _ & _ & So).
  unfold increment_result, after_error, after_final, after_throttle.
  destruct (num_jobs (self m) =? 0); cbn [negb andb self ticks stdout].
  - rewrite So. lia.
  - destruct (reaches_total a m), (throttle_open clock m); cbn [self ticks stdout];
      rewrite ?count_site_app, So; cbn; lia.
Qed.

Lemma repaint_sets_last_print_time m a :
  num_jobs (self m) <> 0 ->
  throttle_open clock m = true ->
  last_print_time (self (increment_result clock a m)) = current_time clock m.
Proof.
  intros Hn Ht. unfold increment_result, after_final, after_throttle.
  replace (num_jobs (self m) =? 0) with false by lia. rewrite Ht.
  destruct (reaches_total a m); reflexivity.
Qed.

(** X2.  Two calls in a row whose readings [current_time] are less
    than [print_interval] apart write at most one status line between
    them, whatever the state before. *)
Lemma two_close_calls_one_status_line m a1 a2 :
  in_uint a1 = true ->
  in_uint a2 = true ->
  (current_time clock (snd (increment clock a1 m)) - current_time clock m
   <? print_interval (self m))%float = true ->
  (count_site StatusLine (stdout (snd (increment clock a2 (snd (increment clock a1 m)))))
   <= count_site StatusLine (stdout m) + 1)%nat.
Proof.
  intros H1 H2. rewrite (increment_runs m a1 H1). cbn [snd].
  rewrite (increment_runs _ a2 H2). cbn [snd]. intros Hclose.
  rewrite !status_lines_of_a_call.
  destruct (increment_result_frame m a1) as (_ & Fn & _ & _ & Fi & _).
  destruct (num_jobs (self m) =? 0) eqn:En; cbn [negb andb].
  { destruct (_ && _); lia. }
  destruct (throttle_open clock m) eqn:Et.
  - assert (Hn : num_jobs (self m) <> 0) by lia.
    unfold throttle_open at 1.
    rewrite (repaint_sets_last_print_time m a1 Hn Et), Fi.
    rewrite (ltb_asym _ _ Hclose), andb_false_r. lia.
  - destruct (_ && _); lia.
Qed.

(** X3.  A call that brings the counter to a total that is not zero
    writes the final line, whether or not the throttle test passes. *)
Lemma reaching_total_writes_final_line m a :
  in_uint a = true ->
  num_jobs (self m) <> 0 ->
  to_ulong (to_int (_value (self m) + a)) = num_jobs (self m) ->
  exists m',
    increment clock a m = (Normal tt, m')
    /\ count_site FinalLine (stdout m') = S (count_site FinalLine (stdout m)).
Proof.
  intros Ha Hn Hr.
  exists (increment_result clock a m). split; [now apply increment_runs|].
  destruct (started_frame m) as (_ & _ & _ & _ & _ & _ & _ & So).
  unfold increment_result, after_final, reaches_total, new_value, after_throttle.
  replace (num_jobs (self m) =? 0) with false by lia.
  rewrite Hr, Z.eqb_refl.
  destruct (throttle_open clock m); cbn [self ticks stdout];
    rewrite !count_site_app, So; cbn; lia.
Qed.

(** *** The fields stay within their C types *)

Lemma well_typed_fields (b : bar) :
  seq_well_typed b = true
  <-> in_ulong (num_jobs b) = true /\ in_int (_value b) = true
      /\ in_int (progress b) = true /\ in_int (errors b) = true
      /\ in_int (_index b) = true.
Proof.
  unfold seq_well_typed. rewrite !andb_true_iff. tauto.
Qed.

Lemma increment_result_well_typed m a :
  seq_well_typed (self m) = true ->
  seq_well_typed (self (increment_result clock a m)) = true.
Proof.
  rewrite !well_typed_fields. intros (Hn & Hv & Hp & He & Hi).
  destruct (started_frame m) as (Sv & Sn & Se & Sp & _).
  assert (Si : _index (self (started clock m)) = _index (self m)).
  { unfold started. destruct (_ =? _)%float; reflexivity. }
  unfold increment_result, after_error, after_final, after_throttle.
  destruct (num_jobs (self m) =? 0), (reaches_total a m), (throttle_open clock m);
    cbn; rewrite ?Sn, ?Sp, ?Si, ?Se; unfold new_progress, new_value;
    repeat split; try assumption;
    first [apply to_int_range | apply int_of_double_range].
Qed.

(** X8.  Every method keeps the integer fields within their C types,
    whatever its arguments and whether it returns or raises: the
    counter, the percent, the error count and the cursor stay [int]s and
    the total stays an [unsigned long]. *)
Lemma methods_keep_fields_typed m a v exc :
  seq_well_typed (self m) = true ->
  seq_well_typed (self (snd (increment clock a m))) = true
  /\ seq_well_typed (self (snd (set_value v m))) = true
  /\ seq_well_typed (self (snd (complete m))) = true
  /\ seq_well_typed (self (snd (__enter__ clock m))) = true
  /\ seq_well_typed (self (snd (__exit__ clock exc m))) = true
  /\ seq_well_typed (self (snd (__next__ clock m))) = true.
Proof.
  intros Hw. pose proof Hw as Hw'.
  apply well_typed_fields in Hw' as (Hn & Hv & Hp & He & Hi).
  split; [|split; [|split; [|split; [|split]]]].
  - destruct (in_uint a) eqn:Ha.
    + rewrite (increment_runs m a Ha). now apply increment_result_well_typed.
    + unfold increment. rewrite Ha. exact Hw.
  - unfold set_value. destruct (in_int v) eqn:E; [|exact Hw].
    cbn. apply well_typed_fields. cbn. auto.
  - rewrite seq_complete_runs. exact Hw.
  - rewrite seq_enter_runs. cbn. apply well_typed_fields. cbn. auto.
  - rewrite seq_exit_runs. cbn. apply well_typed_fields. cbn. auto.
  - unfold __next__, bind, get, modify, ret, raise. cbn.
    destruct (sequence (self m)) as [items|]; [|exact Hw].
    destruct (_index (self m) <? Z.of_nat (List.length items)); [|exact Hw].
    destruct (getitem items (_index (self m))); [|exact Hw]. cbn.
    fold (cursor_advanced m).
    rewrite (increment_runs (cursor_advanced m) 1) by reflexivity. cbn.
    apply increment_result_well_typed. apply well_typed_fields. cbn.
    repeat split; try assumption. apply to_int_range.
Qed.

(** *** The total is fixed after construction *)

(** X9.  No method called after construction changes [num_jobs],
    whatever its arguments and whether it returns or raises. *)
Lemma total_is_fixed m a v exc :
  num_jobs (self (snd (increment clock a m))) = num_jobs (self m)
  /\ num_jobs (self (snd (set_value v m))) = num_jobs (self m)
  /\ num_jobs (self (snd (complete m))) = num_jobs (self m)
  /\ num_jobs (self (snd (__enter__ clock m))) = num_jobs (self m)
  /\ num_jobs (self (snd (__exit__ clock exc m))) = num_jobs (self m)
  /\ num_jobs (self (snd (__next__ clock m))) = num_jobs (self m).
Proof.
  split; [|split; [|split; [|split; [|split]]]].
  - destruct (in_uint a) eqn:Ha.
    + rewrite (increment_runs m a Ha).
      now destruct (increment_result_frame m a) as (_ & Fn & _).
    + unfold increment. now rewrite Ha.
  - unfold set_value. now destruct (in_int v).
  - now rewrite seq_complete_runs.
  - now rewrite seq_enter_runs.
  - now rewrite seq_exit_runs.
  - unfold __next__, bind, get, modify, ret, raise. cbn.
    destruct (sequence (self m)) as [items|]; [|reflexivity].
    destruct (_index (self m) <? Z.of_nat (List.length items)); [|reflexivity].
    destruct (getitem items (_index (self m))); [|reflexivity]. cbn.
    fold (cursor_advanced m).
    rewrite (increment_runs (cursor_advanced m) 1) by reflexivity. cbn.
    now destruct (increment_result_frame (cursor_advanced m) 1) as (_ & Fn & _).
Qed.

End Facts.
End SeqBarFacts.

(** ** The sequence-aware bar at its edges *)

Module SeqBarEdges.
Section Facts.

Import SeqBar SeqBarSteps.

Context {Item : Type}.
Variable clock : nat -> float.
Local Abbreviation bar := (SeqBar.t Item).
Implicit Types (m : machine bar) (a : Z).
Local Open Scope list_scope.

(** X10.  The call that brings the counter to the total stores a percent of
    exactly 100 and writes the final line with the bar drawn in
    full. *)
Lemma reaching_total_stores_100 m a :
  in_uint a = true ->
  0 < to_int (_value (self m) + a) ->
  to_ulong (to_int (_value (self m) + a)) = num_jobs (self m) ->
  exists m',
    increment clock a m = (Normal tt, m')
    /\ _value (self m') = num_jobs (self m)
    /\ progress (self m') = 100
    /\ errors (self m') = errors (self m)
    /\ In (stdout_write FinalLine (final_text (throughput (self m')) 100)) (stdout m')
    /\ bar_glyph 100 = str_repeat "=" 50.
Proof.
  intros Ha Hv Hr.
  pose proof (to_int_range (_value (self m) + a)) as R.
  set (v := to_int (_value (self m) + a)) in *.
  assert (Hvn : num_jobs (self m) = v).
  { rewrite <- Hr. apply to_ulong_id.
    unfold in_int, in_ulong, INT_MIN, INT_MAX, ULONG_MAX in *.
    apply andb_true_iff. apply andb_true_iff in R. lia. }
  assert (Hp : new_progress a m = 100).
  { unfold new_progress, new_value. fold v. rewrite Hvn.
    apply percent_of_the_total.
    unfold in_int, INT_MIN, INT_MAX in R. apply andb_true_iff in R. lia. }
  exists (increment_result clock a m). split; [now apply SeqBarFacts.increment_runs|].
  destruct (SeqBarFacts.increment_result_frame clock m a) as (Fv & _).
  rewrite Fv. unfold new_value. fold v.
  split; [now rewrite Hvn|].
  assert (Hn : num_jobs (self m) <> 0) by lia.
  rewrite (SeqBarFacts.increment_keeps_errors clock m a Hn).
  unfold increment_result. replace (num_jobs (self m) =? 0) with false by lia.
  unfold after_final, reaches_total, new_value. fold v. rewrite Hr, Z.eqb_refl.
  cbn [self stdout]. rewrite Hp.
  split; [|split; [reflexivity|split; [|vm_compute; reflexivity]]].
  - unfold after_throttle. rewrite Hp. destruct (throttle_open clock m); reflexivity.
  - rewrite !in_app_iff. cbn [In]. auto.
Qed.

(** X11.  A bar built from a count wraps no sequence: pulling from it
    raises [TypeError] and changes nothing. *)
Lemma pulling_from_a_count_raises (n : Z) t' p i m0 m1 :
  sequence (self m0) = None ->
  __init__ clock (JobsInt n) t' p i m0 = (Normal tt, m1) ->
  __next__ clock m1 = (Raised TypeError, m1).
Proof.
  intros Hs.
  unfold __init__, bind, when, get, modify, emit, ret, raise, time_time. cbn.
  destruct (in_ulong n); cbn; [|discriminate].
  destruct (String.eqb _ _); cbn;
    (destruct (n =? to_ulong (-1)); cbn; intros H; injection H as <-;
     unfold __next__, bind, get; cbn; now rewrite Hs).
Qed.

(** X12.  A one-shot iterator is spent by the first [list(jobs)]: the total
    is the number of its items, the stored sequence is empty, and the
    first pull already raises [StopIteration]. *)
Lemma spent_iterator_yields_nothing (items : list Item) t' p i m0 :
  in_ulong (Z.of_nat (List.length items)) = true ->
  exists m1,
    __init__ clock (JobsIterator items) t' p i m0 = (Normal tt, m1)
    /\ num_jobs (self m1) = Z.of_nat (List.length items)
    /\ sequence (self m1) = Some []
    /\ __next__ clock m1 = (Raised StopIteration, m1).
Proof.
  intros Hn.
  unfold __init__, bind, when, get, modify, emit, ret, raise, time_time.
  cbn. rewrite Hn. cbn.
  destruct (String.eqb _ _); cbn;
    (destruct (_ =? to_ulong (-1)); cbn; eexists; repeat split).
Qed.

(** X13.  The constructor rejects an argument that is neither an [int] nor
    iterable with [TypeError], and an [int] outside [unsigned long]
    (any negative count) with [OverflowError]; in both cases before it
    reads the clock or writes anything. *)
Lemma constructor_rejects (jobs : jobs_arg Item) t' p i m :
  match jobs with
  | JobsOther => True
  | JobsInt n => in_ulong n = false
  | _ => False
  end ->
  exists m',
    __init__ clock jobs t' p i m
    = (Raised (match jobs with JobsOther => TypeError | _ => OverflowError end), m')
    /\ stdout m' = stdout m
    /\ ticks m' = ticks m.
Proof.
  unfold __init__, bind, when, get, modify, emit, ret, raise, time_time.
  destruct jobs as [n|items|items|]; cbn; intros H; try contradiction.
  - rewrite H. cbn. eexists. repeat split.
  - eexists. repeat split.
Qed.

(** X14.  With a total of zero every call of a run counts one error: the
    counter moves by the sum of the amounts, the error count by the
    number of calls (both in [int] arithmetic), the percent stays and
    nothing is written. *)
Lemma zero_total_counts_every_call (amounts : list Z) :
  forall m,
    Forall (fun a => in_uint a = true) amounts ->
    seq_well_typed (self m) = true ->
    num_jobs (self m) = 0 ->
    exists m',
      increments (increment clock) amounts m = (Normal tt, m')
      /\ _value (self m') = to_int (_value (self m) + total_of amounts)
      /\ errors (self m') = to_int (errors (self m) + Z.of_nat (List.length amounts))
      /\ num_jobs (self m') = 0
      /\ progress (self m') = progress (self m)
      /\ stdout m' = stdout m.
Proof.
  induction amounts as [|a rest IH]; intros m Ha Hw Hn.
  - exists m. cbn. rewrite !Z.add_0_r.
    apply SeqBarFacts.well_typed_fields in Hw as (_ & Hv & _ & He & _).
    rewrite !to_int_id by assumption. repeat split. exact Hn.
  - inversion Ha as [|a' rest' Ha1 Ha2]; subst.
    cbn [increments]. unfold bind at 1.
    rewrite (SeqBarFacts.increment_runs clock m a Ha1).
    set (m1 := increment_result clock a m).
    assert (H1 : _value (self m1) = to_int (_value (self m) + a)
                 /\ errors (self m1) = to_int (errors (self m) + 1)
                 /\ num_jobs (self m1) = 0
                 /\ progress (self m1) = progress (self m)
                 /\ stdout m1 = stdout m).
    { subst m1. unfold increment_result, after_error, new_value. rewrite Hn. cbn.
      unfold started. destruct (start_time (self m) =? 0)%float; cbn; repeat split;
        assumption. }
    destruct H1 as (Hv1 & He1 & Hn1 & Hp1 & Ho1).
    destruct (IH m1 Ha2) as (m' & Hr & Rv & Re & Rn & Rp & Ro).
    { subst m1. now apply SeqBarFacts.increment_result_well_typed. }
    { exact Hn1. }
    exists m'. split; [exact Hr|].
    rewrite Rv, Re, Rp, Ro, Hv1, He1, Hp1, Ho1, !to_int_add_l.
    cbn [total_of fold_right List.length]. fold (total_of rest).
    repeat split; try assumption; f_equal; lia.
Qed.

(** X28.  While the counter stays between 0 and the total (a total
    below 2^53), the percent a call stores is between 0 and 100 and the
    bar drawn from it has half as many characters, at most 50. *)
Lemma percent_stays_within_0_100 m a :
  in_uint a = true ->
  0 <= to_int (_value (self m) + a) <= num_jobs (self m) ->
  0 < num_jobs (self m) < 2 ^ 53 ->
  exists m',
    increment clock a m = (Normal tt, m')
    /\ 0 <= progress (self m') <= 100
    /\ String.length (bar_glyph (progress (self m'))) = Z.to_nat (progress (self m') / 2)
    /\ (String.length (bar_glyph (progress (self m'))) <= 50)%nat.
Proof.
  intros Ha Hv Hn.
  exists (increment_result clock a m). split; [now apply SeqBarFacts.increment_runs|].
  assert (Hp : progress (self (increment_result clock a m)) = new_progress a m).
  { unfold increment_result. replace (num_jobs (self m) =? 0) with false by lia.
    unfold after_final, after_throttle.
    destruct (reaches_total a m), (throttle_open clock m); reflexivity. }
  rewrite Hp.
  assert (R : 0 <= new_progress a m <= 100)
    by (unfold new_progress, new_value; now apply percent_within_0_100).
  split; [exact R|]. now apply bar_glyph_length.
Qed.

End Facts.
End SeqBarEdges.

(** ** The sequence-aware bar while the counter is within the total *)

Module SeqBarWithinTotal.
Section Facts.

Import SeqBar SeqBarSteps.

Context {Item : Type}.
Variable clock : nat -> float.
Local Abbreviation bar := (SeqBar.t Item).
Implicit Types (m : machine bar) (a : Z).
Local Open Scope list_scope.

(** *** C6 *)

(** C6 (amended).  For a total above zero and a counter that the
    addition leaves between 0 and the total, [increment] returns
    normally and the stored percent is the floor of the exact
    [100 * completed / total], or one below that floor.  It is the
    floor whenever [100 * completed] is not a multiple of the total,
    and also at the two ends: 100 at the total and 0 at zero.  The
    floor is the integer quotient [100 * completed / total], taken in
    exact arithmetic; the total is any value an [unsigned long] holds
    and the counter any value an [int] holds. *)
Theorem percent_is_floor_or_one_below m a :
  in_uint a = true ->
  in_int (_value (self m) + a) = true ->
  in_ulong (num_jobs (self m)) = true ->
  0 < num_jobs (self m) ->
  0 <= _value (self m) + a <= num_jobs (self m) ->
  exists m',
    increment clock a m = (Normal tt, m')
    /\ let completed := _value (self m') in
       let total := num_jobs (self m') in
       completed = _value (self m) + a
       /\ total = num_jobs (self m)
       /\ 100 * completed / total - 1 <= progress (self m') <= 100 * completed / total
       /\ ((100 * completed) mod total <> 0
           -> progress (self m') = 100 * completed / total)
       /\ (completed = total -> progress (self m') = 100)
       /\ (completed = 0 -> progress (self m') = 0).
Proof.
  intros Ha Hi Hu Hn Hv.
  exists (increment_result clock a m).
  split; [now apply SeqBarFacts.increment_runs|].
  destruct (SeqBarFacts.increment_result_frame clock m a) as (Fv & Fn & _).
  assert (Hp : progress (self (increment_result clock a m)) = new_progress a m).
  { unfold increment_result. replace (num_jobs (self m) =? 0) with false by lia.
    unfold after_final, after_throttle.
    destruct (reaches_total a m), (throttle_open clock m); reflexivity. }
  cbv zeta. rewrite Hp, Fv, Fn. unfold new_progress, new_value.
  rewrite (to_int_id _ Hi).
  split; [reflexivity|]. split; [reflexivity|].
  apply percent_floor_or_below; [exact Hv| |].
  - unfold in_int, INT_MIN, INT_MAX in Hi. apply andb_true_iff in Hi.
    change (2 ^ 31) with 2147483648. lia.
  - unfold in_ulong, ULONG_MAX in Hu. apply andb_true_iff in Hu.
    change (2 ^ 64) with 18446744073709551616. lia.
Qed.

(** *** C7 *)


End Facts.
End SeqBarWithinTotal.

(** ** The integer-only bar *)

Module IntBarFacts.
Section Facts.

Import IntBar IntBarSteps.

Variable clock : nat -> float.
Implicit Types (m : machine IntBar.t).
Local Open Scope list_scope.

Lemma int_complete_runs m :
  complete m
  = (Normal tt,
     Machine (set_progress (num_jobs (self m)) (set__value (num_jobs (self m)) (self m)))
             (ticks m) (stdout m ++ complete_output m)).
Proof.
  unfold complete, update, __str__, complete_output, bind, when, get, modify, emit, ret.
  cbn. destruct (print_on_exit (self m)); cbn; rewrite <- ?app_assoc; reflexivity.
Qed.

(** X4.  [complete] forces the counter to the total and writes the bar
    at 100%; [update] stores the counter, not 100, in [progress]. *)
Lemma complete_forces_total m :
  exists m',
    complete m = (Normal tt, m')
    /\ _value (self m') = num_jobs (self m)
    /\ num_jobs (self m') = num_jobs (self m)
    /\ progress (self m') = num_jobs (self m)
    /\ count_site CompleteLine (stdout m') = S (count_site CompleteLine (stdout m)).
Proof.
  eexists. split; [apply int_complete_runs|].
  cbn [self stdout _value num_jobs progress set_progress set__value]. repeat split.
  rewrite count_site_app. unfold complete_output.
  destruct (print_on_exit (self m)); cbn; lia.
Qed.

(** X5.  A second [complete] leaves every field as the first left
    it. *)
Lemma complete_twice m :
  self (snd (complete (snd (complete m)))) = self (snd (complete m)).
Proof. rewrite !int_complete_runs. reflexivity. Qed.

Lemma int_exit_runs m exc :
  __exit__ clock exc m
  = (Normal (is_some exc),
     let b := set_execution_time (clock (ticks m) - start_time (self m))
                (set_end_time (clock (ticks m)) (self m)) in
     Machine (set_progress (num_jobs b) (set__value (num_jobs b) b))
             (S (ticks m))
             (stdout m ++ complete_output (Machine b (S (ticks m)) (stdout m)))).
Proof.
  unfold __exit__, bind, time_time, modify, get, ret. cbn.
  rewrite int_complete_runs. destruct exc; reflexivity.
Qed.

(** X7.  A call made inside the throttle interval, on a started bar
    with a total that is not zero, writes nothing unless the new percent
    equals the total: it only stores the new counter and percent.  That
    the counter reaches the total plays no part. *)
Lemma silent_inside_throttle m a :
  in_ushort a = true ->
  (start_time (self m) =? 0)%float = false ->
  num_jobs (self m) <> 0 ->
  (print_interval (self m) <? clock (ticks m) - last_print_time (self m))%float = false ->
  int_of_double (double_of_Z (to_int (_value (self m) + a))
                 / double_of_Z (num_jobs (self m)) * 100)
  <> num_jobs (self m) ->
  increment clock a m
  = (Normal tt,
     Machine (set_progress
                (int_of_double (double_of_Z (to_int (_value (self m) + a))
                                / double_of_Z (num_jobs (self m)) * 100))
                (set__value (to_int (_value (self m) + a)) (self m)))
             (S (ticks m)) (stdout m)).
Proof.
  intros Ha Hs Hn Ht Hp.
  unfold increment. rewrite Ha. cbn [negb].
  unfold increment_try, try_except, bind, when, get, modify, ret, truediv, raise,
    time_time.
  cbn [self ticks stdout]. rewrite Hs. cbn.
  replace (num_jobs (self m) =? 0) with false by lia. cbn.
  rewrite Ht.
  match goal with |- context [?p =? num_jobs (self m)] =>
    replace (p =? num_jobs (self m)) with false by lia end.
  reflexivity.
Qed.

End Facts.
End IntBarFacts.

(** ** One call of [IntBar.increment] *)

Module IntBarIncrement.
Section Facts.

Import IntBar IntBarCall.

Variable clock : nat -> float.
Implicit Types (m : machine IntBar.t) (a : Z).
Local Open Scope list_scope.

Lemma int_started_frame m :
  _value (self (started clock m)) = _value (self m)
  /\ num_jobs (self (started clock m)) = num_jobs (self m)
  /\ errors (self (started clock m)) = errors (self m)
  /\ progress (self (started clock m)) = progress (self m)
  /\ last_print_time (self (started clock m)) = last_print_time (self m)
  /\ print_interval (self (started clock m)) = print_interval (self m)
  /\ print_on_exit (self (started clock m)) = print_on_exit (self m)
  /\ stdout (started clock m) = stdout m.
Proof. unfold started. destruct (_ =? _)%float; cbn; repeat split. Qed.

(** [increment] returns normally for an amount that fits
    [unsigned short], and leaves the machine [increment_result]
    describes. *)
Lemma int_increment_runs m a :
  in_ushort a = true ->
  increment clock a m = (Normal tt, increment_result clock a m).
Proof.
  intros Ha.
  unfold increment, increment_result, after_error, after_repaint, counted,
    throttle_open, current_time, rate, eta, elapsed, new_progress, new_value.
  rewrite Ha. cbn [negb].
  destruct (int_started_frame m) as (Hv & Hn & He & Hp & Hl & Hi & Hx & Ho).
  revert Hv Hn He Hp Hl Hi Hx Ho.
  unfold started, increment_try, try_except, bind, when, get, modify, emit, ret,
    truediv, raise, time_time.
  cbn [self ticks stdout].
  destruct (start_time (self m) =? 0)%float; cbn [self ticks stdout];
    intros Hv Hn He Hp Hl Hi Hx Ho; cbn.
  all: destruct (num_jobs (self m) =? 0) eqn:En; cbn; [reflexivity|].
  all: destruct (print_interval (self m) <? _)%float eqn:Et; cbn;
    [ destruct (0 <? to_int (_value (self m) + a)) eqn:Ev; cbn;
      [ replace (to_int (_value (self m) + a) =? 0) with false by lia; cbn | ];
      (destruct (0 <? _ - _)%float eqn:Ee; cbn;
       [ rewrite (ltb_neq _ _ Ee); cbn | ]); reflexivity
    | ].
  all: match goal with |- context [?p =? num_jobs ?s] =>
         destruct (p =? num_jobs s) end; cbn; [|reflexivity].
  all: match goal with |- context [complete ?x] =>
         rewrite (IntBarFacts.int_complete_runs x) end; reflexivity.
Qed.

(** X15.  [increment] returns normally from every state, for every amount
    that fits [unsigned short]: the division by a total of zero is
    caught, the two guarded divisions never fail, and [complete] does
    not raise. *)
Lemma int_increment_never_raises m a :
  in_ushort a = true -> exists m', increment clock a m = (Normal tt, m').
Proof. intros Ha. eexists. now apply int_increment_runs. Qed.

Lemma int_well_typed_fields (b : IntBar.t) :
  int_well_typed b = true
  <-> in_int (num_jobs b) = true /\ in_int (_value b) = true
      /\ in_int (progress b) = true /\ in_int (errors b) = true.
Proof. unfold int_well_typed. rewrite !andb_true_iff. tauto. Qed.

Lemma int_increment_result_frame m a :
  num_jobs (self (increment_result clock a m)) = num_jobs (self m)
  /\ print_on_exit (self (increment_result clock a m)) = print_on_exit (self m)
  /\ print_interval (self (increment_result clock a m)) = print_interval (self m)
  /\ end_time (self (increment_result clock a m)) = end_time (self m).
Proof.
  unfold increment_result, after_error, after_repaint, counted, started.
  destruct (num_jobs (self m) =? 0), (throttle_open clock m),
    (new_progress a m =? num_jobs (self m)), (start_time (self m) =? 0)%float;
    rewrite ?IntBarFacts.int_complete_runs; cbn; repeat split.
Qed.

Lemma int_increment_result_well_typed m a :
  int_well_typed (self m) = true ->
  int_well_typed (self (increment_result clock a m)) = true.
Proof.
  rewrite !int_well_typed_fields. intros (Hn & Hv & Hp & He).
  destruct (int_started_frame m) as (Sv & Sn & Se & Sp & _).
  unfold increment_result, after_error, after_repaint, counted.
  destruct (num_jobs (self m) =? 0), (throttle_open clock m),
    (new_progress a m =? num_jobs (self m));
    rewrite ?IntBarFacts.int_complete_runs; cbn; rewrite ?Sn, ?Sp, ?Se;
    unfold new_progress, new_value;
    repeat split; try assumption;
    first [apply to_int_range | apply int_of_double_range].
Qed.

(** X19.  Every method keeps the integer fields within [int], whatever its
    arguments and whether it returns or raises. *)
Lemma int_methods_keep_fields_typed m a v exc :
  int_well_typed (self m) = true ->
  int_well_typed (self (snd (increment clock a m))) = true
  /\ int_well_typed (self (snd (set_value v m))) = true
  /\ int_well_typed (self (snd (update m))) = true
  /\ int_well_typed (self (snd (complete m))) = true
  /\ int_well_typed (self (snd (__enter__ clock m))) = true
  /\ int_well_typed (self (snd (__exit__ clock exc m))) = true.
Proof.
  intros Hw. pose proof Hw as Hw'.
  apply int_well_typed_fields in Hw' as (Hn & Hv & Hp & He).
  split; [|split; [|split; [|split; [|split]]]].
  - destruct (in_ushort a) eqn:Ha.
    + rewrite (int_increment_runs m a Ha). now apply int_increment_result_well_typed.
    + unfold increment. rewrite Ha. exact Hw.
  - unfold set_value. destruct (in_int v) eqn:E; [|exact Hw].
    cbn. apply int_well_typed_fields. cbn. auto.
  - cbn. apply int_well_typed_fields. cbn. auto.
  - rewrite IntBarFacts.int_complete_runs. cbn. apply int_well_typed_fields. cbn. auto.
  - cbn. apply int_well_typed_fields. cbn. auto.
  - rewrite IntBarFacts.int_exit_runs. cbn. apply int_well_typed_fields. cbn. auto.
Qed.

(** X20.  The total is what the constructor stored: the argument
    truncated to [int] (the argument itself up to [INT_MAX], zero for a
    multiple of 2^32), or nothing at all when the argument does not
    fit [unsigned long] and the constructor raises [OverflowError].  No
    method called afterwards changes [num_jobs], whatever its arguments
    and whether it returns or raises. *)
Lemma int_total_is_fixed m a v exc (n : Z) (p : bool) (i : float) :
  num_jobs (self (snd (increment clock a m))) = num_jobs (self m)
  /\ num_jobs (self (snd (set_value v m))) = num_jobs (self m)
  /\ num_jobs (self (snd (update m))) = num_jobs (self m)
  /\ num_jobs (self (snd (complete m))) = num_jobs (self m)
  /\ num_jobs (self (snd (__enter__ clock m))) = num_jobs (self m)
  /\ num_jobs (self (snd (__exit__ clock exc m))) = num_jobs (self m)
  /\ (in_ulong n = true ->
      fst (__init__ n p i m) = Normal tt
      /\ num_jobs (self (snd (__init__ n p i m))) = to_int n
      /\ (n <= INT_MAX -> to_int n = n)
      /\ (n mod 4294967296 = 0 -> to_int n = 0))
  /\ (in_ulong n = false -> __init__ n p i m = (Raised OverflowError, m)).
Proof.
  split; [|split; [|split; [|split; [|split; [|split; [|split]]]]]];
    [| | | | | |
     intros Hn; unfold __init__, bind, when, get, modify, emit, ret; rewrite Hn; cbn;
     (split; [now destruct (to_int n =? -1)|]);
     (split; [now destruct (to_int n =? -1)|]);
     unfold in_ulong, to_int, INT_MAX in *; apply andb_true_iff in Hn; split;
     [ intros Hle; rewrite Z.mod_small by lia; lia
     | intros Hz; rewrite Z.add_mod, Hz by lia; reflexivity ]
    | intros Hn; unfold __init__; now rewrite Hn ].
  - destruct (in_ushort a) eqn:Ha.
    + rewrite (int_increment_runs m a Ha).
      now destruct (int_increment_result_frame m a) as (Fn & _).
    + unfold increment. now rewrite Ha.
  - unfold set_value. now destruct (in_int v).
  - reflexivity.
  - now rewrite IntBarFacts.int_complete_runs.
  - reflexivity.
  - now rewrite IntBarFacts.int_exit_runs.
Qed.


(** X18.  The call that brings the counter to a total above zero stores a
    percent of exactly 100.  It writes a status line when the throttle
    test passes; when the test fails it calls [complete], and so
    writes the bar at 100%, only if the total is 100, the value the
    [elif] compares the percent with. *)
Lemma int_reaching_total m a :
  in_ushort a = true ->
  0 < num_jobs (self m) ->
  to_int (_value (self m) + a) = num_jobs (self m) ->
  exists m',
    increment clock a m = (Normal tt, m')
    /\ _value (self m') = num_jobs (self m)
    /\ progress (self m') = 100
    /\ count_site StatusLine (stdout m')
       = (count_site StatusLine (stdout m) + (if throttle_open clock m then 1 else 0))%nat
    /\ count_site CompleteLine (stdout m')
       = (count_site CompleteLine (stdout m)
          + (if negb (throttle_open clock m) && (num_jobs (self m) =? 100)%Z then 1 else 0))%nat.
Proof.
  intros Ha Hn Hr.
  exists (increment_result clock a m). split; [now apply int_increment_runs|].
  destruct (int_started_frame m) as (Sv & Sn & Se & Sp & Sl & Si & Sx & So).
  assert (Hp : new_progress a m = 100).
  { unfold new_progress, new_value. rewrite Hr. apply percent_of_the_total.
    pose proof (to_int_range (_value (self m) + a)) as R. rewrite Hr in R.
    unfold in_int, INT_MIN, INT_MAX in R. apply andb_true_iff in R. lia. }
  unfold increment_result. replace (num_jobs (self m) =? 0) with false by lia.
  rewrite Hp, (Z.eqb_sym 100).
  destruct (throttle_open clock m); cbn [negb andb].
  - unfold after_repaint, counted, new_value. rewrite Hp, Hr. cbn [self stdout].
    rewrite !count_site_app, So. cbn. repeat split; lia.
  - destruct (num_jobs (self m) =? 100) eqn:E.
    + rewrite IntBarFacts.int_complete_runs. unfold counted, IntBarSteps.complete_output.
      cbn [self stdout snd]. rewrite !count_site_app, So.
      destruct (print_on_exit _); cbn; rewrite Sn; repeat split; lia.
    + unfold counted, new_value. rewrite Hp, Hr. cbn [self stdout]. rewrite So.
      cbn. repeat split; lia.
Qed.

(** X16.  With a total of zero every call of a run counts one error: the
    counter moves by the sum of the amounts, the error count by the
    number of calls (both in [int] arithmetic), the percent stays and
    nothing is written. *)
Lemma int_zero_total_counts_every_call (amounts : list Z) :
  forall m,
    Forall (fun a => in_ushort a = true) amounts ->
    int_well_typed (self m) = true ->
    num_jobs (self m) = 0 ->
    exists m',
      increments (increment clock) amounts m = (Normal tt, m')
      /\ _value (self m') = to_int (_value (self m) + total_of amounts)
      /\ errors (self m') = to_int (errors (self m) + Z.of_nat (List.length amounts))
      /\ num_jobs (self m') = 0
      /\ progress (self m') = progress (self m)
      /\ stdout m' = stdout m.
Proof.
  induction amounts as [|a rest IH]; intros m Ha Hw Hn.
  - exists m. cbn. rewrite !Z.add_0_r.
    apply int_well_typed_fields in Hw as (_ & Hv & _ & He).
    rewrite !to_int_id by assumption. repeat split. exact Hn.
  - inversion Ha as [|a' rest' Ha1 Ha2]; subst.
    cbn [increments]. unfold bind at 1.
    rewrite (int_increment_runs m a Ha1).
    set (m1 := increment_result clock a m).
    assert (H1 : _value (self m1) = to_int (_value (self m) + a)
                 /\ errors (self m1) = to_int (errors (self m) + 1)
                 /\ num_jobs (self m1) = 0
                 /\ progress (self m1) = progress (self m)
                 /\ stdout m1 = stdout m).
    { subst m1. unfold increment_result, after_error, new_value. rewrite Hn. cbn.
      unfold started. destruct (start_time (self m) =? 0)%float; cbn; repeat split;
        assumption. }
    destruct H1 as (Hv1 & He1 & Hn1 & Hp1 & Ho1).
    destruct (IH m1 Ha2) as (m' & Hr & Rv & Re & Rn & Rp & Ro).
    { subst m1. now apply int_increment_result_well_typed. }
    { exact Hn1. }
    exists m'. split; [exact Hr|].
    rewrite Rv, Re, Rp, Ro, Hv1, He1, Hp1, Ho1, !to_int_add_l.
    cbn [total_of fold_right List.length]. fold (total_of rest).
    repeat split; try assumption; f_equal; lia.
Qed.

(** X21.  Leaving the scoped region forces the counter to the total the
    body left, whatever the body did and whether it returned or
    raised: [__exit__] calls [complete], which writes the bar at 100%
    once. *)
Lemma leaving_the_scope_completes (A : Type) (body : M IntBar.t A) m :
  let left := snd (body (snd (__enter__ clock m))) in
  exists r m',
    with_statement (__enter__ clock) (__exit__ clock) body m = (Normal r, m')
    /\ num_jobs (self m') = num_jobs (self left)
    /\ _value (self m') = num_jobs (self left)
    /\ progress (self m') = num_jobs (self left)
    /\ count_site CompleteLine (stdout m') = S (count_site CompleteLine (stdout left)).
Proof.
  intros left. unfold with_statement.
  change (__enter__ clock m) with (Normal tt, snd (__enter__ clock m)).
  cbv beta iota. subst left.
  destruct (body (snd (__enter__ clock m))) as [[x|e] m2]; cbn [snd];
    rewrite IntBarFacts.int_exit_runs; cbn [is_some];
    eexists; eexists; (split; [reflexivity|]);
    cbn [self stdout num_jobs _value progress set_progress set__value
           set_execution_time set_end_time];
    rewrite count_site_app; unfold IntBarSteps.complete_output;
    cbn [self print_on_exit set_execution_time set_end_time];
    (destruct (print_on_exit (self m2)); cbn; repeat split; lia).
Qed.

(** X29.  While the counter stays between 0 and a total above zero,
    the percent a call stores is between 0 and 100 and the bar drawn
    from it has half as many characters, at most 50. *)
Lemma int_percent_stays_within_0_100 m a :
  in_ushort a = true ->
  in_int (num_jobs (self m)) = true ->
  0 < num_jobs (self m) ->
  0 <= to_int (_value (self m) + a) <= num_jobs (self m) ->
  exists m',
    increment clock a m = (Normal tt, m')
    /\ 0 <= progress (self m') <= 100
    /\ String.length (bar_glyph (progress (self m'))) = Z.to_nat (progress (self m') / 2)
    /\ (String.length (bar_glyph (progress (self m'))) <= 50)%nat.
Proof.
  intros Ha Ht Hn Hv.
  exists (increment_result clock a m). split; [now apply int_increment_runs|].
  assert (R : 0 <= new_progress a m <= 100).
  { unfold new_progress, new_value.
    replace (double_of_Z (num_jobs (self m))) with (double_of_N (num_jobs (self m)))
      by (unfold double_of_Z; now replace (num_jobs (self m) <? 0) with false by lia).
    apply percent_within_0_100; [assumption|].
    unfold in_int, INT_MIN, INT_MAX in Ht. apply andb_true_iff in Ht. lia. }
  assert (Hp : progress (self (increment_result clock a m)) = new_progress a m).
  { unfold increment_result. replace (num_jobs (self m) =? 0) with false by lia.
    destruct (throttle_open clock m); [reflexivity|].
    destruct (new_progress a m =? num_jobs (self m)) eqn:E; [|reflexivity].
    rewrite IntBarFacts.int_complete_runs. cbn.
    destruct (int_started_frame m) as (_ & Sn & _). rewrite Sn. lia. }
  rewrite Hp. split; [exact R|]. now apply bar_glyph_length.
Qed.

End Facts.
End IntBarIncrement.

(** ** The sign of the counter, on both bars *)

Module CounterSign.
Section Facts.

Context {Item : Type}.
Variable clock : nat -> float.
Implicit Types (ms : machine (SeqBar.t Item)) (mi : machine IntBar.t).

(** *** C9 *)

(** C9 (amended).  From a counter that is not negative, on either bar:
    the constructor sets the counter to 0; [__enter__] leaves it not
    negative; [increment] (an amount within the unsigned type of its
    parameter) leaves it not negative as long as the sum fits the
    [int] field; [complete] and [__exit__] leave it not negative; and
    assigning [value] stores the assigned [int] as it is, so that the
    counter is not negative afterwards exactly when the assigned value
    is not.  On the integer-only bar [increment], [complete] and
    [__exit__] can store the total in the counter, and the statement
    for them asks for a total that is not negative. *)
Theorem counter_stays_nonnegative ms mi v exc :
  0 <= SeqBar._value (self ms) ->
  0 <= IntBar._value (self mi) ->
  in_int v = true ->
  (* the sequence-aware bar *)
  (forall jobs t' p i m1,
      SeqBar.__init__ clock jobs t' p i ms = (Normal tt, m1) ->
      SeqBar._value (self m1) = 0)
  /\ (forall a,
         in_uint a = true -> SeqBar._value (self ms) + a <= INT_MAX ->
         exists m', SeqBar.increment clock a ms = (Normal tt, m')
                    /\ 0 <= SeqBar._value (self m'))
  /\ (exists m', SeqBar.complete ms = (Normal tt, m') /\ 0 <= SeqBar._value (self m'))
  /\ (exists m', SeqBar.__enter__ clock ms = (Normal tt, m')
                 /\ 0 <= SeqBar._value (self m'))
  /\ (exists r m', SeqBar.__exit__ clock exc ms = (Normal r, m')
                   /\ 0 <= SeqBar._value (self m'))
  /\ (exists m', SeqBar.set_value v ms = (Normal tt, m')
                 /\ SeqBar._value (self m') = v
                 /\ (0 <= SeqBar._value (self m') <-> 0 <= v))
  (* the integer-only bar *)
  /\ (forall n p i m1,
         IntBar.__init__ n p i mi = (Normal tt, m1) -> IntBar._value (self m1) = 0)
  /\ (forall a,
         in_ushort a = true -> IntBar._value (self mi) + a <= INT_MAX ->
         0 <= IntBar.num_jobs (self mi) ->
         exists m', IntBar.increment clock a mi = (Normal tt, m')
                    /\ 0 <= IntBar._value (self m'))
  /\ (0 <= IntBar.num_jobs (self mi) ->
      exists m', IntBar.complete mi = (Normal tt, m') /\ 0 <= IntBar._value (self m'))
  /\ (exists m', IntBar.__enter__ clock mi = (Normal tt, m')
                 /\ 0 <= IntBar._value (self m'))
  /\ (0 <= IntBar.num_jobs (self mi) ->
      exists r m', IntBar.__exit__ clock exc mi = (Normal r, m')
                   /\ 0 <= IntBar._value (self m'))
  /\ (exists m', IntBar.set_value v mi = (Normal tt, m')
                 /\ IntBar._value (self m') = v
                 /\ (0 <= IntBar._value (self m') <-> 0 <= v)).
Proof.
  intros Hs Hi Hv.
  assert (Fit : forall c a, 0 <= c -> 0 <= a -> c + a <= INT_MAX -> 0 <= to_int (c + a)).
  { intros c a Hc Ha Hm. rewrite to_int_id; [lia|].
    unfold in_int, INT_MIN, INT_MAX in *. lia. }
  repeat apply conj.
  - intros jobs t' p i m1 H. now apply SeqBarFacts.init_value in H.
  - intros a Ha Hm. exists (SeqBarSteps.increment_result clock a ms).
    split; [now apply SeqBarFacts.increment_runs|].
    destruct (SeqBarFacts.increment_result_frame clock ms a) as (Fv & _). rewrite Fv.
    apply Fit; [exact Hs| |exact Hm]. unfold in_uint in Ha. lia.
  - eexists. split; [apply SeqBarFacts.seq_complete_runs|exact Hs].
  - eexists. split; [apply SeqBarFacts.seq_enter_runs|exact Hs].
  - eexists. eexists. split; [apply SeqBarFacts.seq_exit_runs|exact Hs].
  - eexists. unfold SeqBar.set_value. rewrite Hv. split; [reflexivity|].
    split; reflexivity.
  - intros n p i m1. unfold IntBar.__init__.
    destruct (in_ulong n); cbn [negb]; [|discriminate].
    unfold bind, when, get, modify, emit, ret. cbn.
    destruct (to_int n =? -1); intros H; injection H as <-; reflexivity.
  - intros a Ha Hm Hn. exists (IntBarCall.increment_result clock a mi).
    split; [now apply IntBarIncrement.int_increment_runs|].
    assert (Hc : 0 <= IntBarCall.new_value a mi).
    { apply Fit; [exact Hi| |exact Hm]. unfold in_ushort in Ha. lia. }
    unfold IntBarCall.increment_result, IntBarCall.after_error, IntBarCall.after_repaint,
      IntBarCall.counted.
    destruct (IntBar.num_jobs (self mi) =? 0), (IntBarCall.throttle_open clock mi),
      (IntBarCall.new_progress a mi =? IntBar.num_jobs (self mi));
      rewrite ?IntBarFacts.int_complete_runs; cbn; try exact Hc.
    destruct (IntBarIncrement.int_started_frame clock mi) as (_ & Sn & _).
    rewrite Sn. exact Hn.
  - intros Hn. eexists. split; [apply IntBarFacts.int_complete_runs|exact Hn].
  - eexists. split; [reflexivity|exact Hi].
  - intros Hn. eexists. eexists. split; [apply IntBarFacts.int_exit_runs|exact Hn].
  - eexists. unfold IntBar.set_value. rewrite Hv. split; [reflexivity|].
    split; reflexivity.
Qed.

End Facts.
End CounterSign.

(** ** The command-line driver *)

Module DriverFacts.
Section Facts.

Import Driver.

Variable clock : nat -> float.
Variable int_ : string -> option Z.
Local Abbreviation bar := (SeqBar.t Empty_set).
Implicit Types (p : process) (argv : list string).
Local Open Scope list_scope.

Lemma count_bar_site_app (k : site) (l1 l2 : list output) :
  count_bar_site k (l1 ++ l2) = (count_bar_site k l1 + count_bar_site k l2)%nat.
Proof. unfold count_bar_site. now rewrite filter_app, length_app. Qed.

Lemma count_bar_site_map (k : site) (out : list event) :
  count_bar_site k (List.map bar_output out) = count_site k out.
Proof.
  unfold count_bar_site, count_site.
  induction out as [|e out IH]; [reflexivity|]. cbn.
  destruct (event_site e) as [k'|]; [destruct (site_eqb k k')|]; cbn; auto.
Qed.

Lemma printed_app (l1 l2 : list output) :
  printed (l1 ++ l2) = printed l1 ++ printed l2.
Proof. unfold printed. apply filter_app. Qed.

Lemma printed_map (out : list event) : printed (List.map bar_output out) = [].
Proof. induction out as [|e out IH]; [reflexivity|exact IH]. Qed.

(** A call of [increment] writes status lines, the final line and the
    blank line after it, and nothing else. *)
Lemma increment_writes_its_own_lines (k : site) (m : machine bar) (a : Z) :
  (if site_eqb k StatusLine || site_eqb k FinalLine || site_eqb k BlankLine
   then false else true) = true ->
  count_site k (stdout (SeqBarSteps.increment_result clock a m)) = count_site k (stdout m).
Proof.
  intros Hk.
  destruct (SeqBarFacts.started_frame clock m) as (_ & _ & _ & _ & _ & _ & _ & So).
  unfold SeqBarSteps.increment_result, SeqBarSteps.after_error, SeqBarSteps.after_final,
    SeqBarSteps.after_throttle.
  destruct (SeqBar.num_jobs (self m) =? 0); cbn [self ticks stdout]; [now rewrite So|].
  destruct (SeqBarSteps.reaches_total a m), (SeqBarSteps.throttle_open clock m);
    cbn [self ticks stdout]; rewrite ?count_site_app, So;
    destruct k; try discriminate Hk; cbn; lia.
Qed.

(** What one counted line does to the process. *)
Lemma call_increment p :
  SeqBar.num_jobs (progress_bar p) <> 0 ->
  exists p',
    call (SeqBar.increment clock 1) p = (Normal tt, p')
    /\ SeqBar._value (progress_bar p') = to_int (SeqBar._value (progress_bar p) + 1)
    /\ SeqBar.num_jobs (progress_bar p') = SeqBar.num_jobs (progress_bar p)
    /\ SeqBar.errors (progress_bar p') = SeqBar.errors (progress_bar p)
    /\ SeqBar.print_on_exit (progress_bar p') = SeqBar.print_on_exit (progress_bar p)
    /\ stdin p' = stdin p
    /\ printed (streams p') = printed (streams p)
    /\ count_bar_site SummaryLine (streams p') = count_bar_site SummaryLine (streams p)
    /\ count_bar_site CompleteLine (streams p') = count_bar_site CompleteLine (streams p).
Proof.
  intros Hn. unfold call.
  set (m := Machine (progress_bar p) (time_calls p) []).
  rewrite (SeqBarFacts.increment_runs clock m 1) by reflexivity.
  eexists. split; [reflexivity|]. cbn [progress_bar stdin streams].
  destruct (SeqBarFacts.increment_result_frame clock m 1)
    as (Fv & Fn & _ & _ & _ & Fp & _).
  rewrite Fv, Fn, Fp, (SeqBarFacts.increment_keeps_errors clock m 1 Hn).
  rewrite printed_app, printed_map, app_nil_r, !count_bar_site_app, !count_bar_site_map.
  rewrite !increment_writes_its_own_lines by reflexivity.
  cbn. repeat split; lia.
Qed.

(** The loop of [main]: one call of [increment] per line before the
    first empty line, the interrupt or the end of the input. *)
Lemma for_input_counts (pending : list keyboard) :
  forall passes p,
    stdin p = pending ->
    (List.length pending < passes)%nat ->
    SeqBar.num_jobs (progress_bar p) <> 0 ->
    INT_MIN <= SeqBar._value (progress_bar p) ->
    SeqBar._value (progress_bar p) + Z.of_nat (List.length pending) <= INT_MAX ->
    exists p',
      for_input passes (call (SeqBar.increment clock 1)) p = (loop_end pending, p')
      /\ SeqBar._value (progress_bar p')
         = SeqBar._value (progress_bar p) + Z.of_nat (counted_lines pending)
      /\ SeqBar.num_jobs (progress_bar p') = SeqBar.num_jobs (progress_bar p)
      /\ SeqBar.errors (progress_bar p') = SeqBar.errors (progress_bar p)
      /\ SeqBar.print_on_exit (progress_bar p') = SeqBar.print_on_exit (progress_bar p)
      /\ stdin p' = unread pending
      /\ printed (streams p') = printed (streams p)
      /\ count_bar_site SummaryLine (streams p') = count_bar_site SummaryLine (streams p)
      /\ count_bar_site CompleteLine (streams p') = count_bar_site CompleteLine (streams p).
Proof.
  induction pending as [|[text|] rest IH]; intros passes p Hs Hf Hn Hlo Hhi;
    (destruct passes as [|passes]; [cbn in Hf; lia|]);
    cbn [for_input]; unfold and_then at 1, input; rewrite Hs.
  - exists p. cbn. rewrite Z.add_0_r. repeat split; assumption.
  - cbn [loop_end counted_lines unread].
    destruct (String.eqb text EmptyString).
    + eexists. split; [reflexivity|]. cbn. rewrite Z.add_0_r. repeat split.
    + set (p1 := Process (progress_bar p) (time_calls p) (streams p) rest).
      destruct (call_increment p1 Hn) as (p2 & Hc & Cv & Cn & Ce & Cp & Cs & Cq & Cu & Cc).
      unfold and_then. rewrite Hc.
      cbn [List.length] in Hf, Hhi.
      assert (Hv2 : SeqBar._value (progress_bar p2) = SeqBar._value (progress_bar p) + 1).
      { rewrite Cv. cbn. apply to_int_id. unfold in_int, INT_MIN, INT_MAX in *. lia. }
      destruct (IH passes p2) as (p' & Hr & Rv & Rn & Re & Rp & Rs & Rq & Ru & Rc).
      * exact Cs.
      * lia.
      * now rewrite Cn.
      * lia.
      * lia.
      * exists p'. split; [exact Hr|].
        rewrite Rv, Rn, Re, Rp, Rs, Rq, Ru, Rc, Hv2, Cn, Ce, Cp, Cq, Cu, Cc.
        cbn. repeat split. lia.
  - eexists. split; [reflexivity|]. cbn. rewrite Z.add_0_r. repeat split.
Qed.

(** The constructor on an [int] total within [unsigned long], with the
    default arguments. *)
Lemma construct_from_int (n : Z) p :
  in_ulong n = true ->
  exists p',
    construct (SeqBar.__init__ clock (SeqBar.JobsInt n) EmptyString true 0.1) p
    = (Normal tt, p')
    /\ SeqBar.num_jobs (progress_bar p') = n
    /\ SeqBar._value (progress_bar p') = 0
    /\ SeqBar.errors (progress_bar p') = 0
    /\ SeqBar.print_on_exit (progress_bar p') = true
    /\ stdin p' = stdin p
    /\ printed (streams p') = printed (streams p)
    /\ count_bar_site SummaryLine (streams p') = count_bar_site SummaryLine (streams p)
    /\ count_bar_site CompleteLine (streams p') = count_bar_site CompleteLine (streams p).
Proof.
  intros Hn. unfold construct, call, SeqBar.__init__, bind, when, get, modify, emit, ret,
    raise, SeqBar.time_time.
  cbn. rewrite Hn. cbn.
  destruct (n =? to_ulong (-1)); cbn; eexists; (split; [reflexivity|]); cbn;
    rewrite ?printed_app, ?count_bar_site_app, ?app_nil_r;
    unfold count_bar_site at 2 4, printed at 2; cbn;
    rewrite ?app_nil_r, ?Nat.add_0_r; repeat split.
Qed.

(** X23.  Without an argument [main] raises [IndexError] at its first
    statement: nothing is printed, no bar is built. *)
Lemma main_needs_an_argument argv p :
  (List.length argv < 2)%nat ->
  main clock int_ argv p = (Raised IndexError, p).
Proof.
  destruct argv as [|prog [|arg rest]]; cbn [List.length]; intros H;
    [reflexivity|reflexivity|lia].
Qed.

(** X24.  When the first argument contains [-h] anywhere, [main]
    prints the two usage texts and exits with status 1; the argument is
    not read as a count, no bar is built and no input is read. *)
Lemma main_shows_the_usage (prog arg : string) (rest : list string) p :
  contains "-h" arg = true ->
  main clock int_ (prog :: arg :: rest) p
  = (Raised (SystemExit 1),
     Process (progress_bar p) (time_calls p)
             (streams p ++ [stdout_print usage_text; stdout_print example_text])
             (stdin p)).
Proof.
  intros Hh. unfold main, and_then, subscript, pure. cbn [nth_error].
  rewrite Hh. unfold print_help, and_then, print_stdout, sys_exit, throw.
  cbn [progress_bar time_calls streams stdin]. now rewrite <- app_assoc.
Qed.

(** X25.  A first argument that is not an integer makes [main] raise
    [ValueError], and one that is negative or above [ULONG_MAX] makes it
    raise [OverflowError] from the constructor.  In both cases nothing
    has been printed, the usage texts included, and no input has been
    read. *)
Lemma main_rejects_the_count (prog arg : string) (rest : list string) p :
  contains "-h" arg = false ->
  match int_ arg with Some n => in_ulong n = false | None => True end ->
  exists p',
    main clock int_ (prog :: arg :: rest) p
    = (Raised (match int_ arg with Some _ => OverflowError | None => ValueError end), p')
    /\ streams p' = streams p
    /\ stdin p' = stdin p.
Proof.
  intros Hh Hc. unfold main, and_then, subscript, pure, int. cbn [nth_error List.length].
  rewrite Hh. cbn [Nat.ltb Nat.leb].
  destruct (int_ arg) as [n|]; [|exists p; repeat split].
  unfold construct, call, SeqBar.__init__, bind, when, get, modify, emit, ret, raise,
    SeqBar.time_time.
  cbn. rewrite Hc. cbn. eexists. split; [reflexivity|]. cbn.
  now rewrite app_nil_r.
Qed.

(** X26.  A count of zero builds the bar, prints the count on standard
    error, then prints the two usage texts and exits with status 1; no
    input is read. *)
Lemma main_with_zero_shows_the_usage (prog arg : string) (rest : list string) p :
  contains "-h" arg = false ->
  int_ arg = Some 0 ->
  exists p',
    main clock int_ (prog :: arg :: rest) p = (Raised (SystemExit 1), p')
    /\ streams p'
       = streams p ++ [stderr_print (format_i 0); stdout_print usage_text;
                       stdout_print example_text]
    /\ stdin p' = stdin p.
Proof.
  intros Hh Hc. unfold main, and_then, subscript, pure, int. cbn [nth_error List.length].
  rewrite Hh. cbn [Nat.ltb Nat.leb]. rewrite Hc.
  unfold construct, call, SeqBar.__init__, bind, when, get, modify, emit, ret, raise,
    SeqBar.time_time, print_stderr, print_help, and_then, print_stdout, sys_exit, throw.
  cbn. eexists. split; [reflexivity|]. cbn.
  rewrite app_nil_r, <- !app_assoc. repeat split.
Qed.

(** X27.  With a count above zero (and within [unsigned long]) [main]
    returns normally: it builds the bar, prints the count on standard
    error, and calls [increment] once for each line read before the
    first empty line, the interrupt or the end of the input.  The
    counter ends at the number of those lines, no error is counted, the
    interrupt makes the driver write the line of [complete] once, and
    [__exit__] prints the summary once and swallows the [SystemExit]
    the [finally] block raises. *)
Lemma main_counts_the_lines (prog arg : string) (rest : list string) (n : Z) p :
  contains "-h" arg = false ->
  int_ arg = Some n ->
  0 < n ->
  in_ulong n = true ->
  Z.of_nat (List.length (stdin p)) <= INT_MAX ->
  exists p',
    main clock int_ (prog :: arg :: rest) p = (Normal tt, p')
    /\ SeqBar.num_jobs (progress_bar p') = n
    /\ SeqBar._value (progress_bar p') = Z.of_nat (counted_lines (stdin p))
    /\ SeqBar.errors (progress_bar p') = 0
    /\ stdin p' = unread (stdin p)
    /\ printed (streams p') = printed (streams p) ++ [stderr_print (format_i n)]
    /\ count_bar_site SummaryLine (streams p')
       = S (count_bar_site SummaryLine (streams p))
    /\ count_bar_site CompleteLine (streams p')
       = (count_bar_site CompleteLine (streams p)
          + (if interrupted (stdin p) then 1 else 0))%nat.
Proof.
  intros Hh Hc Hpos Hn Hlen.
  unfold main, subscript. cbn [nth_error List.length].
  unfold and_then at 1 2, pure at 1. rewrite Hh. cbn [Nat.ltb Nat.leb].
  unfold and_then at 1 2, pure at 1 2, int. rewrite Hc. unfold pure at 1.
  unfold and_then at 1.
  destruct (construct_from_int n p Hn) as (p1 & H1 & Cn & Cv & Ce & Cp & Cs & Cq & Cu & Cc).
  rewrite H1. unfold and_then at 1, print_stderr.
  replace (0 <? n) with true by lia.
  set (p2 := Process (progress_bar p1) (time_calls p1)
                     (streams p1 ++ [stderr_print (format_i n)]) (stdin p1)).
  unfold and_then at 1, with_bar.
  unfold call at 1. rewrite SeqBarFacts.seq_enter_runs. cbn [self ticks stdout List.map].
  set (p3 := Process _ _ _ _).
  unfold try_finally.
  destruct (for_input_counts (stdin p) (S (List.length (stdin p3))) p3)
    as (p4 & H4 & Lv & Ln & Le & Lp & Ls & Lq & Lu & Lc).
  { subst p3. cbn. exact Cs. }
  { subst p3. cbn. rewrite Cs. lia. }
  { subst p3. cbn. rewrite Cn. lia. }
  { subst p3. cbn. rewrite Cv. unfold INT_MIN. lia. }
  { subst p3. cbn. rewrite Cv. lia. }
  rewrite H4.
  assert (Hp3 : SeqBar._value (progress_bar p3) = 0 /\ SeqBar.num_jobs (progress_bar p3) = n
                /\ SeqBar.errors (progress_bar p3) = 0
                /\ SeqBar.print_on_exit (progress_bar p3) = true
                /\ printed (streams p3) = printed (streams p) ++ [stderr_print (format_i n)]
                /\ count_bar_site SummaryLine (streams p3)
                   = count_bar_site SummaryLine (streams p)
                /\ count_bar_site CompleteLine (streams p3)
                   = count_bar_site CompleteLine (streams p)).
  { subst p3 p2. cbn. rewrite app_nil_r, printed_app, !count_bar_site_app, Cq, Cu, Cc.
    unfold printed at 2, count_bar_site at 2 4. cbn.
    rewrite !Nat.add_0_r. repeat split; assumption. }
  destruct Hp3 as (Pv & Pn & Pe & Pp & Pq & Pu & Pc).
  rewrite Pv in Lv. rewrite Pn in Ln. rewrite Pe in Le. rewrite Pp in Lp.
  rewrite Pq in Lq. rewrite Pu in Lu. rewrite Pc in Lc. cbn [Z.add] in Lv.
  clearbody p3. clear H1 H4.
  assert (Hend : forall p5 : process,
             SeqBar._value (progress_bar p5) = Z.of_nat (counted_lines (stdin p)) ->
             SeqBar.num_jobs (progress_bar p5) = n ->
             SeqBar.errors (progress_bar p5) = 0 ->
             SeqBar.print_on_exit (progress_bar p5) = true ->
             exists p',
               call (SeqBar.__exit__ clock (Some (SystemExit 0))) p5 = (Normal true, p')
               /\ SeqBar.num_jobs (progress_bar p') = n
               /\ SeqBar._value (progress_bar p') = Z.of_nat (counted_lines (stdin p))
               /\ SeqBar.errors (progress_bar p') = 0
               /\ stdin p' = stdin p5
               /\ printed (streams p') = printed (streams p5)
               /\ count_bar_site SummaryLine (streams p')
                  = S (count_bar_site SummaryLine (streams p5))
               /\ count_bar_site CompleteLine (streams p')
                  = count_bar_site CompleteLine (streams p5)).
  { intros p5 Ev En Ee Ep. unfold call. rewrite SeqBarFacts.seq_exit_runs.
    cbn [self ticks stdout SeqBar.print_on_exit]. rewrite Ep.
    eexists. split; [reflexivity|]. cbn [progress_bar streams stdin].
    rewrite printed_app, printed_map, !count_bar_site_app, !count_bar_site_map.
    cbn. rewrite app_nil_r. repeat split; try assumption; lia. }
  destruct (loop_end (stdin p)) as [[]|e] eqn:El.
  - unfold pure, sys_exit, throw.
    destruct (Hend p4 Lv Ln Le Lp) as (p' & Hx & Xn & Xv & Xe & Xs & Xq & Xu & Xc).
    rewrite Hx. exists p'. split; [reflexivity|].
    assert (Hi : interrupted (stdin p) = false).
    { clear - El. induction (stdin p) as [|[t|] l IH]; cbn in *; try discriminate.
      destruct (String.eqb t EmptyString); auto. }
    rewrite Xq, Xu, Xc, Xs, Ls, Lq, Lu, Lc, Hi. rewrite Nat.add_0_r.
    repeat split; assumption.
  - assert (He : (e = KeyboardInterrupt /\ interrupted (stdin p) = true)
                 \/ (e = EOFError /\ interrupted (stdin p) = false)).
    { clear - El. induction (stdin p) as [|[t|] l IH]; cbn in *.
      - right. split; congruence.
      - destruct (String.eqb t EmptyString); [discriminate|auto].
      - left. split; congruence. }
    destruct He as [[-> Hi]|[-> Hi]]; cbn [handler_for exn_eqb EOFError Nat.eqb].
    + unfold and_then, call at 1. rewrite SeqBarFacts.seq_complete_runs.
      unfold sys_exit, throw. cbn [self ticks stdout List.map app].
      set (p5 := Process _ _ _ _).
      destruct (Hend p5) as (p' & Hx & Xn & Xv & Xe & Xs & Xq & Xu & Xc);
        try (subst p5; cbn; assumption).
      rewrite Hx. exists p'. split; [reflexivity|].
      rewrite Xq, Xu, Xc, Xs, Hi. subst p5. cbn [progress_bar streams stdin].
      change [bar_output (stdout_write CompleteLine complete_text); bar_output stdout_flush]
        with (List.map bar_output [stdout_write CompleteLine complete_text; stdout_flush]).
      rewrite printed_app, printed_map, !count_bar_site_app, !count_bar_site_map,
        Ls, Lq, Lu, Lc.
      cbn. rewrite app_nil_r, Nat.add_0_r. repeat split; assumption.
    + unfold pure, sys_exit, throw.
      destruct (Hend p4 Lv Ln Le Lp) as (p' & Hx & Xn & Xv & Xe & Xs & Xq & Xu & Xc).
      rewrite Hx. exists p'. split; [reflexivity|].
      rewrite Xq, Xu, Xc, Xs, Ls, Lq, Lu, Lc, Hi. rewrite Nat.add_0_r.
      repeat split; assumption.
Qed.

End Facts.
End DriverFacts.

(** ** The text of [__repr__] *)

Section Repr.

Local Open Scope string_scope.

Lemma numeral_string_of_uint (d : Decimal.uint) :
  numeral (NilEmpty.string_of_uint d) = true.
Proof.
  induction d; cbn [NilEmpty.string_of_uint numeral]; rewrite ?IHd; reflexivity.
Qed.

Lemma numeral_format_i (n : Z) : numeral (format_i n) = true.
Proof.
  unfold format_i, NilZero.string_of_int, NilZero.string_of_uint.
  destruct (Z.to_int n) as [d|d]; destruct d;
    cbn [NilEmpty.string_of_uint numeral]; rewrite ?numeral_string_of_uint; reflexivity.
Qed.

Lemma format_i_inj (a b : Z) : format_i a = format_i b -> a = b.
Proof.
  unfold format_i. intros H.
  assert (N : forall z, Z.to_int z <> Decimal.Pos Decimal.Nil
                        /\ Z.to_int z <> Decimal.Neg Decimal.Nil).
  { intros [|p|p]; cbn; split; try discriminate; intros E; injection E as E;
      now apply DecimalPos.Unsigned.to_uint_nonnil in E. }
  apply (f_equal NilZero.int_of_string) in H.
  rewrite !NilZero.isi in H by apply N.
  injection H as H. apply (f_equal Z.of_int) in H.
  now rewrite !DecimalZ.of_to in H.
Qed.

Lemma append_inj_l (s a b : string) : s ++ a = s ++ b -> a = b.
Proof. induction s as [|c s IH]; cbn; intros H; [assumption|]. injection H as H. auto. Qed.

(** A numeral followed by plain text splits in one way only. *)
Lemma numeral_split (s1 s2 t1 t2 : string) :
  numeral s1 = true -> numeral s2 = true ->
  starts_plain t1 = true -> starts_plain t2 = true ->
  s1 ++ t1 = s2 ++ t2 -> s1 = s2 /\ t1 = t2.
Proof.
  revert s2. induction s1 as [|c1 s1 IH]; intros [|c2 s2] N1 N2 P1 P2 H; cbn in *.
  - auto.
  - subst t1. cbn in P1. apply andb_true_iff in N2 as [N2 _].
    rewrite N2 in P1. discriminate.
  - subst t2. cbn in P2. apply andb_true_iff in N1 as [N1 _].
    rewrite N1 in P2. discriminate.
  - injection H as -> H. apply andb_true_iff in N1 as [_ N1].
    apply andb_true_iff in N2 as [_ N2].
    destruct (IH s2 N1 N2 P1 P2 H) as [-> ->]. auto.
Qed.

End Repr.

Module ReprFacts.

(** X22.  The text of [__repr__] names the class and shows the total, the
    counter, the error count and the percent in decimal; the call
    changes nothing.  Two objects of one class print the same text only
    when they agree on all four numbers, on either bar. *)
Lemma repr_tells_the_counters_apart (Item : Type) (cls : string)
    (m m' : machine (SeqBar.t Item)) (k k' : machine IntBar.t) :
  (SeqBar.__repr__ cls m
   = (Normal (repr_text cls (SeqBar.num_jobs (self m)) (SeqBar._value (self m))
                        (SeqBar.errors (self m)) (SeqBar.progress (self m))), m))
  /\ (IntBar.__repr__ cls k
      = (Normal (repr_text cls (IntBar.num_jobs (self k)) (IntBar._value (self k))
                           (IntBar.errors (self k)) (IntBar.progress (self k))), k))
  /\ (fst (SeqBar.__repr__ cls m) = fst (SeqBar.__repr__ cls m') ->
      SeqBar.num_jobs (self m) = SeqBar.num_jobs (self m')
      /\ SeqBar._value (self m) = SeqBar._value (self m')
      /\ SeqBar.errors (self m) = SeqBar.errors (self m')
      /\ SeqBar.progress (self m) = SeqBar.progress (self m'))
  /\ (fst (IntBar.__repr__ cls k) = fst (IntBar.__repr__ cls k') ->
      IntBar.num_jobs (self k) = IntBar.num_jobs (self k')
      /\ IntBar._value (self k) = IntBar._value (self k')
      /\ IntBar.errors (self k) = IntBar.errors (self k')
      /\ IntBar.progress (self k) = IntBar.progress (self k')).
Proof.
  assert (Inj : forall n v e p n' v' e' p',
             repr_text cls n v e p = repr_text cls n' v' e' p' ->
             n = n' /\ v = v' /\ e = e' /\ p = p').
  { intros n v e p n' v' e' p' H. unfold repr_text in H.
    apply append_inj_l in H. apply (append_inj_l "(initial_value=") in H.
    apply numeral_split in H as [Hn H]; try apply numeral_format_i; try reflexivity.
    apply (append_inj_l ", current_value=") in H.
    apply numeral_split in H as [Hv H]; try apply numeral_format_i; try reflexivity.
    apply (append_inj_l ", errors=") in H.
    apply numeral_split in H as [He H]; try apply numeral_format_i; try reflexivity.
    apply (append_inj_l ", progress=") in H.
    apply numeral_split in H as [Hp _]; try apply numeral_format_i; try reflexivity.
    repeat split; now apply format_i_inj. }
  split; [reflexivity|]. split; [reflexivity|]. split.
  - cbn. intros H. injection H as H. now apply Inj in H.
  - cbn. intros H. injection H as H. now apply Inj in H.
Qed.

End ReprFacts.

(** ** The scoped region *)

Module ScopedRegion.

(** C1 (amended).  On every exit of the scoped region, whether the
    body returned or raised, [__exit__] runs on the machine the body
    left: it stores the clock reading in [end_time], stores
    [end_time - start_time] in [execution_time], and prints the summary
    once when [print_on_exit] is set and not at all otherwise.  It
    returns true exactly when the body raised, so the [with] statement
    ends normally in both cases: an exception of the body is
    suppressed, not passed on to the caller.  This holds for the
    sequence-aware bar and for the integer-only bar. *)
Theorem exit_runs_on_every_path_and_suppresses :
  forall (Item A : Type) (clock : nat -> float),
    (forall (body : M (SeqBar.t Item) A) (m : machine (SeqBar.t Item)),
        let entered := snd (SeqBar.__enter__ clock m) in
        let left := snd (body entered) in
        let exc := raised_of (fst (body entered)) in
        exists m',
          SeqBar.__exit__ clock exc left = (Normal (is_some exc), m')
          /\ with_statement (SeqBar.__enter__ clock) (SeqBar.__exit__ clock) body m
             = (Normal (value_of (fst (body entered))), m')
          /\ SeqBar.end_time (self m') = clock (ticks left)
          /\ SeqBar.execution_time (self m')
             = (SeqBar.end_time (self m') - SeqBar.start_time (self left))%float
          /\ count_site SummaryLine (stdout m')
             = (count_site SummaryLine (stdout left)
                + (if SeqBar.print_on_exit (self left) then 1 else 0))%nat)
    /\ (forall (body : M IntBar.t A) (m : machine IntBar.t),
        let entered := snd (IntBar.__enter__ clock m) in
        let left := snd (body entered) in
        let exc := raised_of (fst (body entered)) in
        exists m',
          IntBar.__exit__ clock exc left = (Normal (is_some exc), m')
          /\ with_statement (IntBar.__enter__ clock) (IntBar.__exit__ clock) body m
             = (Normal (value_of (fst (body entered))), m')
          /\ IntBar.end_time (self m') = clock (ticks left)
          /\ IntBar.execution_time (self m')
             = (IntBar.end_time (self m') - IntBar.start_time (self left))%float
          /\ count_site SummaryLine (stdout m')
             = (count_site SummaryLine (stdout left)
                + (if IntBar.print_on_exit (self left) then 1 else 0))%nat).
Proof.
  intros Item A clock. split.
  - intros body m entered left exc.
    eexists. split; [apply SeqBarFacts.seq_exit_runs|].
    split.
    + unfold with_statement. rewrite SeqBarFacts.seq_enter_runs.
      subst exc left entered. rewrite SeqBarFacts.seq_enter_runs. cbn [snd].
      destruct (body _) as [[a|e] m2]; cbn [fst snd raised_of value_of];
        rewrite SeqBarFacts.seq_exit_runs; reflexivity.
    + cbn [self stdout SeqBar.end_time SeqBar.execution_time
             SeqBar.set_execution_time SeqBar.set_end_time].
      split; [reflexivity|]. split; [reflexivity|].
      destruct (SeqBar.print_on_exit (self left));
        rewrite ?count_site_app; cbn; lia.
  - intros body m entered left exc.
    eexists. split; [apply IntBarFacts.int_exit_runs|].
    split.
    + unfold with_statement.
      change (IntBar.__enter__ clock m) with (Normal tt, entered).
      subst exc left. cbv beta iota.
      destruct (body entered) as [[a|e] m2]; cbn [fst snd raised_of value_of];
        rewrite IntBarFacts.int_exit_runs; reflexivity.
    + cbn [self stdout IntBar.end_time IntBar.execution_time IntBar.num_jobs
             IntBar.set_execution_time IntBar.set_end_time IntBar.set_progress
             IntBar.set__value].
      split; [reflexivity|]. split; [reflexivity|].
      rewrite count_site_app. unfold IntBarSteps.complete_output.
      cbn [self IntBar.print_on_exit IntBar.set_execution_time IntBar.set_end_time].
      destruct (IntBar.print_on_exit (self left)); cbn; lia.
Qed.

End ScopedRegion.

(** ** Worked examples *)

Module Examples.

Import SeqBar SeqBarSteps.
Local Open Scope list_scope.

(** Split a conjunction of closed equations and evaluate each. *)
Ltac evaluate :=
  intros; repeat match goal with |- _ /\ _ => split end; vm_compute; reflexivity.

(** *** C1: a body that raises *)

(** C1, as stated, fails: the body raises and the [with] statement
    ends normally, in both variants, so the caller never sees the
    exception. *)
Lemma raising_body_is_swallowed :
  fst (with_statement (__enter__ clock_30ms) (__exit__ clock_30ms)
         (raise (Exception 7) : M (SeqBar.t nat) unit)
         (seq_bar clock_30ms (JobsInt 3)))
  = Normal None
  /\ fst (with_statement (IntBar.__enter__ clock_30ms) (IntBar.__exit__ clock_30ms)
            (raise (Exception 7) : M IntBar.t unit) (int_bar 3))
     = Normal None
  /\ @Normal (option unit) None <> Raised (Exception 7).
Proof. split; [|split]; [vm_compute; reflexivity .. | discriminate]. Qed.

(** *** C2: the duration text *)

(** C2, as stated, fails: 90 s prints as seconds, not minutes, and
    3700 s prints the seconds within the hour with no hour count. *)
Lemma ninety_seconds_is_not_minutes :
  duration_text 90 = "30 seconds"
  /\ duration_text 90 <> "30.00 minutes"
  /\ duration_text 90 <> "30 minutes"
  /\ duration_text 3700 = "100 minutes"
  /\ duration_text 3700 <> "1 02 minutes".
Proof.
  assert (H90 : duration_text 90 = "30 seconds") by (vm_compute; reflexivity).
  assert (H3700 : duration_text 3700 = "100 minutes") by (vm_compute; reflexivity).
  rewrite H90, H3700. repeat split; discriminate.
Qed.

(** C2 (amended).  The text follows the decision list
    [duration_cases].  Below 1 s: the milliseconds with no decimals and
    the unit [ms].  From 1 s to below 60 s: the seconds with two
    decimals and the unit [seconds].  From 60 s to below 3600 s: the
    seconds within the minute with no decimals, and still the unit
    [seconds].  From 3600 s, while [t / 60] is below 3600: the seconds
    within the hour with no decimals and the unit [minutes], with no
    hour count.  The later rows are the same two tests for [hours] and
    [days], and only a duration that fails them all gets two numbers
    before [minutes].  So 0.5 s is [500 ms], 1.5 s is [1.50 seconds],
    90 s is [30 seconds] and 3700 s is [100 minutes]. *)
Theorem duration_text_table :
  (forall t : float, duration_text t = duration_cases t)
  /\ duration_text 0.5 = "500 ms"
  /\ duration_text 1.5 = "1.50 seconds"
  /\ duration_text 90 = "30 seconds"
  /\ duration_text 3700 = "100 minutes".
Proof.
  split; [exact duration_text_unrolled|]. evaluate.
Qed.

(** *** C3: [complete] on the sequence-aware bar *)

(** C3 at its failing input: a bar of 5 jobs after two increments.
    [complete] writes the bar at 100% and leaves the counter at 2. *)
Theorem seq_complete_leaves_the_counter :
  let m := snd (increment clock_30ms 1
                  (snd (increment clock_30ms 1 (seq_bar clock_30ms (JobsInt 5))))) in
  exists m',
    complete m = (Normal tt, m')
    /\ self m' = self m
    /\ _value (self m') = 2
    /\ num_jobs (self m') = 5
    /\ stdout m' = stdout m ++ [stdout_write CompleteLine complete_text; stdout_flush].
Proof.
  intros m. eexists. split; [apply SeqBarFacts.seq_complete_runs|].
  cbn [self stdout]. rewrite <- app_assoc. evaluate.
Qed.

(** On the integer-only bar the same call forces the counter to the
    total. *)
Example int_complete_forces_the_counter :
  let step := IntBar.increment clock_30ms 1 in
  let m := snd (step (snd (step (int_bar 5)))) in
  IntBar._value (self m) = 2
  /\ IntBar._value (self (snd (IntBar.complete m))) = 5.
Proof. evaluate. Qed.

(** *** C4: a total of zero, and the sentinel *)

(** C4, as stated, fails on the sentinel.  The only total the test
    [self.num_jobs == -1] of either constructor accepts is 2^64 - 1 (the
    [unsigned long] that equals -1 after conversion, and the [int] -1
    after truncation); the initial line shows the constructor took it
    for the sentinel.  The division by it succeeds, the percent is
    computed, and no error is counted. *)
Lemma sentinel_total_counts_no_error :
  (exists m0 m',
      __init__ clock_30ms (JobsInt ULONG_MAX) EmptyString true 0.1 (boot (@blank nat))
      = (Normal tt, m0)
      /\ stdout m0 = [stdout_write InitialLine initial_text]
      /\ increment clock_30ms 1 m0 = (Normal tt, m')
      /\ progress (self m') = int_of_double (double_of_Z 1 / double_of_N ULONG_MAX * 100)
      /\ errors (self m') = errors (self m0)
      /\ errors (self m') <> errors (self m0) + 1)
  /\ (exists m0 m',
        IntBar.__init__ ULONG_MAX true 0.1 (boot IntBar.blank) = (Normal tt, m0)
        /\ IntBar.num_jobs (self m0) = -1
        /\ stdout m0 = [stdout_write InitialLine initial_text]
        /\ IntBar.increment clock_30ms 1 m0 = (Normal tt, m')
        /\ IntBar.progress (self m') = -100
        /\ IntBar.errors (self m') = IntBar.errors (self m0)
        /\ IntBar.errors (self m') <> IntBar.errors (self m0) + 1).
Proof.
  split.
  - exists (seq_bar clock_30ms (JobsInt ULONG_MAX)).
    exists (snd (increment clock_30ms 1 (seq_bar clock_30ms (JobsInt ULONG_MAX)))).
    repeat match goal with |- _ /\ _ => split end;
      try (vm_compute; reflexivity).
    vm_compute. discriminate.
  - exists (int_bar ULONG_MAX).
    exists (snd (IntBar.increment clock_30ms 1 (int_bar ULONG_MAX))).
    repeat match goal with |- _ /\ _ => split end;
      try (vm_compute; reflexivity).
    vm_compute. discriminate.
Qed.

Lemma increment_zero_total_counts_one_error_witness :
  let m := seq_bar clock_30ms (JobsInt 0) in
  in_uint 3 = true
  /\ num_jobs (self m) = 0
  /\ in_int (errors (self m) + 1) = true
  /\ exists m',
       increment clock_30ms 3 m = (Normal tt, m')
       /\ errors (self m') = errors (self m) + 1
       /\ progress (self m') = progress (self m)
       /\ throughput (self m') = throughput (self m)
       /\ execution_time (self m') = execution_time (self m)
       /\ last_print_time (self m') = last_print_time (self m)
       /\ stdout m' = stdout m.
Proof.
  intros m. split; [reflexivity|]. split; [reflexivity|]. split; [reflexivity|].
  apply (SeqBarFacts.increment_zero_total_counts_one_error clock_30ms m 3);
    reflexivity.
Defined.

(** *** C6: the stored percent *)

Lemma percent_is_floor_or_one_below_witness :
  let m := snd (increment clock_30ms 28 (seq_bar clock_30ms (JobsInt 100))) in
  in_uint 1 = true
  /\ in_int (_value (self m) + 1) = true
  /\ in_ulong (num_jobs (self m)) = true
  /\ 0 < num_jobs (self m)
  /\ 0 <= _value (self m) + 1 <= num_jobs (self m)
  /\ exists m',
       increment clock_30ms 1 m = (Normal tt, m')
       /\ let completed := _value (self m') in
          let total := num_jobs (self m') in
          completed = _value (self m) + 1
          /\ total = num_jobs (self m)
          /\ 100 * completed / total - 1 <= progress (self m') <= 100 * completed / total
          /\ ((100 * completed) mod total <> 0
              -> progress (self m') = 100 * completed / total)
          /\ (completed = total -> progress (self m') = 100)
          /\ (completed = 0 -> progress (self m') = 0).
Proof.
  intros m. split; [reflexivity|]. split; [reflexivity|].
  split; [reflexivity|]. split; [reflexivity|].
  split; [vm_compute; split; discriminate|].
  apply (SeqBarWithinTotal.percent_is_floor_or_one_below clock_30ms m 1);
    try reflexivity; vm_compute; split; discriminate.
Defined.

(** C6, as stated, fails: the quotient and the product are rounded, and
    29 of 100 stores 28 where the floor of the exact [29 / 100 * 100]
    is 29; so do 57 and 58 of 100, which store 56 and 57. *)
Lemma twenty_nine_of_100_stores_28 :
  let bar := seq_bar clock_30ms (JobsInt 100) in
  let m := snd (increment clock_30ms 29 bar) in
  fst (increment clock_30ms 29 bar) = Normal tt
  /\ _value (self m) = 29
  /\ num_jobs (self m) = 100
  /\ 100 * _value (self m) / num_jobs (self m) = 29
  /\ progress (self m) = 28
  /\ progress (self (snd (increment clock_30ms 57 bar))) = 56
  /\ progress (self (snd (increment clock_30ms 58 bar))) = 57.
Proof. evaluate. Qed.

(** *** C7: the metrics of a repaint *)



(** The repaint metrics ask for a total below 2^53: from there on the
    integer [total - completed] need not be a double.  On a bar of 2^53 + 2,
    the first call leaves [2^53 + 1] to do, which no double holds; the
    conversion rounds it to 2^53 and after 3 s the line shows
    [3 * 2^53] s. *)
Example large_total_difference_is_rounded :
  let m := seq_bar clock_1s (JobsInt 9007199254740994) in
  let m' := snd (increment clock_1s 1 m) in
  _value (self m') = 1
  /\ num_jobs (self m') - _value (self m') = 2 ^ 53 + 1
  /\ holds_exactly (2 ^ 53) (double_of_N (num_jobs (self m') - _value (self m'))) = true
  /\ execution_time (self m') = 3%float
  /\ stdout_text (stdout m')
     = (CR ++ "[0.3 iter/s] [] 0% (ETA: 27021597764222976.0s/3.0s)")%string
  /\ 3 * (2 ^ 53 + 1) = 27021597764222979.
Proof. evaluate. Qed.

(** The status line of that call, as text. *)
Example status_line_after_one_of_ten :
  stdout_text (stdout (snd (increment clock_1s 1 (seq_bar clock_1s (JobsInt 10)))))
  = (CR ++ "[0.3 iter/s] [=====] 10% (ETA: 27.0s/3.0s)")%string.
Proof. vm_compute. reflexivity. Qed.

(** *** C5: the call that reaches the total, on the integer-only bar *)

(** C5 at its failing input: a bar of 5 jobs, five calls 30 or 60 ms
    apart.  The first and the fourth call repaint; the fifth brings
    the counter to the total inside the throttle interval, compares
    the percent 100 with the total 5, and writes nothing. *)
Theorem int_bar_reaches_total_unseen :
  let step := IntBar.increment clock_30ms 1 in
  let m4 := snd (step (snd (step (snd (step (snd (step (int_bar 5)))))))) in
  exists m5,
    step m4 = (Normal tt, m5)
    /\ IntBar._value (self m5) = 5
    /\ IntBar.num_jobs (self m5) = 5
    /\ IntBar.progress (self m5) = 100
    /\ stdout m5 = stdout m4
    /\ count_site CompleteLine (stdout m5) = 0%nat
    /\ stdout_text (stdout m5)
       = (CR ++ "[==========] 20% (ETA: 0.06s/0.24s) 133.33 MBits/s"
          ++ CR ++ "[========================================] 80% (ETA: 0.18s/0.04s) 177.78 MBits/s")%string.
Proof.
  intros step m4. exists (snd (step m4)). evaluate.
Qed.

(** The same comparison fires early when the percent happens to equal
    the total: with 50 jobs, the call that brings the counter to 25
    inside the throttle interval calls [complete], which forces the
    counter to 50. *)
Example int_bar_completes_at_half :
  let m1 := snd (IntBar.increment clock_30ms 1 (int_bar 50)) in
  let m24 := snd (IntBar.set_value 24 m1) in
  let m25 := snd (IntBar.increment clock_30ms 1 m24) in
  IntBar._value (self m24) = 24
  /\ IntBar._value (self m25) = 50
  /\ count_site CompleteLine (stdout m25) = 1%nat.
Proof. evaluate. Qed.

Lemma silent_inside_throttle_witness :
  let step := IntBar.increment clock_30ms 1 in
  let m4 := snd (step (snd (step (snd (step (snd (step (int_bar 5)))))))) in
  in_ushort 1 = true
  /\ (IntBar.start_time (self m4) =? 0)%float = false
  /\ IntBar.num_jobs (self m4) <> 0
  /\ (IntBar.print_interval (self m4)
      <? clock_30ms (ticks m4) - IntBar.last_print_time (self m4))%float = false
  /\ int_of_double (double_of_Z (to_int (IntBar._value (self m4) + 1))
                    / double_of_Z (IntBar.num_jobs (self m4)) * 100)
     <> IntBar.num_jobs (self m4)
  /\ IntBar.increment clock_30ms 1 m4
     = (Normal tt,
        Machine (IntBar.set_progress
                   (int_of_double (double_of_Z (to_int (IntBar._value (self m4) + 1))
                                   / double_of_Z (IntBar.num_jobs (self m4)) * 100))
                   (IntBar.set__value (to_int (IntBar._value (self m4) + 1)) (self m4)))
                (S (ticks m4)) (stdout m4)).
Proof.
  intros step m4.
  assert (H1 : in_ushort 1 = true) by reflexivity.
  assert (H2 : (IntBar.start_time (self m4) =? 0)%float = false)
    by (vm_compute; reflexivity).
  assert (H3 : IntBar.num_jobs (self m4) <> 0) by (vm_compute; discriminate).
  assert (H4 : (IntBar.print_interval (self m4)
                <? clock_30ms (ticks m4) - IntBar.last_print_time (self m4))%float
               = false) by (vm_compute; reflexivity).
  assert (H5 : int_of_double (double_of_Z (to_int (IntBar._value (self m4) + 1))
                              / double_of_Z (IntBar.num_jobs (self m4)) * 100)
               <> IntBar.num_jobs (self m4)) by (vm_compute; discriminate).
  repeat match goal with |- _ /\ _ => split end; try assumption.
  exact (IntBarFacts.silent_inside_throttle clock_30ms m4 1 H1 H2 H3 H4 H5).
Defined.

(** On the sequence-aware bar two calls 30 ms apart write at most one
    status line, and the call that reaches the total writes the final
    line. *)
Lemma two_close_calls_one_status_line_witness :
  let m := seq_bar clock_30ms (JobsInt 5) in
  in_uint 1 = true
  /\ (current_time clock_30ms (snd (increment clock_30ms 1 m)) - current_time clock_30ms m
      <? print_interval (self m))%float = true
  /\ (count_site StatusLine
        (stdout (snd (increment clock_30ms 1 (snd (increment clock_30ms 1 m)))))
      <= count_site StatusLine (stdout m) + 1)%nat.
Proof.
  intros m. split; [reflexivity|]. split; [vm_compute; reflexivity|].
  apply (SeqBarFacts.two_close_calls_one_status_line clock_30ms m 1 1);
    vm_compute; reflexivity.
Defined.

Lemma reaching_total_writes_final_line_witness :
  let m := seq_bar clock_30ms (JobsInt 1) in
  in_uint 1 = true
  /\ num_jobs (self m) <> 0
  /\ to_ulong (to_int (_value (self m) + 1)) = num_jobs (self m)
  /\ exists m',
       increment clock_30ms 1 m = (Normal tt, m')
       /\ count_site FinalLine (stdout m') = S (count_site FinalLine (stdout m)).
Proof.
  intros m. split; [reflexivity|]. split; [vm_compute; discriminate|].
  split; [reflexivity|].
  apply (SeqBarFacts.reaching_total_writes_final_line clock_30ms m 1);
    try reflexivity.
  vm_compute. discriminate.
Defined.

Lemma increment_never_raises_witness :
  in_uint UINT_MAX = true
  /\ exists m',
       increment clock_30ms UINT_MAX (seq_bar clock_30ms (JobsInt 0)) = (Normal tt, m').
Proof.
  split; [reflexivity|].
  apply (SeqBarFacts.increment_never_raises clock_30ms); reflexivity.
Defined.

Lemma methods_keep_fields_typed_witness :
  let m := seq_bar clock_30ms (JobsSequence [10; 20; 30]%nat) in
  seq_well_typed (self m) = true
  /\ seq_well_typed (self (snd (increment clock_30ms UINT_MAX m))) = true
  /\ seq_well_typed (self (snd (set_value (-1) m))) = true
  /\ seq_well_typed (self (snd (complete m))) = true
  /\ seq_well_typed (self (snd (__enter__ clock_30ms m))) = true
  /\ seq_well_typed (self (snd (__exit__ clock_30ms None m))) = true
  /\ seq_well_typed (self (snd (__next__ clock_30ms m))) = true.
Proof.
  intros m. split; [reflexivity|].
  apply (SeqBarFacts.methods_keep_fields_typed clock_30ms m UINT_MAX (-1) None).
  reflexivity.
Defined.

(** *** C8: iterating *)

Lemma iterating_a_sequence_witness :
  let items := [10; 20; 30; 40; 50]%nat in
  let m0 := boot (@blank nat) in
  Z.of_nat (List.length items) <= INT_MAX
  /\ exists m1 m2,
       __init__ clock_30ms (JobsSequence items) EmptyString true 0.1 m0 = (Normal tt, m1)
       /\ num_jobs (self m1) = Z.of_nat (List.length items)
       /\ (forall m k item,
             sequence (self m) = Some items ->
             _index (self m) = Z.of_nat k ->
             nth_error items k = Some item ->
             __next__ clock_30ms m
             = (Normal item, snd (increment clock_30ms 1 (cursor_advanced m)))
             /\ fst (increment clock_30ms 1 (cursor_advanced m)) = Normal tt
             /\ _index (self (snd (increment clock_30ms 1 (cursor_advanced m))))
                = Z.of_nat k + 1
             /\ _value (self (snd (increment clock_30ms 1 (cursor_advanced m))))
                = to_int (_value (self m) + 1))
       /\ pulls clock_30ms (List.length items) m1 = (Normal items, m2)
       /\ _value (self m2) = Z.of_nat (List.length items)
       /\ _index (self m2) = Z.of_nat (List.length items)
       /\ errors (self m2) = 0
       /\ __next__ clock_30ms m2 = (Raised StopIteration, m2).
Proof.
  intros items m0. split; [vm_compute; discriminate|].
  apply (SeqBarFacts.iterating_a_sequence clock_30ms items EmptyString true 0.1 m0).
  vm_compute; discriminate.
Defined.

(** Five items: five pulls, then the sixth signals the end. *)
Example five_items_then_stop :
  let m1 := seq_bar clock_30ms (JobsSequence [10; 20; 30; 40; 50]%nat) in
  num_jobs (self m1) = 5
  /\ fst (pulls clock_30ms 5 m1) = Normal [10; 20; 30; 40; 50]%nat
  /\ _value (self (snd (pulls clock_30ms 5 m1))) = 5
  /\ fst (pulls clock_30ms 6 m1) = Raised StopIteration
  /\ _value (self (snd (pulls clock_30ms 6 m1))) = 5.
Proof. evaluate. Qed.

(** A one-shot iterator is spent by the first [list(jobs)]: the total
    is its length and the stored sequence is empty, so the first pull
    already signals the end. *)
Example one_shot_iterator_is_spent :
  let m1 := seq_bar clock_30ms (JobsIterator [10; 20; 30]%nat) in
  num_jobs (self m1) = 3
  /\ sequence (self m1) = Some []
  /\ fst (__next__ clock_30ms m1) = Raised StopIteration.
Proof. evaluate. Qed.

(** *** C9: the sign of the counter *)

(** C9, as stated, fails: assigning [value] stores a negative [int] as
    it is; an amount that fills [unsigned int] wraps the [int] counter
    below zero; the integer-only bar built with 4294967295 holds the
    total -1, which [complete] and [__exit__] store in the counter;
    and on the one built with 4294967286, total -10, the call that
    counts 1 inside the throttle interval finds the percent -10 equal
    to the total and completes, leaving the counter at -10. *)
Lemma assignment_and_wraparound_go_negative :
  let m := seq_bar clock_30ms (JobsInt 5) in
  let mi := int_bar 4294967295 in
  let mj := snd (IntBar.increment clock_30ms 0 (int_bar 4294967286)) in
  0 <= _value (self m)
  /\ (exists m', set_value (-1) m = (Normal tt, m') /\ _value (self m') = -1)
  /\ (exists m', increment clock_30ms UINT_MAX m = (Normal tt, m')
                 /\ _value (self m') = -1)
  /\ IntBar._value (self mi) = 0
  /\ IntBar.num_jobs (self mi) = -1
  /\ (exists m', IntBar.complete mi = (Normal tt, m') /\ IntBar._value (self m') = -1)
  /\ (exists r m', IntBar.__exit__ clock_30ms None mi = (Normal r, m')
                   /\ IntBar._value (self m') = -1)
  /\ IntBar._value (self mj) = 0
  /\ IntBar.num_jobs (self mj) = -10
  /\ (exists m', IntBar.increment clock_30ms 1 mj = (Normal tt, m')
                 /\ IntBar._value (self m') = -10)
  /\ -1 < 0.
Proof.
  intros m mi mj. split; [vm_compute; discriminate|].
  split; [exists (snd (set_value (-1) m)); evaluate|].
  split; [exists (snd (increment clock_30ms UINT_MAX m)); evaluate|].
  split; [reflexivity|]. split; [reflexivity|].
  split; [exists (snd (IntBar.complete mi)); evaluate|].
  split; [exists false, (snd (IntBar.__exit__ clock_30ms None mi)); evaluate|].
  split; [reflexivity|]. split; [reflexivity|].
  split; [exists (snd (IntBar.increment clock_30ms 1 mj)); evaluate|].
  reflexivity.
Qed.

Lemma counter_stays_nonnegative_witness :
  let ms := seq_bar clock_30ms (JobsInt 5) in
  let mi := int_bar 5 in
  0 <= _value (self ms)
  /\ 0 <= IntBar._value (self mi)
  /\ in_int 4 = true
  /\ (forall jobs t' p i m1,
         __init__ clock_30ms jobs t' p i ms = (Normal tt, m1) -> _value (self m1) = 0)
  /\ (forall a,
         in_uint a = true -> _value (self ms) + a <= INT_MAX ->
         exists m', increment clock_30ms a ms = (Normal tt, m') /\ 0 <= _value (self m'))
  /\ (exists m', complete ms = (Normal tt, m') /\ 0 <= _value (self m'))
  /\ (exists m', __enter__ clock_30ms ms = (Normal tt, m') /\ 0 <= _value (self m'))
  /\ (exists r m', __exit__ clock_30ms None ms = (Normal r, m')
                   /\ 0 <= _value (self m'))
  /\ (exists m', set_value 4 ms = (Normal tt, m')
                 /\ _value (self m') = 4
                 /\ (0 <= _value (self m') <-> 0 <= 4))
  /\ (forall n p i m1,
         IntBar.__init__ n p i mi = (Normal tt, m1) -> IntBar._value (self m1) = 0)
  /\ (forall a,
         in_ushort a = true -> IntBar._value (self mi) + a <= INT_MAX ->
         0 <= IntBar.num_jobs (self mi) ->
         exists m', IntBar.increment clock_30ms a mi = (Normal tt, m')
                    /\ 0 <= IntBar._value (self m'))
  /\ (0 <= IntBar.num_jobs (self mi) ->
      exists m', IntBar.complete mi = (Normal tt, m') /\ 0 <= IntBar._value (self m'))
  /\ (exists m', IntBar.__enter__ clock_30ms mi = (Normal tt, m')
                 /\ 0 <= IntBar._value (self m'))
  /\ (0 <= IntBar.num_jobs (self mi) ->
      exists r m', IntBar.__exit__ clock_30ms None mi = (Normal r, m')
                   /\ 0 <= IntBar._value (self m'))
  /\ (exists m', IntBar.set_value 4 mi = (Normal tt, m')
                 /\ IntBar._value (self m') = 4
                 /\ (0 <= IntBar._value (self m') <-> 0 <= 4)).
Proof.
  intros ms mi. split; [vm_compute; discriminate|].
  split; [vm_compute; discriminate|]. split; [reflexivity|].
  apply (CounterSign.counter_stays_nonnegative clock_30ms ms mi 4 None);
    try reflexivity; vm_compute; discriminate.
Defined.

(** *** C10: the counter moves before the division fails *)

Lemma increment_counts_before_division_fails_witness :
  let m := seq_bar clock_30ms (JobsInt 0) in
  in_uint 3 = true
  /\ in_int (_value (self m) + 3) = true
  /\ num_jobs (self m) = 0
  /\ exists mid m',
       increment_try clock_30ms 3 (started clock_30ms m) = (Raised ZeroDivisionError, mid)
       /\ _value (self mid) = _value (self m) + 3
       /\ progress (self mid) = progress (self m)
       /\ errors (self mid) = errors (self m)
       /\ increment clock_30ms 3 m = (Normal tt, m')
       /\ _value (self m') = _value (self m) + 3
       /\ progress (self m') = progress (self m)
       /\ throughput (self m') = throughput (self m)
       /\ errors (self m') = to_int (errors (self m) + 1).
Proof.
  intros m. split; [reflexivity|]. split; [reflexivity|]. split; [reflexivity|].
  apply (SeqBarFacts.increment_counts_before_division_fails clock_30ms m 3);
    reflexivity.
Defined.

End Examples.

(** ** Worked examples for the edges, the integer-only bar and the driver *)

Module Walkthroughs.

Import Driver.
Local Open Scope string_scope.
Local Open Scope list_scope.

Ltac settle :=
  lazymatch goal with
  | |- Forall _ _ => repeat constructor
  | |- _ => first [ vm_compute; reflexivity | vm_compute; discriminate ]
  end.

Ltac evaluate :=
  intros; repeat match goal with |- _ /\ _ => split end; vm_compute; reflexivity.

(** *** The sequence-aware bar *)

Lemma reaching_total_stores_100_witness :
  let m := snd (SeqBar.increment clock_30ms 2 (seq_bar clock_30ms (SeqBar.JobsInt 3))) in
  in_uint 1 = true
  /\ 0 < to_int (SeqBar._value (self m) + 1)
  /\ to_ulong (to_int (SeqBar._value (self m) + 1)) = SeqBar.num_jobs (self m)
  /\ exists m',
       SeqBar.increment clock_30ms 1 m = (Normal tt, m')
       /\ SeqBar._value (self m') = SeqBar.num_jobs (self m)
       /\ SeqBar.progress (self m') = 100
       /\ SeqBar.errors (self m') = SeqBar.errors (self m)
       /\ In (stdout_write FinalLine
                (SeqBar.final_text (SeqBar.throughput (self m')) 100)) (stdout m')
       /\ bar_glyph 100 = str_repeat "=" 50.
Proof.
  intros m. split; [settle|]. split; [settle|]. split; [settle|].
  apply (SeqBarEdges.reaching_total_stores_100 clock_30ms m 1); settle.
Defined.

(** Two of three, then the third: the percent goes from 66 to 100. *)
Example percent_at_the_total :
  let m := snd (SeqBar.increment clock_30ms 2 (seq_bar clock_30ms (SeqBar.JobsInt 3))) in
  SeqBar.progress (self m) = 66
  /\ SeqBar.progress (self (snd (SeqBar.increment clock_30ms 1 m))) = 100.
Proof. evaluate. Qed.

Lemma pulling_from_a_count_raises_witness :
  let m0 := boot (@SeqBar.blank nat) in
  let m1 := seq_bar clock_30ms (SeqBar.JobsInt 5) in
  SeqBar.sequence (self m0) = None
  /\ SeqBar.__init__ clock_30ms (SeqBar.JobsInt 5) EmptyString true 0.1 m0 = (Normal tt, m1)
  /\ SeqBar.__next__ clock_30ms m1 = (Raised TypeError, m1).
Proof.
  intros m0 m1. split; [settle|]. split; [settle|].
  apply (SeqBarEdges.pulling_from_a_count_raises clock_30ms 5 EmptyString true 0.1 m0 m1);
    settle.
Defined.

Lemma spent_iterator_yields_nothing_witness :
  let items := [10; 20; 30]%nat in
  let m0 := boot (@SeqBar.blank nat) in
  in_ulong (Z.of_nat (List.length items)) = true
  /\ exists m1,
       SeqBar.__init__ clock_30ms (SeqBar.JobsIterator items) EmptyString true 0.1 m0
       = (Normal tt, m1)
       /\ SeqBar.num_jobs (self m1) = Z.of_nat (List.length items)
       /\ SeqBar.sequence (self m1) = Some []
       /\ SeqBar.__next__ clock_30ms m1 = (Raised StopIteration, m1).
Proof.
  intros items m0. split; [settle|].
  apply (SeqBarEdges.spent_iterator_yields_nothing clock_30ms items EmptyString true 0.1 m0).
  settle.
Defined.

Lemma constructor_rejects_witness :
  let m := boot (@SeqBar.blank nat) in
  in_ulong (-1) = false
  /\ exists m',
       SeqBar.__init__ clock_30ms (SeqBar.JobsInt (-1)) EmptyString true 0.1 m
       = (Raised OverflowError, m')
       /\ stdout m' = stdout m
       /\ ticks m' = ticks m.
Proof.
  intros m. split; [settle|].
  apply (SeqBarEdges.constructor_rejects clock_30ms (SeqBar.JobsInt (-1))
           EmptyString true 0.1 m).
  settle.
Defined.

Lemma zero_total_counts_every_call_witness :
  let m := seq_bar clock_30ms (SeqBar.JobsInt 0) in
  Forall (fun a => in_uint a = true) [1; 2; 3]
  /\ seq_well_typed (self m) = true
  /\ SeqBar.num_jobs (self m) = 0
  /\ exists m',
       increments (SeqBar.increment clock_30ms) [1; 2; 3] m = (Normal tt, m')
       /\ SeqBar._value (self m') = to_int (SeqBar._value (self m) + total_of [1; 2; 3])
       /\ SeqBar.errors (self m')
          = to_int (SeqBar.errors (self m) + Z.of_nat (List.length [1; 2; 3]))
       /\ SeqBar.num_jobs (self m') = 0
       /\ SeqBar.progress (self m') = SeqBar.progress (self m)
       /\ stdout m' = stdout m.
Proof.
  intros m. split; [settle|]. split; [settle|]. split; [settle|].
  apply (SeqBarEdges.zero_total_counts_every_call clock_30ms [1; 2; 3] m); settle.
Defined.

(** *** The integer-only bar *)

Lemma int_increment_never_raises_witness :
  in_ushort USHRT_MAX = true
  /\ exists m', IntBar.increment clock_30ms USHRT_MAX (int_bar 0) = (Normal tt, m').
Proof.
  split; [settle|].
  apply (IntBarIncrement.int_increment_never_raises clock_30ms); settle.
Defined.

Lemma int_methods_keep_fields_typed_witness :
  let m := int_bar 5 in
  int_well_typed (self m) = true
  /\ int_well_typed (self (snd (IntBar.increment clock_30ms USHRT_MAX m))) = true
  /\ int_well_typed (self (snd (IntBar.set_value (-1) m))) = true
  /\ int_well_typed (self (snd (IntBar.update m))) = true
  /\ int_well_typed (self (snd (IntBar.complete m))) = true
  /\ int_well_typed (self (snd (IntBar.__enter__ clock_30ms m))) = true
  /\ int_well_typed (self (snd (IntBar.__exit__ clock_30ms None m))) = true.
Proof.
  intros m. split; [settle|].
  apply (IntBarIncrement.int_methods_keep_fields_typed clock_30ms m USHRT_MAX (-1) None).
  settle.
Defined.


(** The status line of that call, as text: the elapsed time comes
    first, the remaining time second. *)
Example int_status_line_after_one_of_ten :
  stdout_text (stdout (snd (IntBar.increment clock_1s 1 (int_bar 10))))
  = (CR ++ "[=====] 10% (ETA: 2.00s/18.00s) 4.00 MBits/s")%string.
Proof. vm_compute. reflexivity. Qed.

Lemma int_reaching_total_witness :
  let step := IntBar.increment clock_30ms 1 in
  let m := snd (IntBar.set_value 99 (snd (step (int_bar 100)))) in
  in_ushort 1 = true
  /\ 0 < IntBar.num_jobs (self m)
  /\ to_int (IntBar._value (self m) + 1) = IntBar.num_jobs (self m)
  /\ exists m',
       IntBar.increment clock_30ms 1 m = (Normal tt, m')
       /\ IntBar._value (self m') = IntBar.num_jobs (self m)
       /\ IntBar.progress (self m') = 100
       /\ count_site StatusLine (stdout m')
          = (count_site StatusLine (stdout m)
             + (if IntBarCall.throttle_open clock_30ms m then 1 else 0))%nat
       /\ count_site CompleteLine (stdout m')
          = (count_site CompleteLine (stdout m)
             + (if negb (IntBarCall.throttle_open clock_30ms m)
                   && (IntBar.num_jobs (self m) =? 100)%Z then 1 else 0))%nat.
Proof.
  intros step m. split; [settle|]. split; [settle|]. split; [settle|].
  apply (IntBarIncrement.int_reaching_total clock_30ms m 1); settle.
Defined.

(** With a total of 100 the call that reaches it inside the throttle
    interval does write the bar at 100%; with a total of 5 it does
    not. *)
Example only_a_total_of_100_completes :
  let step := IntBar.increment clock_30ms 1 in
  let m100 := snd (IntBar.set_value 99 (snd (step (int_bar 100)))) in
  let m5 := snd (IntBar.set_value 4 (snd (step (int_bar 5)))) in
  IntBarCall.throttle_open clock_30ms m100 = false
  /\ count_site CompleteLine (stdout (snd (step m100))) = 1%nat
  /\ IntBarCall.throttle_open clock_30ms m5 = false
  /\ IntBar._value (self (snd (step m5))) = 5
  /\ count_site CompleteLine (stdout (snd (step m5))) = 0%nat.
Proof. evaluate. Qed.

Lemma int_zero_total_counts_every_call_witness :
  let m := int_bar 0 in
  Forall (fun a => in_ushort a = true) [1; 2; 3]
  /\ int_well_typed (self m) = true
  /\ IntBar.num_jobs (self m) = 0
  /\ exists m',
       increments (IntBar.increment clock_30ms) [1; 2; 3] m = (Normal tt, m')
       /\ IntBar._value (self m') = to_int (IntBar._value (self m) + total_of [1; 2; 3])
       /\ IntBar.errors (self m')
          = to_int (IntBar.errors (self m) + Z.of_nat (List.length [1; 2; 3]))
       /\ IntBar.num_jobs (self m') = 0
       /\ IntBar.progress (self m') = IntBar.progress (self m)
       /\ stdout m' = stdout m.
Proof.
  intros m. split; [settle|]. split; [settle|]. split; [settle|].
  apply (IntBarIncrement.int_zero_total_counts_every_call clock_30ms [1; 2; 3] m); settle.
Defined.

(** A total that is a multiple of 2^32 is stored as zero. *)
Example total_of_2_32_is_zero :
  IntBar.num_jobs (self (int_bar 4294967296)) = 0
  /\ IntBar.errors (self (snd (IntBar.increment clock_30ms 1 (int_bar 4294967296)))) = 1.
Proof. evaluate. Qed.

Lemma percent_stays_within_0_100_witness :
  let m := snd (SeqBar.increment clock_30ms 28 (seq_bar clock_30ms (SeqBar.JobsInt 100))) in
  in_uint 1 = true
  /\ 0 <= to_int (SeqBar._value (self m) + 1) <= SeqBar.num_jobs (self m)
  /\ 0 < SeqBar.num_jobs (self m) < 2 ^ 53
  /\ exists m',
       SeqBar.increment clock_30ms 1 m = (Normal tt, m')
       /\ 0 <= SeqBar.progress (self m') <= 100
       /\ String.length (bar_glyph (SeqBar.progress (self m')))
          = Z.to_nat (SeqBar.progress (self m') / 2)
       /\ (String.length (bar_glyph (SeqBar.progress (self m'))) <= 50)%nat.
Proof.
  intros m.
  assert (H1 : in_uint 1 = true) by settle.
  assert (H2 : 0 <= to_int (SeqBar._value (self m) + 1) <= SeqBar.num_jobs (self m))
    by (split; settle).
  assert (H3 : 0 < SeqBar.num_jobs (self m) < 2 ^ 53) by (split; settle).
  split; [exact H1|]. split; [exact H2|]. split; [exact H3|].
  exact (SeqBarEdges.percent_stays_within_0_100 clock_30ms m 1 H1 H2 H3).
Defined.

Lemma int_percent_stays_within_0_100_witness :
  let m := snd (IntBar.increment clock_30ms 28 (int_bar 100)) in
  in_ushort 1 = true
  /\ in_int (IntBar.num_jobs (self m)) = true
  /\ 0 < IntBar.num_jobs (self m)
  /\ 0 <= to_int (IntBar._value (self m) + 1) <= IntBar.num_jobs (self m)
  /\ exists m',
       IntBar.increment clock_30ms 1 m = (Normal tt, m')
       /\ 0 <= IntBar.progress (self m') <= 100
       /\ String.length (bar_glyph (IntBar.progress (self m')))
          = Z.to_nat (IntBar.progress (self m') / 2)
       /\ (String.length (bar_glyph (IntBar.progress (self m'))) <= 50)%nat.
Proof.
  intros m.
  assert (H1 : in_ushort 1 = true) by settle.
  assert (H2 : in_int (IntBar.num_jobs (self m)) = true) by settle.
  assert (H3 : 0 < IntBar.num_jobs (self m)) by settle.
  assert (H4 : 0 <= to_int (IntBar._value (self m) + 1) <= IntBar.num_jobs (self m))
    by (split; settle).
  split; [exact H1|]. split; [exact H2|]. split; [exact H3|]. split; [exact H4|].
  exact (IntBarIncrement.int_percent_stays_within_0_100 clock_30ms m 1 H1 H2 H3 H4).
Defined.

(** *** The duration text *)

Lemma sub_minute_durations_witness :
  (1.5 <? 60)%float = true
  /\ duration_text 1.5
     = (if (1.5 <? 1)%float then format_f 0 (1.5 / 1e-3) ++ " ms"
        else format_f 2 1.5 ++ " seconds")%string.
Proof.
  split; [settle|]. apply (sub_minute_durations 1.5). settle.
Defined.

(** Half a second, a second and a half, and a quarter of a second
    before the start. *)
Example durations_below_a_minute :
  duration_text 0.5 = "500 ms"
  /\ duration_text 1.5 = "1.50 seconds"
  /\ duration_text 59.994 = "59.99 seconds"
  /\ duration_text (-0.25) = "-250 ms".
Proof. evaluate. Qed.

(** *** The text of [__repr__] *)

Example repr_of_a_bar :
  fst (SeqBar.__repr__ "ProgressBar"
         (snd (SeqBar.increment clock_30ms 1 (seq_bar clock_30ms (SeqBar.JobsInt 5)))))
  = Normal "ProgressBar(initial_value=5, current_value=1, errors=0, progress=20)"
  /\ fst (IntBar.__repr__ "ProgressBar" (snd (IntBar.set_value (-3) (int_bar 5))))
     = Normal "ProgressBar(initial_value=5, current_value=-3, errors=0, progress=0)".
Proof. evaluate. Qed.

(** *** The driver *)

Lemma main_needs_an_argument_witness :
  (List.length ["ProgressBar"] < 2)%nat
  /\ main clock_30ms decimal ["ProgressBar"] (fresh [Line "a"])
     = (Raised IndexError, fresh [Line "a"]).
Proof.
  split; [repeat constructor|].
  apply (DriverFacts.main_needs_an_argument clock_30ms decimal). repeat constructor.
Defined.

Lemma main_shows_the_usage_witness :
  let p := fresh [Line "a"] in
  contains "-h" "--help" = true
  /\ main clock_30ms decimal ["ProgressBar"; "--help"] p
     = (Raised (SystemExit 1),
        Process (progress_bar p) (time_calls p)
                (streams p ++ [stdout_print usage_text; stdout_print example_text])
                (stdin p)).
Proof.
  intros p. split; [settle|].
  apply (DriverFacts.main_shows_the_usage clock_30ms decimal). settle.
Defined.

Lemma main_rejects_the_count_witness :
  let p := fresh [Line "a"] in
  contains "-h" "-5" = false
  /\ match decimal "-5" with Some n => in_ulong n = false | None => True end
  /\ exists p',
       main clock_30ms decimal ["ProgressBar"; "-5"] p
       = (Raised (match decimal "-5" with Some _ => OverflowError | None => ValueError end),
          p')
       /\ streams p' = streams p
       /\ stdin p' = stdin p.
Proof.
  intros p. split; [settle|]. split; [settle|].
  apply (DriverFacts.main_rejects_the_count clock_30ms decimal); settle.
Defined.

(** A negative count ends in [OverflowError], a word in [ValueError]. *)
Example main_on_bad_counts :
  fst (main clock_30ms decimal ["ProgressBar"; "-5"] (fresh [])) = Raised OverflowError
  /\ fst (main clock_30ms decimal ["ProgressBar"; "five"] (fresh [])) = Raised ValueError.
Proof. evaluate. Qed.

Lemma main_with_zero_shows_the_usage_witness :
  let p := fresh [Line "a"] in
  contains "-h" "0" = false
  /\ decimal "0" = Some 0
  /\ exists p',
       main clock_30ms decimal ["ProgressBar"; "0"] p = (Raised (SystemExit 1), p')
       /\ streams p'
          = streams p ++ [stderr_print (format_i 0); stdout_print usage_text;
                          stdout_print example_text]
       /\ stdin p' = stdin p.
Proof.
  intros p. split; [settle|]. split; [settle|].
  apply (DriverFacts.main_with_zero_shows_the_usage clock_30ms decimal); settle.
Defined.

Lemma main_counts_the_lines_witness :
  let p := fresh [Line "a"; Line "b"; Line ""; Line "c"] in
  contains "-h" "3" = false
  /\ decimal "3" = Some 3
  /\ 0 < 3
  /\ in_ulong 3 = true
  /\ Z.of_nat (List.length (stdin p)) <= INT_MAX
  /\ exists p',
       main clock_30ms decimal ["ProgressBar"; "3"] p = (Normal tt, p')
       /\ SeqBar.num_jobs (progress_bar p') = 3
       /\ SeqBar._value (progress_bar p') = Z.of_nat (counted_lines (stdin p))
       /\ SeqBar.errors (progress_bar p') = 0
       /\ stdin p' = unread (stdin p)
       /\ printed (streams p') = printed (streams p) ++ [stderr_print (format_i 3)]
       /\ count_bar_site SummaryLine (streams p')
          = S (count_bar_site SummaryLine (streams p))
       /\ count_bar_site CompleteLine (streams p')
          = (count_bar_site CompleteLine (streams p)
             + (if interrupted (stdin p) then 1 else 0))%nat.
Proof.
  intros p. split; [settle|]. split; [settle|]. split; [settle|]. split; [settle|].
  split; [settle|].
  apply (DriverFacts.main_counts_the_lines clock_30ms decimal); settle.
Defined.

(** Two lines, an empty line, a fourth line: two calls of [increment],
    the fourth line left unread, the summary printed, a normal
    return.  With the interrupt in place of the empty line the bar at
    100% is written as well. *)
Example main_on_four_lines :
  let r := main clock_30ms decimal ["ProgressBar"; "3"]
             (fresh [Line "a"; Line "b"; Line ""; Line "c"]) in
  let r' := main clock_30ms decimal ["ProgressBar"; "3"]
              (fresh [Line "a"; Line "b"; Interrupt; Line "c"]) in
  fst r = Normal tt
  /\ SeqBar._value (progress_bar (snd r)) = 2
  /\ stdin (snd r) = [Line "c"]
  /\ streams (snd r)
     = [stderr_print "3";
        bar_output (print SummaryLine (summary_text "90 ms"))]
  /\ fst r' = Normal tt
  /\ streams (snd r')
     = [stderr_print "3";
        bar_output (stdout_write CompleteLine complete_text);
        bar_output stdout_flush;
        bar_output (print SummaryLine (summary_text "90 ms"))].
Proof. evaluate. Qed.

End Walkthroughs.
